(** * A resilient email service: circuit breaker, retry with backoff,
      provider fallback, idempotency and rate limiting

    Shallow embedding of [src/services/CircuitBreaker.ts] and
    [src/services/EmailService.ts], with the provider interface of
    [src/interfaces/IEmailProvider.ts], the two providers of
    [src/providers] and the service that [src/server.ts] builds over
    them.

    The source is asynchronous TypeScript.  An [async] function runs
    synchronously up to its first [await]; between two [await]s nothing
    else runs.  The embedding keeps that structure: a computation is a
    tree of synchronous state reads and writes with an [Await] node for
    every [await] of the source.  Two interpreters are given for the same
    trees: [runSeq] resumes a computation as soon as what it awaits is
    due and lets nothing else run in between (a caller that awaits every
    call), and [run] interleaves several calls at their [await]s under an
    explicit schedule (callers that do not await, as [src/server.ts]). *)

From stdpp Require Import gmap strings list.
From Stdlib Require Import ZArith QArith Lia.

Local Open Scope Z_scope.

(** ** Data model *)

(** [EmailPayload] of [IEmailProvider.ts]. *)
Record EmailPayload := mkPayload {
  ep_to : string;
  ep_from : string;
  ep_subject : string;
  ep_body : string;
}.

(** What the promise returned by a provider's [send] settles to: it
    resolves with a value of the type the interface declares,
    [{ success, providerName }], or it rejects.  A promise
    can be rejected with any value: with an [Error] carrying a message,
    as every provider of the repository and the breaker itself do, or
    with a value that is no [Error]: [undefined] or [null] ([nullish]),
    of which no [message] can be read, or any other value. *)
Inductive Outcome :=
| Resolved (success : bool) (providerName : string)
| Rejected (message : string)
| RejectedWith (nullish : bool).

(** An [IEmailProvider].  The engine sees a provider only through
    [getName] and [send]; what the [n]-th call of [send] settles to, and
    after how many milliseconds, is the provider's own business and is a
    parameter here.  [pr_sendCalledCount] counts the calls received (the
    [sendCalledCount] of the test suite's mock). *)
Record Provider := mkProvider {
  pr_name : string;
  pr_sendCalledCount : nat;
  pr_behaviour : nat -> EmailPayload -> Outcome;
  pr_latency : nat -> Z;
}.

Inductive CircuitState := CLOSED | OPEN | HALF_OPEN.

Global Instance CircuitState_eq_dec : EqDecision CircuitState.
Proof. solve_decision. Defined.

(** The fields of [class CircuitBreaker].  [failureThreshold] and
    [resetTimeout] are never assigned after their initialisers and are
    the constants below. *)
Record CircuitBreaker := mkBreaker {
  cb_provider : Provider;
  cb_state : CircuitState;
  cb_failureCount : nat;
  cb_lastFailureTime : Z;
  cb_halfOpenRequestPending : bool;
}.

Definition failureThreshold : nat := 3.
Definition resetTimeout : Z := 30000.

Inductive EmailStatus := pending | sent | failed.

Global Instance EmailStatus_eq_dec : EqDecision EmailStatus.
Proof. solve_decision. Defined.

(** [interface TrackedEmail].  [uuidv4()] yields an identifier that no
    earlier record has; it is modelled by the number of the allocation.
    [lastAttempt] is a [Date], kept as its millisecond count. *)
Record TrackedEmail := mkTracked {
  te_id : nat;
  te_status : EmailStatus;
  te_attempts : nat;
  te_provider : option string;
  te_lastAttempt : Z;
  te_idempotencyKey : string;
}.

(** A [TrackedEmail] is an object: the map [emailStatus], the local
    variable [trackedEmail] and the value returned by [sendEmail] all
    refer to the same one, and it is mutated in place.  Objects live in
    [heap]; a reference is a position in it. *)
Abbreviation Ref := nat (only parsing).

(** The fields of [class EmailService]; [providers] holds the breakers
    built by the constructor. *)
Record EmailService := mkService {
  svc_providers : list CircuitBreaker;
  svc_sentEmailIds : gset string;
  svc_emailStatus : gmap string Ref;
  svc_requestTimestamps : list Z;
}.

Definition RATE_LIMIT_COUNT : nat := 5.
Definition RATE_LIMIT_WINDOW_MS : Z := 10000.
Definition MAX_RETRIES : nat := 2.

(** The two effects the engine has on the outside: a call of the
    [send] of the provider wrapped by breaker number [this], and a timer
    set by [wait].  They are logged in order, which is how the theorems
    speak about the calls made and the delays inserted. *)
Inductive Effect :=
| ProviderCall (this : nat)
| Timer (ms : Z).

(** Everything a call can read or write: the clock read by
    [Date.now()], the object heap, the service and the effect log. *)
Record World := mkWorld {
  clock : Z;
  heap : list TrackedEmail;
  service : EmailService;
  effects : list Effect;
}.

(** What the promise returned by [sendEmail] settles to: a reference to
    a record ([emailStatus.get(key)!] is unchecked and could be
    [undefined], hence the option), a thrown [Error] with its message, or
    the [TypeError] that the engine raises when the [message] of
    [undefined] or [null] is read (line 100), whose message is the
    engine's own. *)
Inductive Result :=
| Returned (r : option Ref)
| Threw (message : string)
| ThrewTypeError.

(** *** Field updates *)

Definition setClock (t : Z) (w : World) : World :=
  mkWorld t (heap w) (service w) (effects w).

Definition setHeap (h : list TrackedEmail) (w : World) : World :=
  mkWorld (clock w) h (service w) (effects w).

Definition setService (s : EmailService) (w : World) : World :=
  mkWorld (clock w) (heap w) s (effects w).

Definition logEffect (e : Effect) (w : World) : World :=
  mkWorld (clock w) (heap w) (service w) (effects w ++ [e]).

Definition setProviders (l : list CircuitBreaker) (s : EmailService) : EmailService :=
  mkService l (svc_sentEmailIds s) (svc_emailStatus s) (svc_requestTimestamps s).

Definition setSentEmailIds (x : gset string) (s : EmailService) : EmailService :=
  mkService (svc_providers s) x (svc_emailStatus s) (svc_requestTimestamps s).

Definition setEmailStatus (m : gmap string Ref) (s : EmailService) : EmailService :=
  mkService (svc_providers s) (svc_sentEmailIds s) m (svc_requestTimestamps s).

Definition setRequestTimestamps (l : list Z) (s : EmailService) : EmailService :=
  mkService (svc_providers s) (svc_sentEmailIds s) (svc_emailStatus s) l.

(** The breaker object number [this] of the service. *)
Definition breaker (this : nat) (w : World) : option CircuitBreaker :=
  svc_providers (service w) !! this.

Definition setBreaker (this : nat) (cb : CircuitBreaker) (w : World) : World :=
  setService (setProviders (<[this:=cb]> (svc_providers (service w))) (service w)) w.

(** In-place mutation of the object behind a reference. *)
Definition mutate (r : Ref) (f : TrackedEmail -> TrackedEmail) (w : World) : World :=
  setHeap (alter f r (heap w)) w.

(** ** Asynchronous computations *)

Inductive Async (A : Type) : Type :=
| Return (a : A)
| Get (k : World -> Async A)
| Put (w : World) (k : Async A)
| Await (ms : Z) (k : Async A).

Arguments Return {A} a.
Arguments Get {A} k.
Arguments Put {A} w k.
Arguments Await {A} ms k.

Fixpoint bind {A B} (m : Async A) (k : A -> Async B) : Async B :=
  match m with
  | Return a => k a
  | Get f => Get (fun w => bind (f w) k)
  | Put w m' => Put w (bind m' k)
  | Await ms m' => Await ms (bind m' k)
  end.

Global Instance Async_ret : MRet Async := fun A a => Return a.
Global Instance Async_bind : MBind Async := fun A B k m => bind m k.

(** Synchronous pieces: read the world, change it, or both. *)
Definition gets {A} (f : World -> A) : Async A :=
  Get (fun w => Return (f w)).

Definition modify (f : World -> World) : Async unit :=
  Get (fun w => Put (f w) (Return tt)).

Definition atomic {A} (f : World -> World * A) : Async A :=
  Get (fun w => Put (fst (f w)) (Return (snd (f w)))).

(** [await p] where [p] settles after [ms] milliseconds to [a]. *)
Definition await {A} (ms : Z) (a : A) : Async A := Await ms (Return a).

(** Time never runs backwards: a negative delay counts as none, as
    [setTimeout] does. *)
Definition elapse (ms : Z) (w : World) : World :=
  setClock (clock w + Z.max 0 ms) w.

(** The sequential interpreter: whatever is awaited settles after
    exactly its delay and the computation goes on at once. *)
Fixpoint runSeq {A} (m : Async A) (w : World) : World * A :=
  match m with
  | Return a => (w, a)
  | Get f => runSeq (f w) w
  | Put w' m' => runSeq m' w'
  | Await ms m' => runSeq m' (elapse ms w)
  end.

(** ** [src/services/CircuitBreaker.ts] *)

(** What calling [provider.send(payload)] does to the provider and what
    the returned promise will settle to, after how long. *)
Definition callProvider (p : Provider) (payload : EmailPayload)
  : Provider * (Outcome * Z) :=
  let n := pr_sendCalledCount p in
  (mkProvider (pr_name p) (S n) (pr_behaviour p) (pr_latency p),
   (pr_behaviour p n payload, pr_latency p n)).

Module CircuitBreaker.

Definition getName (this : CircuitBreaker) : string :=
  pr_name (cb_provider this).

Definition openMessage (this : CircuitBreaker) : string :=
  "[CircuitBreaker] Circuit for " +:+ getName this +:+ " is OPEN. Rejecting request.".

Definition probeMessage (this : CircuitBreaker) : string :=
  "[CircuitBreaker] Circuit for " +:+ getName this +:+
  " is HALF_OPEN. A test request is already in progress.".

Definition setProvider (p : Provider) (this : CircuitBreaker) : CircuitBreaker :=
  mkBreaker p (cb_state this) (cb_failureCount this)
    (cb_lastFailureTime this) (cb_halfOpenRequestPending this).

(** [recordFailure], lines 65-75. *)
Definition recordFailure (now : Z) (this : CircuitBreaker) : CircuitBreaker :=
  let count := S (cb_failureCount this) in
  mkBreaker (cb_provider this)
    (if bool_decide (failureThreshold ≤ count)%nat then OPEN else cb_state this)
    count now false.

(** [reset], lines 77-84. *)
Definition reset (this : CircuitBreaker) : CircuitBreaker :=
  mkBreaker (cb_provider this) CLOSED 0 (cb_lastFailureTime this) false.

(** Lines 30-40 of [send]: an OPEN circuit becomes HALF_OPEN once the
    reset timeout has passed and rejects the request before that. *)
Definition checkOpen (now : Z) (this : CircuitBreaker) : CircuitBreaker + string :=
  if bool_decide (cb_state this = OPEN) then
    if bool_decide (now - cb_lastFailureTime this > resetTimeout) then
      inl (mkBreaker (cb_provider this) HALF_OPEN (cb_failureCount this)
             (cb_lastFailureTime this) false)
    else inr (openMessage this)
  else inl this.

(** Lines 44-49 of [send]: one test request at a time in HALF_OPEN. *)
Definition checkProbe (this : CircuitBreaker) : CircuitBreaker + string :=
  if bool_decide (cb_state this = HALF_OPEN) && cb_halfOpenRequestPending this then
    inr (probeMessage this)
  else if bool_decide (cb_state this = HALF_OPEN) then
    inl (mkBreaker (cb_provider this) (cb_state this) (cb_failureCount this)
           (cb_lastFailureTime this) true)
  else inl this.

(** Lines 30-49 together: the breaker after the checks, and the
    message of the error thrown, if one is. *)
Definition guard (now : Z) (this : CircuitBreaker) : CircuitBreaker * option string :=
  match checkOpen now this with
  | inr e => (this, Some e)
  | inl this1 =>
      match checkProbe this1 with
      | inr e => (this1, Some e)
      | inl this2 => (this2, None)
      end
  end.

(** Lines 54-62 of [send], after the provider's promise has settled:
    [reset] if it resolved, [recordFailure] if it rejected. *)
Definition settle (now : Z) (result : Outcome) (this : CircuitBreaker) : CircuitBreaker :=
  match result with
  | Resolved _ _ => reset this
  | Rejected _ | RejectedWith _ => recordFailure now this
  end.

(** [send], lines 28-63, of the breaker object number [this].  The
    error thrown by the checks, like the one rethrown at line 61,
    rejects the promise [send] returns.  (The loop of [sendEmail] only
    hands out breakers that exist; calling a method of a missing one
    would be a [TypeError].) *)
Definition send (this : nat) (payload : EmailPayload) : Async Outcome :=
  now ← gets clock;
  cb ← gets (breaker this);
  match cb with
  | None => Return (Rejected "TypeError")
  | Some cb =>
      let (cb1, thrown) := guard now cb in
      modify (setBreaker this cb1);;
      match thrown with
      | Some e => Return (Rejected e)
      | None =>
          let '(p, (result, ms)) := callProvider (cb_provider cb1) payload in
          modify (setBreaker this (setProvider p cb1));;
          modify (logEffect (ProviderCall this));;
          result ← await ms result;
          now ← gets clock;
          modify (fun w => setService
            (setProviders (alter (settle now result) this (svc_providers (service w)))
               (service w)) w);;
          Return result
      end
  end.

End CircuitBreaker.

(** ** [src/services/EmailService.ts] *)

Module EmailService.

(** The constructor, lines 29-35: it refuses an empty provider list
    and wraps each provider in a new breaker. *)
Definition newBreaker (p : Provider) : CircuitBreaker :=
  mkBreaker p CLOSED 0 0 false.

Definition new (providers : list Provider) : option EmailService :=
  match providers with
  | [] => None
  | _ => Some (mkService (newBreaker <$> providers) ∅ ∅ [])
  end.

Definition rateLimitMessage : string := "Rate limit exceeded. Try again later.".

(** [wait], lines 38-40, awaited at line 104. *)
Definition wait (ms : Z) : Async unit :=
  modify (logEffect (Timer ms));;
  await ms tt.

(** The timestamps [isRateLimited] retains at time [now]. *)
Definition retained (now : Z) (requestTimestamps : list Z) : list Z :=
  filter (fun timestamp => now - timestamp < RATE_LIMIT_WINDOW_MS) requestTimestamps.

(** [isRateLimited], lines 42-54. *)
Definition isRateLimited : Async bool :=
  now ← gets clock;
  modify (fun w => setService
    (setRequestTimestamps (retained now (svc_requestTimestamps (service w)))
       (service w)) w);;
  n ← gets (fun w => length (svc_requestTimestamps (service w)));
  if bool_decide (RATE_LIMIT_COUNT ≤ n)%nat then Return true else Return false.

(** Lines 72-78: a new [TrackedEmail] object; the reference to it is
    its position in the heap. *)
Definition newTrackedEmail (idempotencyKey : string) (w : World) : World * Ref :=
  let r := length (heap w) in
  (setHeap (heap w ++ [mkTracked r pending 0 None (clock w) idempotencyKey]) w, r).

(** [this.emailStatus.set(idempotencyKey, trackedEmail)]. *)
Definition emailStatus_set (idempotencyKey : string) (trackedEmail : Ref) (w : World) : World :=
  setService
    (setEmailStatus (<[idempotencyKey:=trackedEmail]> (svc_emailStatus (service w)))
       (service w)) w.

(** [this.sentEmailIds.add(idempotencyKey)]. *)
Definition sentEmailIds_add (idempotencyKey : string) (w : World) : World :=
  setService
    (setSentEmailIds ({[idempotencyKey]} ∪ svc_sentEmailIds (service w)) (service w)) w.

(** Lines 86-87. *)
Definition countAttempt (now : Z) (e : TrackedEmail) : TrackedEmail :=
  mkTracked (te_id e) (te_status e) (S (te_attempts e)) (te_provider e) now
    (te_idempotencyKey e).

(** Lines 93-94. *)
Definition markSent (providerName : string) (e : TrackedEmail) : TrackedEmail :=
  mkTracked (te_id e) sent (te_attempts e) (Some providerName) (te_lastAttempt e)
    (te_idempotencyKey e).

(** Line 113. *)
Definition markFailed (e : TrackedEmail) : TrackedEmail :=
  mkTracked (te_id e) failed (te_attempts e) (te_provider e) (te_lastAttempt e)
    (te_idempotencyKey e).

(** The delay of line 102, [Math.pow(2, i) * 200]. *)
Definition backoff (i : nat) : Z := 2 ^ Z.of_nat i * 200.

(** The inner loop, lines 83-107, from [i] on, with [n] iterations left
    ([n + i = MAX_RETRIES + 1]).  [Some result] is the [return] of line
    97, or the [TypeError] that leaves the [catch] block at line 100 when
    what was caught is [undefined] or [null]: [(error as Error).message]
    is evaluated there before anything else; [None] is the loop running
    out. *)
Fixpoint retryLoop (payload : EmailPayload) (idempotencyKey : string)
    (trackedEmail : Ref) (provider : nat) (n i : nat) : Async (option Result) :=
  match n with
  | O => Return None
  | S n' =>
      now ← gets clock;
      modify (mutate trackedEmail (countAttempt now));;
      result ← CircuitBreaker.send provider payload;
      result ← await 0 result;
      match result with
      | Resolved true providerName =>
          modify (mutate trackedEmail (markSent providerName));;
          modify (sentEmailIds_add idempotencyKey);;
          modify (emailStatus_set idempotencyKey trackedEmail);;
          Return (Some (Returned (Some trackedEmail)))
      | Resolved false _ =>
          retryLoop payload idempotencyKey trackedEmail provider n' (S i)
      | Rejected _ | RejectedWith false =>
          (if bool_decide (i < MAX_RETRIES)%nat then wait (backoff i) else Return tt);;
          retryLoop payload idempotencyKey trackedEmail provider n' (S i)
      | RejectedWith true => Return (Some ThrewTypeError)
      end
  end.

(** The outer loop, lines 82-109, over the breakers still to try. *)
Fixpoint providersLoop (payload : EmailPayload) (idempotencyKey : string)
    (trackedEmail : Ref) (providers : list nat) : Async (option Result) :=
  match providers with
  | [] => Return None
  | provider :: rest =>
      r ← retryLoop payload idempotencyKey trackedEmail provider (S MAX_RETRIES) 0;
      match r with
      | Some result => Return (Some result)
      | None => providersLoop payload idempotencyKey trackedEmail rest
      end
  end.

(** [sendEmail], lines 56-116. *)
Definition sendEmail (payload : EmailPayload) (idempotencyKey : string) : Async Result :=
  seen ← gets (fun w => bool_decide (idempotencyKey ∈ svc_sentEmailIds (service w)));
  if seen : bool then
    existing ← gets (fun w => svc_emailStatus (service w) !! idempotencyKey);
    Return (Returned existing)
  else
    limited ← isRateLimited;
    if limited : bool then Return (Threw rateLimitMessage)
    else
      now ← gets clock;
      modify (fun w => setService
        (setRequestTimestamps (svc_requestTimestamps (service w) ++ [now]) (service w)) w);;
      trackedEmail ← atomic (newTrackedEmail idempotencyKey);
      modify (emailStatus_set idempotencyKey trackedEmail);;
      count ← gets (fun w => length (svc_providers (service w)));
      r ← providersLoop payload idempotencyKey trackedEmail (seq 0 count);
      match r with
      | Some result => Return result
      | None =>
          modify (mutate trackedEmail markFailed);;
          modify (emailStatus_set idempotencyKey trackedEmail);;
          Return (Returned (Some trackedEmail))
      end.

(** [getEmailStatus], lines 119-121, and the object it hands out. *)
Definition getEmailStatus (idempotencyKey : string) (w : World) : option Ref :=
  svc_emailStatus (service w) !! idempotencyKey.

Definition statusRecord (idempotencyKey : string) (w : World) : option TrackedEmail :=
  r ← getEmailStatus idempotencyKey w; heap w !! r.

End EmailService.

(** ** [src/providers] and the service of [src/server.ts] *)

(** [MockProvider1]: 500 ms after a call, the provider resolves with
    success and its name if [Math.random() > 0.5] and rejects otherwise.
    What [Math.random()] yields at the call number [n] is a parameter. *)
Definition MockProvider1 (random : nat -> Q) : Provider :=
  mkProvider "MailGun-Simulator" 0
    (fun n _ => if Qle_bool (random n) (1 # 2)
                then Rejected "Provider request failed"
                else Resolved true "MailGun-Simulator")
    (fun _ => 500).

(** [MockProvider2]: 300 ms after a call, the provider resolves with
    success and its name. *)
Definition MockProvider2 : Provider :=
  mkProvider "SendGrid-Simulator" 0
    (fun _ _ => Resolved true "SendGrid-Simulator")
    (fun _ => 300).

(** ** The test suite's set-up, [src/__tests__/EmailService.test.ts] *)

(** [ControllableMockProvider]: it throws on every call when
    [shouldFail], and resolves with its own name otherwise, at once. *)
Definition ControllableMockProvider (name : string) (shouldFail : bool) : Provider :=
  mkProvider name 0
    (fun _ _ => if shouldFail then Rejected ("Controlled failure from " +:+ name)
                else Resolved true name)
    (fun _ => 0).

Definition emailPayload : EmailPayload :=
  mkPayload "test@example.com" "service@example.com" "Test Email" "This is a test.".

(** A process that starts at time [t] with a service over [providers]. *)
Definition boot (t : Z) (providers : list Provider) : World :=
  mkWorld t [] (default (mkService [] ∅ ∅ []) (EmailService.new providers)) [].

Definition sendCalledCount (this : nat) (w : World) : option nat :=
  (fun cb => pr_sendCalledCount (cb_provider cb)) <$> breaker this w.

(** ** Calls that are not awaited *)

(** [src/server.ts] calls [emailService.sendEmail] without awaiting it,
    so that several calls are in flight at once.  A call runs at once up
    to its first [await] ([advance]); later it is resumed, one stretch
    between two [await]s at a time, no earlier than what it awaits is
    due. *)
Fixpoint advance {A} (m : Async A) (w : World) : World * (A + Z * Async A) :=
  match m with
  | Return a => (w, inl a)
  | Get f => advance (f w) w
  | Put w' m' => advance m' w'
  | Await ms m' => (w, inr (ms, m'))
  end.

(** A call that has been made: suspended at an [await] until what it
    awaits is due, or settled. *)
Inductive Promise :=
| Suspended (due : Z) (k : Async Result)
| Settled (result : Result).

Definition park (w : World) (s : Result + Z * Async Result) : Promise :=
  match s with
  | inl result => Settled result
  | inr (ms, k) => Suspended (clock w + Z.max 0 ms) k
  end.

Inductive Action :=
| Call (payload : EmailPayload) (idempotencyKey : string)
| Resume (promise : nat)
| Idle (ms : Z).

(** One action of the event loop; [None] when the action is not possible
    (no such suspended call, or what it awaits is not due yet). *)
Definition act (a : Action) (st : World * list Promise) : option (World * list Promise) :=
  let (w, promises) := st in
  match a with
  | Call payload idempotencyKey =>
      let (w', s) := advance (EmailService.sendEmail payload idempotencyKey) w in
      Some (w', promises ++ [park w' s])
  | Resume promise =>
      match promises !! promise with
      | Some (Suspended due k) =>
          if bool_decide (due ≤ clock w) then
            let (w', s) := advance k w in
            Some (w', <[promise:=park w' s]> promises)
          else None
      | _ => None
      end
  | Idle ms => Some (elapse ms w, promises)
  end.

Fixpoint run (schedule : list Action) (st : World * list Promise) : option (World * list Promise) :=
  match schedule with
  | [] => Some st
  | a :: rest =>
      match act a st with
      | Some st' => run rest st'
      | None => None
      end
  end.

(** ** Sequences of awaited calls *)

(** What a client that awaits each call can do: send, ask for a status,
    or let time pass. *)
Inductive Op :=
| OpSend (payload : EmailPayload) (idempotencyKey : string)
| OpStatus (idempotencyKey : string)
| OpIdle (ms : Z).

Definition step (w : World) (op : Op) : World :=
  match op with
  | OpSend payload idempotencyKey =>
      fst (runSeq (EmailService.sendEmail payload idempotencyKey) w)
  | OpStatus _ => w
  | OpIdle ms => elapse ms w
  end.

Definition exec (ops : list Op) (w : World) : World := foldl step w ops.


(** * Vocabulary of the properties *)

(** ** What a call does when it is awaited *)

(** What [CircuitBreaker.send] does when nothing else runs while it is
    awaited. *)
Definition sendSeq (this : nat) (payload : EmailPayload) (w : World) : World * Outcome :=
  match breaker this w with
  | None => (w, Rejected "TypeError")
  | Some cb =>
      match CircuitBreaker.guard (clock w) cb with
      | (cb1, Some e) => (setBreaker this cb1 w, Rejected e)
      | (cb1, None) =>
          let n := pr_sendCalledCount (cb_provider cb1) in
          let result := pr_behaviour (cb_provider cb1) n payload in
          let now := clock w + Z.max 0 (pr_latency (cb_provider cb1) n) in
          (mkWorld now (heap w)
             (setProviders
                (<[this:=CircuitBreaker.settle now result
                           (CircuitBreaker.setProvider
                              (fst (callProvider (cb_provider cb1) payload)) cb1)]>
                   (svc_providers (service w)))
                (service w))
             (effects w ++ [ProviderCall this]),
           result)
      end
  end.

(** What the world is after a try that threw at index [i]: the timer of
    line 104 if a retry is left, nothing otherwise. *)
Definition afterRejection (i : nat) (w : World) : World :=
  if bool_decide (i < MAX_RETRIES)%nat
  then elapse (EmailService.backoff i) (logEffect (Timer (EmailService.backoff i)) w)
  else w.

(** What lines 93-96 do. *)
Definition succeed (idempotencyKey : string) (trackedEmail : Ref) (providerName : string)
    (w : World) : World :=
  EmailService.emailStatus_set idempotencyKey trackedEmail
    (EmailService.sentEmailIds_add idempotencyKey
       (mutate trackedEmail (EmailService.markSent providerName) w)).

(** The world in which the loops of [sendEmail] start: the request is
    logged, the record made and registered. *)
Definition accepted (idempotencyKey : string) (w : World) : World :=
  let now := clock w in
  let w1 := setService
    (setRequestTimestamps
       (EmailService.retained now (svc_requestTimestamps (service w)) ++ [now])
       (service w)) w in
  EmailService.emailStatus_set idempotencyKey (length (heap w))
    (fst (EmailService.newTrackedEmail idempotencyKey w1)).

(** What [isRateLimited] answers in [w], and the world it leaves. *)
Definition limited (w : World) : bool :=
  bool_decide (RATE_LIMIT_COUNT ≤
    length (EmailService.retained (clock w) (svc_requestTimestamps (service w))))%nat.

Definition pruned (w : World) : World :=
  setService
    (setRequestTimestamps
       (EmailService.retained (clock w) (svc_requestTimestamps (service w)))
       (service w)) w.

(** ** Frames and invariants *)

(** Until a try succeeds, the tries for the record [r] change that
    record's attempt count and last-attempt time, the breakers, the clock
    and the effect log, and nothing else. *)
Record Frame (r : Ref) (w w' : World) : Prop := mkFrame {
  frame_length : length (heap w') = length (heap w);
  frame_others : forall r0, r0 <> r -> heap w' !! r0 = heap w !! r0;
  frame_record : forall e, heap w !! r = Some e ->
    exists e', heap w' !! r = Some e' /\
      te_id e' = te_id e /\ te_status e' = te_status e /\
      te_provider e' = te_provider e /\
      te_idempotencyKey e' = te_idempotencyKey e;
  frame_sent : svc_sentEmailIds (service w') = svc_sentEmailIds (service w);
  frame_status : svc_emailStatus (service w') = svc_emailStatus (service w);
  frame_timestamps :
    svc_requestTimestamps (service w') = svc_requestTimestamps (service w);
  frame_providers :
    length (svc_providers (service w')) = length (svc_providers (service w));
  frame_behaviour : forall this cb, breaker this w = Some cb ->
    exists cb', breaker this w' = Some cb' /\
      pr_behaviour (cb_provider cb') = pr_behaviour (cb_provider cb) /\
      pr_name (cb_provider cb') = pr_name (cb_provider cb);
  frame_clock : clock w <= clock w';
}.

(** The outcome of a loop: either it ran out, and only the frame
    changed, or a try succeeded, and lines 93-96 followed at once, or a
    try was rejected with [undefined] or [null], and the [TypeError] of
    line 100 ended the call with only the frame changed. *)
Definition LoopOutcome (key : string) (r : Ref) (w : World)
    (out : World * option Result) : Prop :=
  match snd out with
  | None => Frame r w (fst out)
  | Some result =>
      (result = Returned (Some r) /\
       exists w2 providerName,
         Frame r w w2 /\ fst out = succeed key r providerName w2) \/
      (result = ThrewTypeError /\ Frame r w (fst out))
  end.

(** Between two awaited calls, the keys in [sentEmailIds] are exactly
    the keys whose record is [sent], and every registered reference is
    that of an object. *)
Record Inv (w : World) : Prop := mkInv {
  inv_sent : forall k, k ∈ svc_sentEmailIds (service w) ->
    exists r e, svc_emailStatus (service w) !! k = Some r /\
      heap w !! r = Some e /\ te_status e = sent;
  inv_status : forall k r e, svc_emailStatus (service w) !! k = Some r ->
    heap w !! r = Some e -> te_status e = sent ->
    k ∈ svc_sentEmailIds (service w);
  inv_bound : forall k r, svc_emailStatus (service w) !! k = Some r ->
    (r < length (heap w))%nat;
}.

(** What a call leaves of the world it started in. *)
Record Keeps (key : string) (w w' : World) : Prop := mkKeeps {
  keeps_heap : forall r, (r < length (heap w))%nat -> heap w' !! r = heap w !! r;
  keeps_status : forall k, k <> key ->
    svc_emailStatus (service w') !! k = svc_emailStatus (service w) !! k;
  keeps_sent : svc_sentEmailIds (service w) ⊆ svc_sentEmailIds (service w');
  keeps_seen : key ∈ svc_sentEmailIds (service w) -> w' = w;
}.

(** ** Providers, timers and the window *)



(** No call of the provider behind breaker [this] rejects with
    [undefined] or [null]. *)
Definition Civil (this : nat) (payload : EmailPayload) (w : World) : Prop :=
  forall cb, breaker this w = Some cb ->
  forall n, pr_behaviour (cb_provider cb) n payload <> RejectedWith true.




(** The requests logged at time [since] or later. *)
Definition loggedSince (since : Z) (w : World) : list Z :=
  filter (fun timestamp => since <= timestamp) (svc_requestTimestamps (service w)).

(** The number of [sendEmail]s of a sequence of awaited calls that pass
    the rate limiter and log their request. *)
Fixpoint acceptedSends (ops : list Op) (w : World) : nat :=
  match ops with
  | [] => 0
  | op :: rest =>
      (match op with
       | OpSend _ key =>
           if bool_decide (key ∈ svc_sentEmailIds (service w)) then 0
           else if limited w then 0 else 1
       | _ => 0
       end + acceptedSends rest (step w op))%nat
  end.

(** ** Scenarios *)

(** A provider whose first [failures] calls throw and whose later calls
    resolve, at once. *)
Definition FlakyProvider (name : string) (failures : nat) : Provider :=
  mkProvider name 0
    (fun n _ => if (n <? failures)%nat then Rejected "Provider request failed"
                else Resolved true name)
    (fun _ => 0).

(** A provider that resolves every call with [success: false]. *)
Definition DecliningProvider (name : string) : Provider :=
  mkProvider name 0 (fun _ _ => Resolved false name) (fun _ => 0).

(** A provider that resolves every call with success, [latency] ms
    after the call. *)
Definition SlowProvider (name : string) (latency : Z) : Provider :=
  mkProvider name 0 (fun _ _ => Resolved true name) (fun _ => latency).

(** A provider that rejects every call with [undefined], at once. *)
Definition AbruptProvider (name : string) : Provider :=
  mkProvider name 0 (fun _ _ => RejectedWith true) (fun _ => 0).

Module Delivered.
(** The suite's service after one email has been sent with key
    [id-4], and what the client does next. *)
Definition start : World :=
  boot 0 [ControllableMockProvider "Provider1" false;
          ControllableMockProvider "Provider2" false].
Definition world : World := exec [OpSend emailPayload "id-4"] start.
Definition next : list Op :=
  [OpSend emailPayload "id-5"; OpIdle 5; OpSend emailPayload "id-4"; OpStatus "id-4"].
End Delivered.

Module Retried.
(** A service over one provider that is down for its first three
    calls.  A first [sendEmail] with key [k] exhausts the provider;
    31 seconds later the same key is sent again. *)
Definition start : World := boot 0 [FlakyProvider "MailGun-Simulator" 3].
Definition first := runSeq (EmailService.sendEmail emailPayload "k") start.
Definition later : World := elapse 31000 (fst first).
Definition second := runSeq (EmailService.sendEmail emailPayload "k") later.
End Retried.

Module Outage.
(** The suite's service with both providers down, and two emails sent
    one after the other. *)
Definition start : World :=
  boot 0 [ControllableMockProvider "Provider1" true;
          ControllableMockProvider "Provider2" true].
Definition first := runSeq (EmailService.sendEmail emailPayload "id-3") start.
Definition second := runSeq (EmailService.sendEmail emailPayload "id-3b") (fst first).
End Outage.

Module Abrupt.
(** A service whose primary provider rejects with [undefined] and whose
    secondary works, and one email sent. *)
Definition start : World :=
  boot 0 [AbruptProvider "Provider1"; ControllableMockProvider "Provider2" false].
Definition first := runSeq (EmailService.sendEmail emailPayload "id-9") start.
Definition world : World := exec [OpSend emailPayload "id-9"] start.
End Abrupt.

Module Fallback.
(** The suite's service with the primary provider down, and two emails
    sent one after the other. *)
Definition start : World :=
  boot 0 [ControllableMockProvider "Provider1" true;
          ControllableMockProvider "Provider2" false].
Definition first := runSeq (EmailService.sendEmail emailPayload "id-2") start.
Definition second := runSeq (EmailService.sendEmail emailPayload "id-2b") (fst first).
End Fallback.

Module Burst.
(** Five emails sent at once through a provider that works. *)
Definition start : World := boot 0 [ControllableMockProvider "Provider1" false].
Definition five : World :=
  exec [OpSend emailPayload "rate-1"; OpSend emailPayload "rate-2";
        OpSend emailPayload "rate-3"; OpSend emailPayload "rate-4";
        OpSend emailPayload "rate-5"] start.
End Burst.

Module Slow.
(** A service over a provider that takes four seconds per call, and
    three emails sent one after the other: the calls are made at 0, 4000
    and 8000 ms, and the last is over at 12000 ms. *)
Definition start : World := boot 0 [SlowProvider "Provider1" 4000].
Definition calls : list Op :=
  [OpSend emailPayload "a"; OpSend emailPayload "b"; OpSend emailPayload "c"].
End Slow.

Module Declined.
(** A service over a provider that declines every email. *)
Definition start : World := boot 0 [DecliningProvider "Provider1"].
(** The world in which the loops of [sendEmail emailPayload "k"] start. *)
Definition looping : World := accepted "k" start.
End Declined.

Module Race.
(** Two [sendEmail]s with the same new key, the second made while the
    first is suspended at its provider call, as two requests to
    [src/server.ts] are; then each is resumed to its end. *)
Definition start : World := boot 0 [ControllableMockProvider "Provider1" false].
Definition inFlight : option (World * list Promise) :=
  run [Call emailPayload "k"; Call emailPayload "k"] (start, []).
Definition finish : option (World * list Promise) :=
  run [Call emailPayload "k"; Call emailPayload "k";
       Resume 0; Resume 0; Resume 1; Resume 1] (start, []).

(** What is seen of a state of the event loop: something of the world,
    and what each call has returned so far. *)
Definition observe {A} (f : World -> A) (st : option (World * list Promise)) : option A :=
  (fun st : World * list Promise => f (fst st)) <$> st.
Definition returned (p : Promise) : option Result :=
  match p with
  | Settled result => Some result
  | Suspended _ _ => None
  end.
Definition results (st : option (World * list Promise)) : option (list (option Result)) :=
  (fun st : World * list Promise => returned <$> snd st) <$> st.
End Race.

(** ** Breakers, records and the log between awaited calls *)

(** The breaker after an awaited [send] that started at [now] and whose
    provider call, if one was made, settled at [now']. *)
Definition afterSend (now now' : Z) (payload : EmailPayload) (cb : CircuitBreaker)
    : CircuitBreaker :=
  match CircuitBreaker.guard now cb with
  | (cb1, Some _) => cb1
  | (cb1, None) =>
      CircuitBreaker.settle now'
        (pr_behaviour (cb_provider cb1) (pr_sendCalledCount (cb_provider cb1)) payload)
        (CircuitBreaker.setProvider (fst (callProvider (cb_provider cb1) payload)) cb1)
  end.

(** Every breaker of the service satisfies [Q], which may depend on the
    breaker's position in [providers]. *)
Definition allBreakers (Q : nat -> CircuitBreaker -> Prop) (w : World) : Prop :=
  forall this cb, breaker this w = Some cb -> Q this cb.

(** A breaker that no request is going through: it is not HALF_OPEN,
    its test-request flag is down, and it is OPEN exactly when it has
    counted [failureThreshold] failures or more. *)
Definition AtRest (cb : CircuitBreaker) : Prop :=
  cb_halfOpenRequestPending cb = false /\
  ((cb_state cb = CLOSED /\ (cb_failureCount cb < failureThreshold)%nat) \/
   (cb_state cb = OPEN /\ (failureThreshold <= cb_failureCount cb)%nat)).

(** What a finished call leaves of its record when the service has [n]
    providers: [sent] under a provider's name after at least one try, or
    [failed] under no name after every try of every provider. *)
Definition Terminal (n : nat) (e : TrackedEmail) : Prop :=
  (te_status e = sent /\ is_Some (te_provider e) /\
   (1 <= te_attempts e <= S MAX_RETRIES * n)%nat) \/
  (te_status e = failed /\ te_provider e = None /\
   te_attempts e = (S MAX_RETRIES * n)%nat).

(** What a call that ended in the [TypeError] of line 100 leaves of its
    record: [pending] for good, under no name, after at least one try. *)
Definition Abandoned (n : nat) (e : TrackedEmail) : Prop :=
  te_status e = pending /\ te_provider e = None /\
  (1 <= te_attempts e <= S MAX_RETRIES * n)%nat.

(** Every registered record is the one made for its key and is
    terminal or abandoned. *)
Definition Records (w : World) : Prop :=
  forall k r e, svc_emailStatus (service w) !! k = Some r -> heap w !! r = Some e ->
    te_idempotencyKey e = k /\ te_id e = r /\
    (Terminal (length (svc_providers (service w))) e \/
     Abandoned (length (svc_providers (service w))) e).

(** No call of the provider rejects with [undefined] or [null],
    whatever the payload. *)
Definition polite (p : Provider) : Prop :=
  forall n payload, pr_behaviour p n payload <> RejectedWith true.

(** No registered record is [pending]. *)
Definition NonePending (w : World) : Prop :=
  forall k r e, svc_emailStatus (service w) !! k = Some r -> heap w !! r = Some e ->
    te_status e <> pending.

(** The key an operation sends with, if it is a [sendEmail]. *)
Definition keyOf (op : Op) : option string :=
  match op with
  | OpSend _ idempotencyKey => Some idempotencyKey
  | _ => None
  end.

(** How many more requests the limiter lets pass at this instant. *)
Definition room (w : World) : nat :=
  RATE_LIMIT_COUNT
    - length (EmailService.retained (clock w) (svc_requestTimestamps (service w))).

(** The calls a server makes for a burst of requests, none awaited. *)
Definition burst (requests : list (EmailPayload * string)) : list Action :=
  (fun request => Call (fst request) (snd request)) <$> requests.

(** Every provider name that a successful answer of the breaker's
    provider can carry satisfies [N]. *)
Definition Vouched (N : string -> Prop) (cb : CircuitBreaker) : Prop :=
  forall n payload providerName,
    pr_behaviour (cb_provider cb) n payload = Resolved true providerName ->
    N providerName.

(** Every provider name on a registered record satisfies [N]. *)
Definition Named (N : string -> Prop) (w : World) : Prop :=
  forall k r e providerName,
    svc_emailStatus (service w) !! k = Some r -> heap w !! r = Some e ->
    te_provider e = Some providerName -> N providerName.

(** The process of [src/server.ts], lines 18-20, started at time [t]. *)
Definition server (t : Z) (random : nat -> Q) : World :=
  boot t [MockProvider1 random; MockProvider2].

(** No logged request is later than the clock. *)
Definition LogPast (w : World) : Prop :=
  Forall (fun timestamp => timestamp <= clock w) (svc_requestTimestamps (service w)).

(** The longest a loop of tries that starts at index [i] can still
    sleep in backoff: 200 ms after try 0 and 400 ms after try 1. *)
Definition backoffLeft (i : nat) : Z :=
  match i with
  | O => 600
  | S O => 400
  | _ => 0
  end.

(** No call of the breaker's provider takes longer than [L] ms. *)
Definition Within (L : Z) (cb : CircuitBreaker) : Prop :=
  forall n, pr_latency (cb_provider cb) n <= L.

(** * Properties *)

(** ** The two interpreters *)

Lemma runSeq_bind {A B} (m : Async A) (k : A -> Async B) w :
  runSeq (m ≫= k) w = runSeq (k (snd (runSeq m w))) (fst (runSeq m w)).
Proof.
  revert w. induction m as [a | f IH | w' m IH | ms m IH]; intros w; simpl; auto.
Qed.

(** The sequential run is the schedule that resumes a call exactly when
    what it awaits is due. *)
Lemma runSeq_advance {A} (m : Async A) w :
  runSeq m w =
    match advance m w with
    | (w', inl a) => (w', a)
    | (w', inr (ms, k)) => runSeq k (elapse ms w')
    end.
Proof.
  revert w. induction m as [a | f IH | w' m IH | ms m IH]; intros w; simpl; auto.
Qed.

Lemma elapse_0 w : elapse 0 w = w.
Proof. destruct w. unfold elapse, setClock. simpl. f_equal. lia. Qed.

Lemma clock_elapse ms w : clock w <= clock (elapse ms w).
Proof. unfold elapse. simpl. lia. Qed.

(** ** One awaited [send] *)

Lemma alter_insert_eq {A} (f : A -> A) (l : list A) i x :
  alter f i (<[i:=x]> l) = <[i:=f x]> l.
Proof.
  rewrite !list_insert_alter, list_alter_alter_eq. reflexivity.
Qed.

Lemma runSeq_send this payload w :
  runSeq (CircuitBreaker.send this payload) w = sendSeq this payload w.
Proof.
  unfold CircuitBreaker.send, sendSeq. simpl.
  destruct (breaker this w) as [cb|]; [|reflexivity].
  destruct (CircuitBreaker.guard (clock w) cb) as [cb1 [e|]]; simpl; [reflexivity|].
  unfold elapse, setBreaker, setService, setProviders, logEffect, setClock. simpl.
  rewrite alter_insert_eq, list_insert_insert_eq. reflexivity.
Qed.

(** ** One try, one provider, one call *)

Lemma retryLoop_S payload key r this n i w :
  runSeq (EmailService.retryLoop payload key r this (S n) i) w =
    let sending :=
      sendSeq this payload (mutate r (EmailService.countAttempt (clock w)) w) in
    match snd sending with
    | Resolved true providerName =>
        (succeed key r providerName (fst sending), Some (Returned (Some r)))
    | Resolved false _ =>
        runSeq (EmailService.retryLoop payload key r this n (S i)) (fst sending)
    | Rejected _ | RejectedWith false =>
        runSeq (EmailService.retryLoop payload key r this n (S i))
          (afterRejection i (fst sending))
    | RejectedWith true => (fst sending, Some ThrewTypeError)
    end.
Proof.
  cbn [EmailService.retryLoop]. cbn [mbind Async_bind bind gets modify runSeq].
  rewrite runSeq_bind, runSeq_send.
  destruct (sendSeq this payload _) as [w2 result]. cbn [fst snd].
  rewrite runSeq_bind. cbn [await runSeq fst snd]. rewrite elapse_0.
  destruct result as [[] name | msg | []]; cbn [fst snd];
    try reflexivity;
    unfold afterRejection; rewrite runSeq_bind;
    destruct (bool_decide (i < MAX_RETRIES)%nat); reflexivity.
Qed.

Lemma retryLoop_0 payload key r this i w :
  runSeq (EmailService.retryLoop payload key r this 0 i) w = (w, None).
Proof. reflexivity. Qed.

Lemma providersLoop_cons payload key r this rest w :
  runSeq (EmailService.providersLoop payload key r (this :: rest)) w =
    let trying :=
      runSeq (EmailService.retryLoop payload key r this (S MAX_RETRIES) 0) w in
    match snd trying with
    | Some result => (fst trying, Some result)
    | None => runSeq (EmailService.providersLoop payload key r rest) (fst trying)
    end.
Proof.
  cbn [EmailService.providersLoop]. cbn [mbind Async_bind].
  rewrite runSeq_bind.
  destruct (runSeq (EmailService.retryLoop _ _ _ _ _ _) w) as [w' [res|]]; reflexivity.
Qed.

Lemma runSeq_isRateLimited w :
  runSeq EmailService.isRateLimited w = (pruned w, limited w).
Proof.
  unfold EmailService.isRateLimited, limited, pruned. simpl.
  destruct (bool_decide _); reflexivity.
Qed.

Lemma sendEmail_seen payload key w :
  key ∈ svc_sentEmailIds (service w) ->
  runSeq (EmailService.sendEmail payload key) w =
    (w, Returned (svc_emailStatus (service w) !! key)).
Proof.
  intros Hin. unfold EmailService.sendEmail. simpl.
  rewrite bool_decide_eq_true_2 by assumption. reflexivity.
Qed.

Lemma sendEmail_limited payload key w :
  key ∉ svc_sentEmailIds (service w) ->
  limited w = true ->
  runSeq (EmailService.sendEmail payload key) w =
    (pruned w, Threw EmailService.rateLimitMessage).
Proof.
  intros Hin Hlim. unfold EmailService.sendEmail.
  cbn [mbind Async_bind bind gets runSeq].
  rewrite bool_decide_eq_false_2 by assumption.
  rewrite runSeq_bind, runSeq_isRateLimited. cbn [fst snd]. rewrite Hlim. reflexivity.
Qed.

Lemma sendEmail_accepted payload key w :
  key ∉ svc_sentEmailIds (service w) ->
  limited w = false ->
  runSeq (EmailService.sendEmail payload key) w =
    let r := length (heap w) in
    let looping :=
      runSeq (EmailService.providersLoop payload key r
                (seq 0 (length (svc_providers (service w)))))
        (accepted key w) in
    match snd looping with
    | Some result => (fst looping, result)
    | None =>
        (EmailService.emailStatus_set key r
           (mutate r EmailService.markFailed (fst looping)),
         Returned (Some r))
    end.
Proof.
  intros Hin Hlim. unfold EmailService.sendEmail.
  cbn [mbind Async_bind bind gets runSeq].
  rewrite bool_decide_eq_false_2 by assumption.
  rewrite runSeq_bind, runSeq_isRateLimited. cbn [fst snd]. rewrite Hlim.
  cbn [mbind Async_bind bind gets modify atomic runSeq fst snd].
  rewrite runSeq_bind.
  change (length (heap (setService _ (pruned w)))) with (length (heap w)).
  match goal with |- context [runSeq (EmailService.providersLoop _ _ _ ?l) ?w0] =>
    change l with (seq 0 (length (svc_providers (service w))));
    change w0 with (accepted key w) end.
  destruct (runSeq (EmailService.providersLoop _ _ _ _) _) as [w' [res|]]; reflexivity.
Qed.

(** ** The circuit breaker's checks *)

Section Guard.
Variables (now : Z) (cb : CircuitBreaker).

Ltac guard_cases :=
  unfold CircuitBreaker.guard, CircuitBreaker.checkOpen, CircuitBreaker.checkProbe;
  destruct cb as [p st fc last pend]; simpl in *; intros; subst; simpl;
  repeat (case_bool_decide; simpl in * );
  try reflexivity; try congruence; try lia.

Lemma guard_closed :
  cb_state cb = CLOSED -> CircuitBreaker.guard now cb = (cb, None).
Proof. guard_cases. Qed.

Lemma guard_open_early :
  cb_state cb = OPEN -> now - cb_lastFailureTime cb <= resetTimeout ->
  CircuitBreaker.guard now cb = (cb, Some (CircuitBreaker.openMessage cb)).
Proof. guard_cases. Qed.



Lemma guard_probe_free :
  cb_state cb = HALF_OPEN -> cb_halfOpenRequestPending cb = false ->
  CircuitBreaker.guard now cb =
    (mkBreaker (cb_provider cb) HALF_OPEN (cb_failureCount cb)
       (cb_lastFailureTime cb) true, None).
Proof. guard_cases. Qed.

(** A request that is refused leaves the breaker as it was. *)
Lemma guard_thrown cb1 e :
  CircuitBreaker.guard now cb = (cb1, Some e) -> cb1 = cb.
Proof.
  unfold CircuitBreaker.guard, CircuitBreaker.checkOpen, CircuitBreaker.checkProbe.
  destruct cb as [p [] fc last []]; simpl;
    repeat case_bool_decide; simpl; congruence.
Qed.

(** The checks never touch the provider nor the failure count. *)
Lemma guard_keeps cb1 thrown :
  CircuitBreaker.guard now cb = (cb1, thrown) ->
  cb_provider cb1 = cb_provider cb /\ cb_failureCount cb1 = cb_failureCount cb.
Proof.
  unfold CircuitBreaker.guard, CircuitBreaker.checkOpen, CircuitBreaker.checkProbe.
  destruct cb as [p [] fc last []]; simpl;
    repeat case_bool_decide; simpl; intros [= <- <-]; auto.
Qed.
End Guard.

Lemma setBreaker_same this cb w :
  breaker this w = Some cb -> setBreaker this cb w = w.
Proof.
  unfold breaker, setBreaker, setService, setProviders. intros H.
  rewrite list_insert_id by assumption. destruct w as [c h [] e]. reflexivity.
Qed.

(** A refused request changes nothing at all. *)
Lemma sendSeq_thrown this payload w cb e :
  breaker this w = Some cb ->
  snd (CircuitBreaker.guard (clock w) cb) = Some e ->
  sendSeq this payload w = (w, Rejected e).
Proof.
  intros Hb Ha. unfold sendSeq. rewrite Hb.
  destruct (CircuitBreaker.guard (clock w) cb) as [cb1 thrown] eqn:E.
  simpl in Ha. subst thrown. apply guard_thrown in E. subst cb1.
  rewrite setBreaker_same by assumption. reflexivity.
Qed.

(** An accepted request: the provider is called once and the breaker
    settles on what the call came to. *)
Lemma sendSeq_called this payload w cb cb1 :
  breaker this w = Some cb ->
  CircuitBreaker.guard (clock w) cb = (cb1, None) ->
  let n := pr_sendCalledCount (cb_provider cb) in
  let result := pr_behaviour (cb_provider cb) n payload in
  let now := clock w + Z.max 0 (pr_latency (cb_provider cb) n) in
  snd (sendSeq this payload w) = result /\
  clock (fst (sendSeq this payload w)) = now /\
  effects (fst (sendSeq this payload w)) = effects w ++ [ProviderCall this] /\
  breaker this (fst (sendSeq this payload w)) =
    Some (CircuitBreaker.settle now result
            (CircuitBreaker.setProvider (fst (callProvider (cb_provider cb) payload)) cb1)).
Proof.
  intros Hb Hg. unfold sendSeq. rewrite Hb, Hg.
  destruct (guard_keeps _ _ _ _ Hg) as [Hp _]. rewrite Hp. simpl.
  repeat split. unfold breaker. simpl.
  apply list_lookup_insert_eq. eapply lookup_lt_Some. exact Hb.
Qed.

(** The same request, seen as it is made: the call runs up to the
    [await] of line 53 and is suspended there with the provider called;
    whenever it is resumed, the breaker settles on the result. *)
Lemma send_in_flight this payload w cb cb1 :
  breaker this w = Some cb ->
  CircuitBreaker.guard (clock w) cb = (cb1, None) ->
  let n := pr_sendCalledCount (cb_provider cb) in
  let result := pr_behaviour (cb_provider cb) n payload in
  exists k,
    advance (CircuitBreaker.send this payload) w =
      (logEffect (ProviderCall this)
         (setBreaker this
            (CircuitBreaker.setProvider (fst (callProvider (cb_provider cb) payload)) cb1) w),
       inr (pr_latency (cb_provider cb) n, k)) /\
    forall w2,
      runSeq k w2 =
        (setService
           (setProviders
              (alter (CircuitBreaker.settle (clock w2) result) this
                 (svc_providers (service w2)))
              (service w2)) w2,
         result).
Proof.
  intros Hb Hg n result. unfold CircuitBreaker.send.
  cbn [mbind Async_bind bind gets advance]. rewrite Hb, Hg.
  destruct (guard_keeps _ _ _ _ Hg) as [Hp _]. rewrite Hp.
  cbn [callProvider mbind Async_bind bind modify await advance].
  eexists. split.
  - f_equal. unfold logEffect, setBreaker, setService, setProviders. simpl.
    rewrite list_insert_insert_eq. reflexivity.
  - intros w2. reflexivity.
Qed.








(** ** What the loops leave alone *)

Lemma Frame_refl r w : Frame r w w.
Proof. split; intros; try reflexivity; eauto 10. Qed.

Lemma Frame_trans r w1 w2 w3 : Frame r w1 w2 -> Frame r w2 w3 -> Frame r w1 w3.
Proof.
  intros [L1 O1 R1 S1 M1 T1 P1 B1 C1] [L2 O2 R2 S2 M2 T2 P2 B2 C2].
  split; try congruence; try lia.
  - intros r0 Hr0. rewrite O2, O1; auto.
  - intros e He. destruct (R1 e He) as (e1 & He1 & ? & ? & ? & ?).
    destruct (R2 e1 He1) as (e2 & He2 & ? & ? & ? & ?).
    exists e2. repeat split; congruence.
  - intros this cb Hb. destruct (B1 this cb Hb) as (cb1 & Hb1 & ? & ?).
    destruct (B2 this cb1 Hb1) as (cb2 & Hb2 & ? & ?).
    exists cb2. repeat split; congruence.
Qed.

Lemma Frame_countAttempt r now w :
  Frame r w (mutate r (EmailService.countAttempt now) w).
Proof.
  split; simpl; auto; try lia.
  - apply length_alter.
  - intros r0 Hr0. apply list_lookup_alter_ne. auto.
  - intros e He. rewrite list_lookup_alter_eq, He. simpl. eauto 10.
  - eauto.
Qed.

Lemma Frame_sendSeq r this payload w :
  Frame r w (fst (sendSeq this payload w)).
Proof.
  unfold sendSeq. destruct (breaker this w) as [cb|] eqn:Hb; [|apply Frame_refl].
  destruct (CircuitBreaker.guard (clock w) cb) as [cb1 thrown] eqn:Hg.
  destruct (guard_keeps _ _ _ _ Hg) as [Hp _].
  assert (B : forall cb2,
            pr_behaviour (cb_provider cb2) = pr_behaviour (cb_provider cb) ->
            pr_name (cb_provider cb2) = pr_name (cb_provider cb) ->
            forall j cb0, breaker j w = Some cb0 ->
            exists cb', <[this:=cb2]> (svc_providers (service w)) !! j = Some cb' /\
              pr_behaviour (cb_provider cb') = pr_behaviour (cb_provider cb0) /\
              pr_name (cb_provider cb') = pr_name (cb_provider cb0)).
  { intros cb2 Hbeh Hname j cb0 Hj. destruct (decide (j = this)) as [->|Hne].
    - exists cb2. rewrite list_lookup_insert_eq
        by (eapply lookup_lt_Some; exact Hb).
      assert (cb0 = cb) by congruence. subst cb0. auto.
    - exists cb0. rewrite list_lookup_insert_ne by congruence. auto. }
  destruct thrown as [e|]; simpl;
    split; simpl; intros; try reflexivity; try lia; eauto 10 using length_insert.
  - apply B; [rewrite Hp; reflexivity | rewrite Hp; reflexivity | assumption].
  - apply B; try assumption;
      destruct (pr_behaviour _ _ _); simpl; rewrite ?Hp; reflexivity.
Qed.

Lemma Frame_afterRejection r i w : Frame r w (afterRejection i w).
Proof.
  unfold afterRejection. case_bool_decide; [|apply Frame_refl].
  split; simpl; intros; try reflexivity; try lia; eauto 10.
Qed.

Lemma LoopOutcome_frame key r w1 w2 out :
  Frame r w1 w2 -> LoopOutcome key r w2 out -> LoopOutcome key r w1 out.
Proof.
  unfold LoopOutcome. intros F. destruct (snd out).
  - intros [(-> & w3 & name & F' & E) | (-> & F')].
    + left. split; [reflexivity|].
      exists w3, name. split; [eapply Frame_trans; eassumption | assumption].
    + right. split; [reflexivity | eapply Frame_trans; eassumption].
  - intros F'. eapply Frame_trans; eassumption.
Qed.

Lemma retryLoop_outcome payload key r this n : forall i w,
  LoopOutcome key r w (runSeq (EmailService.retryLoop payload key r this n i) w).
Proof.
  induction n as [|n IH]; intros i w.
  - rewrite retryLoop_0. apply Frame_refl.
  - rewrite retryLoop_S. cbv zeta.
    set (w1 := mutate r (EmailService.countAttempt (clock w)) w).
    assert (F : Frame r w (fst (sendSeq this payload w1))).
    { eapply Frame_trans; [apply Frame_countAttempt | apply Frame_sendSeq]. }
    destruct (snd (sendSeq this payload w1)) as [[] name | msg | []].
    + left. split; [reflexivity|]. simpl. eauto.
    + eapply LoopOutcome_frame; [exact F | apply IH].
    + eapply LoopOutcome_frame; [|apply IH].
      eapply Frame_trans; [exact F | apply Frame_afterRejection].
    + right. split; [reflexivity | exact F].
    + eapply LoopOutcome_frame; [|apply IH].
      eapply Frame_trans; [exact F | apply Frame_afterRejection].
Qed.

Lemma providersLoop_outcome payload key r providers : forall w,
  LoopOutcome key r w (runSeq (EmailService.providersLoop payload key r providers) w).
Proof.
  induction providers as [|this rest IH]; intros w.
  - apply Frame_refl.
  - rewrite providersLoop_cons. cbv zeta.
    pose proof (retryLoop_outcome payload key r this (S MAX_RETRIES) 0 w) as H.
    unfold LoopOutcome in H.
    destruct (runSeq (EmailService.retryLoop _ _ _ _ _ _) w) as [w' [res|]];
      simpl in *.
    + exact H.
    + eapply LoopOutcome_frame; [exact H | apply IH].
Qed.

(** ** One awaited [sendEmail] *)

(** The four ways a call can go. *)
Lemma sendEmail_cases payload key w :
  let out := runSeq (EmailService.sendEmail payload key) w in
  let r := length (heap w) in
  ((key ∈ svc_sentEmailIds (service w)) /\
   out = (w, Returned (svc_emailStatus (service w) !! key))) \/
  ((key ∉ svc_sentEmailIds (service w)) /\ limited w = true /\
   out = (pruned w, Threw EmailService.rateLimitMessage)) \/
  ((key ∉ svc_sentEmailIds (service w)) /\ limited w = false /\
   snd out = Returned (Some r) /\
   exists w2, Frame r (accepted key w) w2 /\
     ((exists providerName, fst out = succeed key r providerName w2) \/
      fst out = EmailService.emailStatus_set key r
                  (mutate r EmailService.markFailed w2))) \/
  ((key ∉ svc_sentEmailIds (service w)) /\ limited w = false /\
   snd out = ThrewTypeError /\ Frame r (accepted key w) (fst out)).
Proof.
  intros out r. subst out.
  destruct (decide (key ∈ svc_sentEmailIds (service w))) as [Hin|Hin].
  { left. split; [assumption|]. apply sendEmail_seen. assumption. }
  right. destruct (limited w) eqn:Hlim.
  { left. repeat split; try assumption. apply sendEmail_limited; assumption. }
  right.
  rewrite sendEmail_accepted by assumption. cbv zeta. fold r.
  pose proof (providersLoop_outcome payload key r
                (seq 0 (length (svc_providers (service w)))) (accepted key w)) as H.
  unfold LoopOutcome in H.
  destruct (runSeq (EmailService.providersLoop _ _ _ _) _) as [w' [res|]]; simpl in *.
  - destruct H as [(-> & w2 & name & F & E) | (-> & F)].
    + left. split; [assumption|]. split; [reflexivity|]. split; [reflexivity|].
      exists w2. split; [assumption|]. left. eauto.
    + right. auto.
  - left. split; [assumption|]. split; [reflexivity|]. split; [reflexivity|].
    exists w'. split; [assumption|]. right. reflexivity.
Qed.

(** Where the loops start from, and hence what they end with. *)
Lemma accepted_frame key w w2 :
  Frame (length (heap w)) (accepted key w) w2 ->
  length (heap w2) = S (length (heap w)) /\
  (forall r0, (r0 < length (heap w))%nat -> heap w2 !! r0 = heap w !! r0) /\
  (exists e, heap w2 !! length (heap w) = Some e /\
     te_id e = length (heap w) /\ te_status e = pending /\
     te_provider e = None /\ te_idempotencyKey e = key) /\
  svc_sentEmailIds (service w2) = svc_sentEmailIds (service w) /\
  svc_emailStatus (service w2) = <[key:=length (heap w)]> (svc_emailStatus (service w)) /\
  svc_requestTimestamps (service w2) =
    EmailService.retained (clock w) (svc_requestTimestamps (service w)) ++ [clock w] /\
  length (svc_providers (service w2)) = length (svc_providers (service w)) /\
  clock w <= clock w2.
Proof.
  intros [L O R S M T P B C]. simpl in *.
  rewrite length_app in L. simpl in L.
  split; [lia|]. split.
  { intros r0 Hr0. rewrite O by lia. apply lookup_app_l. assumption. }
  split.
  { destruct (R (mkTracked (length (heap w)) pending 0 None (clock w) key))
      as (e' & He' & ? & ? & ? & ?).
    - rewrite lookup_app_r by lia. rewrite Nat.sub_diag. reflexivity.
    - exists e'. auto. }
  auto.
Qed.

(** ** The invariant of awaited calls *)

Lemma sendEmail_keeps payload key w :
  Keeps key w (fst (runSeq (EmailService.sendEmail payload key) w)).
Proof.
  destruct (sendEmail_cases payload key w)
    as [(Hin & E) | [(Hin & Hlim & E) | [(Hin & Hlim & Hres & w2 & F & E) |
                                         (Hin & Hlim & Hres & F)]]].
  - rewrite E. split; auto.
  - rewrite E. split; auto. intros; contradiction.
  - destruct (accepted_frame key w w2 F) as (L & O & _ & HS & HM & _).
    destruct E as [[name E] | E]; rewrite E; split; simpl;
      try (intros; contradiction).
    + intros r Hr. rewrite list_lookup_alter_ne by lia. auto.
    + intros k Hk. rewrite lookup_insert_ne by congruence.
      rewrite HM. apply lookup_insert_ne. congruence.
    + rewrite HS. apply union_subseteq_r.
    + intros r Hr. rewrite list_lookup_alter_ne by lia. auto.
    + intros k Hk. rewrite lookup_insert_ne by congruence.
      rewrite HM. apply lookup_insert_ne. congruence.
    + rewrite HS. reflexivity.
  - destruct (accepted_frame key w _ F) as (L & O & _ & HS & HM & _).
    split; try (intros; contradiction).
    + exact O.
    + intros k Hk. rewrite HM. apply lookup_insert_ne. congruence.
    + rewrite HS. reflexivity.
Qed.

Lemma Inv_sendEmail payload key w :
  Inv w -> Inv (fst (runSeq (EmailService.sendEmail payload key) w)).
Proof.
  intros [IS IM IB].
  destruct (sendEmail_cases payload key w)
    as [(Hin & E) | [(Hin & Hlim & E) | [(Hin & Hlim & Hres & w2 & F & E) |
                                         (Hin & Hlim & Hres & F)]]].
  - rewrite E. split; assumption.
  - rewrite E. split; assumption.
  - destruct (accepted_frame key w w2 F)
      as (L & O & (e0 & He0 & _ & Hst & _) & HS & HM & _).
    assert (Old : forall k r, k <> key ->
              <[key:=length (heap w)]> (svc_emailStatus (service w2)) !! k = Some r ->
              svc_emailStatus (service w) !! k = Some r /\ (r < length (heap w))%nat).
    { intros k r Hk Hl. rewrite lookup_insert_ne in Hl by congruence.
      rewrite HM, lookup_insert_ne in Hl by congruence. eauto. }
    destruct E as [[name E] | E]; rewrite E; split; simpl.
    + intros k Hk. rewrite HS in Hk.
      destruct (decide (k = key)) as [->|Hne].
      * exists (length (heap w)), (EmailService.markSent name e0).
        rewrite lookup_insert_eq, list_lookup_alter_eq, He0. auto.
      * apply elem_of_union in Hk as [Hk|Hk];
          [apply elem_of_singleton in Hk; contradiction|].
        destruct (IS k Hk) as (r & e & Hm & Hh & Hs).
        exists r, e. rewrite lookup_insert_ne by congruence.
        rewrite HM, lookup_insert_ne by congruence.
        pose proof (IB k r Hm).
        rewrite list_lookup_alter_ne by lia. rewrite O by lia. auto.
    + intros k r e Hm Hh Hs. rewrite HS.
      destruct (decide (k = key)) as [->|Hne];
        [apply elem_of_union_l, elem_of_singleton; reflexivity|].
      destruct (Old k r Hne Hm) as [Hm' Hr].
      rewrite list_lookup_alter_ne in Hh by lia. rewrite O in Hh by lia.
      apply elem_of_union_r. exact (IM k r e Hm' Hh Hs).
    + intros k r Hm. rewrite length_alter, L.
      destruct (decide (k = key)) as [->|Hne].
      * rewrite lookup_insert_eq in Hm. injection Hm as <-. lia.
      * destruct (Old k r Hne Hm). lia.
    + intros k Hk. rewrite HS in Hk.
      assert (Hne : k <> key) by congruence.
      destruct (IS k Hk) as (r & e & Hm & Hh & Hs).
      exists r, e. rewrite lookup_insert_ne by congruence.
      rewrite HM, lookup_insert_ne by congruence.
      pose proof (IB k r Hm).
      rewrite list_lookup_alter_ne by lia. rewrite O by lia. auto.
    + intros k r e Hm Hh Hs. rewrite HS.
      destruct (decide (k = key)) as [->|Hne].
      * rewrite lookup_insert_eq in Hm. injection Hm as <-.
        rewrite list_lookup_alter_eq, He0 in Hh. injection Hh as <-.
        discriminate Hs.
      * destruct (Old k r Hne Hm) as [Hm' Hr].
        rewrite list_lookup_alter_ne in Hh by lia. rewrite O in Hh by lia.
        eauto.
    + intros k r Hm. rewrite length_alter, L.
      destruct (decide (k = key)) as [->|Hne].
      * rewrite lookup_insert_eq in Hm. injection Hm as <-. lia.
      * destruct (Old k r Hne Hm). lia.
  - destruct (accepted_frame key w _ F)
      as (L & O & (e0 & He0 & _ & Hst & _) & HS & HM & _).
    split.
    + intros k Hk. rewrite HS in Hk.
      assert (Hne : k <> key) by congruence.
      destruct (IS k Hk) as (r & e & Hm & Hh & Hs).
      exists r, e. rewrite HM, lookup_insert_ne by congruence.
      pose proof (IB k r Hm). rewrite O by lia. auto.
    + intros k r e Hm Hh Hs. rewrite HS. rewrite HM in Hm.
      destruct (decide (k = key)) as [->|Hne].
      * rewrite lookup_insert_eq in Hm. injection Hm as <-.
        rewrite He0 in Hh. injection Hh as <-. congruence.
      * rewrite lookup_insert_ne in Hm by congruence.
        pose proof (IB k r Hm). rewrite O in Hh by lia. eauto.
    + intros k r Hm. rewrite L. rewrite HM in Hm.
      destruct (decide (k = key)) as [->|Hne].
      * rewrite lookup_insert_eq in Hm. injection Hm as <-. lia.
      * rewrite lookup_insert_ne in Hm by congruence.
        pose proof (IB k r Hm). lia.
Qed.

Lemma Inv_step w op : Inv w -> Inv (step w op).
Proof.
  intros I. destruct op as [payload key | key | ms]; simpl.
  - apply Inv_sendEmail. assumption.
  - assumption.
  - destruct I as [IS IM IB]. split; assumption.
Qed.

Lemma Inv_exec ops : forall w, Inv w -> Inv (exec ops w).
Proof.
  unfold exec. induction ops as [|op ops IH]; intros w I; simpl.
  - assumption.
  - apply IH. apply Inv_step. assumption.
Qed.

Lemma Inv_boot t providers : Inv (boot t providers).
Proof.
  unfold boot. destruct providers; simpl; split; simpl; intros *;
    try (rewrite lookup_empty; discriminate);
    intros H; apply not_elem_of_empty in H; contradiction.
Qed.


(** ** Idempotency *)









(** ** Rate limiting *)

(** C4.  The rate limiter refuses a call when the call reaches it (its
    key is not in [sentEmailIds]) and it retains [RATE_LIMIT_COUNT]
    timestamps or more.  Then [sendEmail] throws the rate-limit error;
    the window is left with the retained timestamps and no new one, and
    nothing else changes: no record is made or registered, no provider is
    called, no timer is set.  And [sendEmail] throws an [Error] with a
    message, the rate-limit error, in no other case (the one other thing
    a call can throw is the [TypeError] of line 100). *)
Theorem C4_rate_limited_call_changes_nothing
    (payload : EmailPayload) (key : string) (w : World) :
  let out := runSeq (EmailService.sendEmail payload key) w in
  ((key ∉ svc_sentEmailIds (service w)) ->
   (RATE_LIMIT_COUNT <=
      length (EmailService.retained (clock w) (svc_requestTimestamps (service w))))%nat ->
   snd out = Threw EmailService.rateLimitMessage /\
   svc_requestTimestamps (service (fst out))
     = EmailService.retained (clock w) (svc_requestTimestamps (service w)) /\
   heap (fst out) = heap w /\
   svc_emailStatus (service (fst out)) = svc_emailStatus (service w) /\
   svc_sentEmailIds (service (fst out)) = svc_sentEmailIds (service w) /\
   svc_providers (service (fst out)) = svc_providers (service w) /\
   effects (fst out) = effects w /\
   clock (fst out) = clock w) /\
  (forall message, snd out = Threw message ->
   message = EmailService.rateLimitMessage /\
   (key ∉ svc_sentEmailIds (service w)) /\
   (RATE_LIMIT_COUNT <=
      length (EmailService.retained (clock w) (svc_requestTimestamps (service w))))%nat).
Proof.
  intros out. subst out. split.
  - intros Hkey Hfull. rewrite sendEmail_limited; [repeat split | assumption |].
    unfold limited. apply bool_decide_eq_true_2. assumption.
  - intros message Hthrew.
    destruct (sendEmail_cases payload key w)
      as [(Hin & E) | [(Hin & Hlim & E) | [(Hin & Hlim & Hres & _) |
                                           (Hin & Hlim & Hres & _)]]].
    + rewrite E in Hthrew. discriminate.
    + rewrite E in Hthrew. injection Hthrew as <-.
      split; [reflexivity|]. split; [assumption|].
      unfold limited in Hlim. apply bool_decide_eq_true_1 in Hlim. assumption.
    + rewrite Hres in Hthrew. discriminate.
    + rewrite Hres in Hthrew. discriminate.
Qed.

Lemma C4_witness :
  let out := runSeq (EmailService.sendEmail emailPayload "rate-6") Burst.five in
  snd out = Threw EmailService.rateLimitMessage /\
  svc_requestTimestamps (service (fst out)) = [0; 0; 0; 0; 0] /\
  heap (fst out) = heap Burst.five /\
  svc_emailStatus (service (fst out)) = svc_emailStatus (service Burst.five) /\
  svc_sentEmailIds (service (fst out)) = svc_sentEmailIds (service Burst.five) /\
  svc_providers (service (fst out)) = svc_providers (service Burst.five) /\
  effects (fst out) = effects Burst.five /\
  clock (fst out) = clock Burst.five.
Proof.
  apply (proj1 (C4_rate_limited_call_changes_nothing emailPayload "rate-6" Burst.five)).
  - apply (bool_decide_unpack _). vm_compute. exact I.
  - vm_compute. lia.
Defined.

(** ** Tries that fail *)

Lemma sendSeq_heap this payload w : heap (fst (sendSeq this payload w)) = heap w.
Proof.
  unfold sendSeq. destruct (breaker this w); [|reflexivity].
  destruct (CircuitBreaker.guard _ _) as [cb1 [e|]]; reflexivity.
Qed.

Lemma sendSeq_other this j payload w :
  j <> this -> breaker j (fst (sendSeq this payload w)) = breaker j w.
Proof.
  intros Hne. unfold sendSeq. destruct (breaker this w); [|reflexivity].
  destruct (CircuitBreaker.guard _ _) as [cb1 [e|]]; unfold breaker; simpl;
    apply list_lookup_insert_ne; congruence.
Qed.









(** C10.  A try in which the provider is called and its promise
    resolves with [success: false]: the loop goes straight on with try
    [i + 1] in the world [w2] in which the [send] settled.  In [w2] the
    try is counted on the record, the only effect logged is the
    provider's call (no timer), the clock has only advanced by the call's
    duration, and the breaker is CLOSED with no failure counted and its
    flag cleared, whatever it was before. *)
Theorem C10_unsuccessful_resolution_is_no_failure
    (payload : EmailPayload) (key : string) (r : Ref) (this n i : nat) (w : World)
    (cb cb1 : CircuitBreaker) (providerName : string)
    (Hb : breaker this w = Some cb)
    (Hg : CircuitBreaker.guard (clock w) cb = (cb1, None))
    (Hres : pr_behaviour (cb_provider cb) (pr_sendCalledCount (cb_provider cb)) payload
            = Resolved false providerName) :
  let trying := mutate r (EmailService.countAttempt (clock w)) w in
  let w2 := fst (runSeq (CircuitBreaker.send this payload) trying) in
  runSeq (EmailService.retryLoop payload key r this (S n) i) w =
    runSeq (EmailService.retryLoop payload key r this n (S i)) w2 /\
  heap w2 = alter (EmailService.countAttempt (clock w)) r (heap w) /\
  effects w2 = effects w ++ [ProviderCall this] /\
  clock w2 = clock w +
    Z.max 0 (pr_latency (cb_provider cb) (pr_sendCalledCount (cb_provider cb))) /\
  exists cb2,
    breaker this w2 = Some cb2 /\
    cb_state cb2 = CLOSED /\
    cb_failureCount cb2 = 0%nat /\
    cb_halfOpenRequestPending cb2 = false /\
    pr_sendCalledCount (cb_provider cb2) = S (pr_sendCalledCount (cb_provider cb)).
Proof.
  intros trying w2. subst w2. rewrite runSeq_send.
  destruct (sendSeq_called this payload trying cb cb1 Hb Hg)
    as (Hsnd & Hclock & Heff & Hbr).
  rewrite Hres in Hsnd, Hbr.
  split; [|split; [|split; [|split]]].
  - rewrite retryLoop_S. cbv zeta. fold trying. rewrite Hsnd. reflexivity.
  - apply sendSeq_heap.
  - exact Heff.
  - exact Hclock.
  - eexists. split; [exact Hbr|]. repeat split.
Qed.

Lemma C10_witness :
  let trying := mutate 0 (EmailService.countAttempt 0) Declined.looping in
  let w2 := fst (runSeq (CircuitBreaker.send 0 emailPayload) trying) in
  runSeq (EmailService.retryLoop emailPayload "k" 0 0 3 0) Declined.looping =
    runSeq (EmailService.retryLoop emailPayload "k" 0 0 2 1) w2 /\
  heap w2 = alter (EmailService.countAttempt 0) 0%nat (heap Declined.looping) /\
  effects w2 = effects Declined.looping ++ [ProviderCall 0] /\
  clock w2 = 0 + Z.max 0 0 /\
  exists cb2,
    breaker 0 w2 = Some cb2 /\
    cb_state cb2 = CLOSED /\
    cb_failureCount cb2 = 0%nat /\
    cb_halfOpenRequestPending cb2 = false /\
    pr_sendCalledCount (cb_provider cb2) = 1%nat.
Proof.
  exact (C10_unsuccessful_resolution_is_no_failure emailPayload "k" 0 0 2 0
           Declined.looping
           (EmailService.newBreaker (DecliningProvider "Provider1"))
           (EmailService.newBreaker (DecliningProvider "Provider1"))
           "Provider1" eq_refl eq_refl eq_refl).
Defined.

(** ** Providers that do not succeed *)



Lemma Civil_frame r this payload w w' :
  Frame r w w' -> Civil this payload w -> Civil this payload w'.
Proof.
  intros F H cb' Hb'.
  assert (Hlt : (this < length (svc_providers (service w)))%nat).
  { rewrite <- (frame_providers _ _ _ F). eapply lookup_lt_Some. exact Hb'. }
  destruct (lookup_lt_is_Some_2 _ _ Hlt) as [cb Hb].
  destruct (frame_behaviour _ _ _ F this cb Hb) as (cb2 & Hb2 & Hbeh & _).
  assert (cb2 = cb') by congruence. subst cb2.
  intros n. rewrite Hbeh. apply (H cb Hb).
Qed.

Lemma sendSeq_civil this payload w :
  Civil this payload w -> snd (sendSeq this payload w) <> RejectedWith true.
Proof.
  intros H. unfold sendSeq. destruct (breaker this w) as [cb|] eqn:Hb;
    [|discriminate].
  destruct (CircuitBreaker.guard (clock w) cb) as [cb1 [e|]] eqn:Hg; [discriminate|].
  destruct (guard_keeps _ _ _ _ Hg) as [Hp _]. simpl. rewrite Hp.
  apply (H cb Hb).
Qed.

Lemma heap_afterRejection i w : heap (afterRejection i w) = heap w.
Proof. unfold afterRejection. case_bool_decide; reflexivity. Qed.

Lemma breaker_afterRejection this i w :
  breaker this (afterRejection i w) = breaker this w.
Proof. unfold afterRejection. case_bool_decide; reflexivity. Qed.


(** Against a provider that never rejects with [undefined] or [null] the
    inner loop does not end in the [TypeError] of line 100. *)
Lemma retryLoop_civil payload key r this n : forall i w,
  Civil this payload w ->
  snd (runSeq (EmailService.retryLoop payload key r this n i) w) <> Some ThrewTypeError.
Proof.
  induction n as [|n IH]; intros i w H.
  - rewrite retryLoop_0. discriminate.
  - rewrite retryLoop_S. cbv zeta.
    set (w1 := mutate r (EmailService.countAttempt (clock w)) w).
    assert (H1 : Civil this payload w1) by exact H.
    pose proof (sendSeq_civil this payload w1 H1) as Hno.
    assert (F : Frame r w1 (fst (sendSeq this payload w1))) by apply Frame_sendSeq.
    assert (Hrej : snd (runSeq (EmailService.retryLoop payload key r this n (S i))
                          (afterRejection i (fst (sendSeq this payload w1))))
                   <> Some ThrewTypeError).
    { apply IH. eapply (Civil_frame r); [apply Frame_afterRejection|].
      eapply Civil_frame; eassumption. }
    destruct (snd (sendSeq this payload w1)) as [[] name | msg | []].
    + discriminate.
    + apply IH. eapply Civil_frame; eassumption.
    + exact Hrej.
    + exfalso. apply Hno. reflexivity.
    + exact Hrej.
Qed.

(** The inner loop only ever touches its own breaker. *)
Lemma retryLoop_other payload key r this j n : j <> this -> forall i w,
  breaker j (fst (runSeq (EmailService.retryLoop payload key r this n i) w))
    = breaker j w.
Proof.
  intros Hne. induction n as [|n IH]; intros i w.
  - reflexivity.
  - rewrite retryLoop_S. cbv zeta.
    set (w1 := mutate r (EmailService.countAttempt (clock w)) w).
    pose proof (sendSeq_other this j payload w1 Hne) as Ho.
    destruct (snd (sendSeq this payload w1)) as [[] name | msg | []].
    + exact Ho.
    + rewrite IH. exact Ho.
    + rewrite IH, breaker_afterRejection. exact Ho.
    + exact Ho.
    + rewrite IH, breaker_afterRejection. exact Ho.
Qed.

Lemma providersLoop_other payload key r j providers : j ∉ providers -> forall w,
  breaker j (fst (runSeq (EmailService.providersLoop payload key r providers) w))
    = breaker j w.
Proof.
  induction providers as [|this rest IH]; intros Hj w.
  - reflexivity.
  - apply not_elem_of_cons in Hj as [Hne Hj].
    rewrite providersLoop_cons. cbv zeta.
    pose proof (retryLoop_other payload key r this j (S MAX_RETRIES) Hne 0 w) as Ho.
    destruct (runSeq (EmailService.retryLoop _ _ _ _ _ _) w) as [w' [res|]];
      simpl in *.
    + exact Ho.
    + rewrite IH by assumption. exact Ho.
Qed.




Lemma providersLoop_civil payload key r providers : forall w,
  (forall this, Civil this payload w) ->
  snd (runSeq (EmailService.providersLoop payload key r providers) w)
    <> Some ThrewTypeError.
Proof.
  induction providers as [|this rest IH]; intros w H.
  - discriminate.
  - rewrite providersLoop_cons. cbv zeta.
    pose proof (retryLoop_civil payload key r this (S MAX_RETRIES) 0 w (H this)) as Hno.
    pose proof (retryLoop_outcome payload key r this (S MAX_RETRIES) 0 w) as F.
    unfold LoopOutcome in F.
    destruct (runSeq (EmailService.retryLoop _ _ _ _ _ _) w) as [w' [res|]];
      cbn [fst snd] in *.
    + exact Hno.
    + apply IH. intros j. eapply Civil_frame; [exact F | apply H].
Qed.

(** ** What [sendEmail] comes to *)

Lemma sendEmail_returns payload key w :
  Inv w ->
  let out := runSeq (EmailService.sendEmail payload key) w in
  snd out = Threw EmailService.rateLimitMessage \/
  snd out = ThrewTypeError \/
  exists r e, snd out = Returned (Some r) /\ heap (fst out) !! r = Some e /\
    (te_status e = sent \/ te_status e = failed).
Proof.
  intros I out. subst out.
  destruct (sendEmail_cases payload key w)
    as [(Hin & E) | [(Hin & Hlim & E) | [(Hin & Hlim & Hres & w2 & F & E) |
                                         (Hin & Hlim & Hres & F)]]].
  - right. right. rewrite E. simpl.
    destruct (inv_sent _ I key Hin) as (r & e & Hm & Hh & Hs).
    exists r, e. rewrite Hm. auto.
  - left. rewrite E. reflexivity.
  - right. right.
    destruct (accepted_frame key w w2 F) as (_ & _ & (e0 & He0 & _) & _).
    destruct E as [[name E] | E]; rewrite E, Hres; simpl.
    + exists (length (heap w)), (EmailService.markSent name e0).
      rewrite list_lookup_alter_eq, He0. auto.
    + exists (length (heap w)), (EmailService.markFailed e0).
      rewrite list_lookup_alter_eq, He0. auto.
  - right. left. exact Hres.
Qed.


Lemma sendEmail_civil payload key w :
  (forall this, Civil this payload w) ->
  snd (runSeq (EmailService.sendEmail payload key) w) <> ThrewTypeError.
Proof.
  intros H.
  destruct (decide (key ∈ svc_sentEmailIds (service w))) as [Hin|Hin].
  { rewrite sendEmail_seen by assumption. discriminate. }
  destruct (limited w) eqn:Hlim.
  { rewrite sendEmail_limited by assumption. discriminate. }
  rewrite sendEmail_accepted by assumption. cbv zeta.
  pose proof (providersLoop_civil payload key (length (heap w))
                (seq 0 (length (svc_providers (service w)))) (accepted key w) H) as Hno.
  destruct (runSeq (EmailService.providersLoop _ _ _ _) _) as [w' [res|]];
    cbn [fst snd] in *; [congruence | discriminate].
Qed.







(** ** Fallback *)

Lemma breaker_succeed this key r name w :
  breaker this (succeed key r name w) = breaker this w.
Proof. reflexivity. Qed.




(** ** The sliding window *)

Lemma since_retained since now (l : list Z) :
  now - since < RATE_LIMIT_WINDOW_MS ->
  filter (fun timestamp => since <= timestamp) (EmailService.retained now l)
    = filter (fun timestamp => since <= timestamp) l.
Proof.
  intros H. unfold EmailService.retained. induction l as [|t l IH]; [reflexivity|].
  rewrite !filter_cons. repeat case_decide; rewrite ?filter_cons;
    repeat case_decide; try lia; rewrite IH; reflexivity.
Qed.

Lemma since_le_retained since now (l : list Z) :
  now - since < RATE_LIMIT_WINDOW_MS ->
  (length (filter (fun timestamp => (since <= timestamp)%Z) l)
     <= length (EmailService.retained now l))%nat.
Proof.
  intros H. unfold EmailService.retained. induction l as [|t l IH]; [reflexivity|].
  rewrite !filter_cons. repeat case_decide; simpl; lia.
Qed.

(** What an awaited [sendEmail] does to the window and the clock. *)
Lemma sendEmail_window payload key w :
  let w' := fst (runSeq (EmailService.sendEmail payload key) w) in
  clock w <= clock w' /\
  svc_requestTimestamps (service w') =
    if bool_decide (key ∈ svc_sentEmailIds (service w))
    then svc_requestTimestamps (service w)
    else if limited w
    then EmailService.retained (clock w) (svc_requestTimestamps (service w))
    else EmailService.retained (clock w) (svc_requestTimestamps (service w))
           ++ [clock w].
Proof.
  intros w'. subst w'.
  destruct (sendEmail_cases payload key w)
    as [(Hin & E) | [(Hin & Hlim & E) | [(Hin & Hlim & Hres & w2 & F & E) |
                                         (Hin & Hlim & Hres & F)]]].
  - rewrite E, bool_decide_eq_true_2 by assumption. simpl. split; [lia | reflexivity].
  - rewrite E, bool_decide_eq_false_2, Hlim by assumption. simpl.
    split; [lia | reflexivity].
  - rewrite bool_decide_eq_false_2, Hlim by assumption.
    destruct (accepted_frame key w w2 F) as (_ & _ & _ & _ & _ & T & _ & C).
    destruct E as [[name E] | E]; rewrite E; simpl; auto.
  - rewrite bool_decide_eq_false_2, Hlim by assumption.
    destruct (accepted_frame key w _ F) as (_ & _ & _ & _ & _ & T & _ & C).
    auto.
Qed.

Lemma clock_step w op : clock w <= clock (step w op).
Proof.
  destruct op as [payload key | key | ms]; cbn [step].
  - apply sendEmail_window.
  - lia.
  - apply clock_elapse.
Qed.

Lemma clock_exec ops : forall w, clock w <= clock (exec ops w).
Proof.
  unfold exec. induction ops as [|op ops IH]; intros w; simpl; [lia|].
  pose proof (clock_step w op). pose proof (IH (step w op)). lia.
Qed.

Lemma loggedSince_step since w op :
  since <= clock w ->
  clock w - since < RATE_LIMIT_WINDOW_MS ->
  length (loggedSince since (step w op))
    = (length (loggedSince since w) + acceptedSends [op] w)%nat.
Proof.
  intros Hs Hw. unfold loggedSince.
  destruct op as [payload key | key | ms]; cbn [step acceptedSends].
  - destruct (sendEmail_window payload key w) as [_ ->].
    case_bool_decide; [lia|].
    destruct (limited w).
    + rewrite since_retained by assumption. lia.
    + rewrite filter_app, since_retained by assumption.
      rewrite filter_cons. case_decide; [|lia].
      rewrite length_app. simpl. lia.
  - lia.
  - simpl. lia.
Qed.

Lemma loggedSince_exec since ops : forall w,
  since <= clock w ->
  clock (exec ops w) - since < RATE_LIMIT_WINDOW_MS ->
  length (loggedSince since (exec ops w))
    = (length (loggedSince since w) + acceptedSends ops w)%nat.
Proof.
  induction ops as [|op ops IH]; intros w Hs Hw.
  - simpl. lia.
  - change (exec (op :: ops) w) with (exec ops (step w op)) in *.
    pose proof (clock_step w op). pose proof (clock_exec ops (step w op)).
    rewrite IH by lia. rewrite loggedSince_step by lia.
    cbn [acceptedSends]. lia.
Qed.

(** C8, as the code has it.  The limits are 5 requests per 10 seconds.
    Take any sequence of awaited calls started in [w] of which at least
    [RATE_LIMIT_COUNT] [sendEmail]s passed the limiter, and let the next
    call be made less than [RATE_LIMIT_WINDOW_MS] after the sequence
    began, so that all their timestamps are in the window: if its key is
    not in [sentEmailIds], it throws the rate-limit error.  And in any
    world in which every logged timestamp is [RATE_LIMIT_WINDOW_MS] old
    or older, no call is refused: it returns a record (or, if a provider
    rejects with [undefined] or [null], ends in the [TypeError] of line
    100, and in no other case), and if it reached the limiter the old
    timestamps are dropped and its own is the only one left. *)
Theorem C8_sliding_window
    (ops : list Op) (payload : EmailPayload) (key : string) (w : World) :
  (RATE_LIMIT_COUNT = 5%nat /\ RATE_LIMIT_WINDOW_MS = 10000) /\
  ((RATE_LIMIT_COUNT <= acceptedSends ops w)%nat ->
   clock (exec ops w) - clock w < RATE_LIMIT_WINDOW_MS ->
   (key ∉ svc_sentEmailIds (service (exec ops w))) ->
   snd (runSeq (EmailService.sendEmail payload key) (exec ops w))
     = Threw EmailService.rateLimitMessage) /\
  ((forall timestamp, timestamp ∈ svc_requestTimestamps (service w) ->
      RATE_LIMIT_WINDOW_MS <= clock w - timestamp) ->
   let out := runSeq (EmailService.sendEmail payload key) w in
   ((exists r, snd out = Returned r) \/ snd out = ThrewTypeError) /\
   ((forall this, Civil this payload w) -> exists r, snd out = Returned r) /\
   ((key ∉ svc_sentEmailIds (service w)) ->
    svc_requestTimestamps (service (fst out)) = [clock w] /\
    (snd out = Returned (Some (length (heap w))) \/ snd out = ThrewTypeError) /\
    ((forall this, Civil this payload w) ->
     snd out = Returned (Some (length (heap w)))))).
Proof.
  split; [split; reflexivity|]. split.
  - intros Hn Hw Hkey.
    rewrite sendEmail_limited; [reflexivity | assumption |].
    unfold limited. apply bool_decide_eq_true_2.
    pose proof (loggedSince_exec (clock w) ops w ltac:(lia) Hw) as Hlen.
    pose proof (since_le_retained (clock w) (clock (exec ops w))
                  (svc_requestTimestamps (service (exec ops w))) Hw) as Hle.
    unfold loggedSince in Hlen. lia.
  - intros Hold out. subst out.
    assert (Hret : EmailService.retained (clock w)
                     (svc_requestTimestamps (service w)) = []).
    { unfold EmailService.retained.
      induction (svc_requestTimestamps (service w)) as [|t l IH]; [reflexivity|].
      rewrite filter_cons. case_decide.
      - pose proof (Hold t ltac:(left)). lia.
      - apply IH. intros t' Ht'. apply Hold. right. assumption. }
    assert (Hlim : limited w = false).
    { unfold limited. rewrite Hret. reflexivity. }
    assert (Hts : (key ∉ svc_sentEmailIds (service w)) ->
              svc_requestTimestamps
                (service (fst (runSeq (EmailService.sendEmail payload key) w)))
              = [clock w]).
    { intros Hin. destruct (sendEmail_window payload key w) as [_ Hts].
      rewrite bool_decide_eq_false_2, Hlim, Hret in Hts by assumption.
      exact Hts. }
    pose proof (sendEmail_civil payload key w) as Hcivil.
    destruct (sendEmail_cases payload key w)
      as [(Hin & E) | [(Hin & Hlim' & E) | [(Hin & _ & Hres & _) |
                                            (Hin & _ & Hres & _)]]].
    + split; [rewrite E; eauto|]. split; [rewrite E; eauto|].
      intros; contradiction.
    + congruence.
    + split; [eauto|]. split; [eauto|]. intros _. auto.
    + split; [auto|]. split; [intros H; destruct (Hcivil H Hres)|].
      intros _. split; [auto|]. split; [auto|].
      intros H. destruct (Hcivil H Hres).
Qed.

Lemma Burst_civil this : Civil this emailPayload (elapse 10000 Burst.five).
Proof.
  intros cb Hb n. destruct this as [|this]; vm_compute in Hb.
  - injection Hb as <-. discriminate.
  - discriminate.
Qed.

Lemma C8_witness :
  snd (runSeq (EmailService.sendEmail emailPayload "rate-6") Burst.five)
    = Threw EmailService.rateLimitMessage /\
  (let out := runSeq (EmailService.sendEmail emailPayload "rate-6")
                (elapse 10000 Burst.five) in
   snd out = Returned (Some (length (heap (elapse 10000 Burst.five)))) /\
   svc_requestTimestamps (service (fst out)) = [clock (elapse 10000 Burst.five)]).
Proof.
  split.
  - refine (proj1 (proj2 (C8_sliding_window
              [OpSend emailPayload "rate-1"; OpSend emailPayload "rate-2";
               OpSend emailPayload "rate-3"; OpSend emailPayload "rate-4";
               OpSend emailPayload "rate-5"] emailPayload "rate-6" Burst.start)) _ _ _).
    + vm_compute. lia.
    + vm_compute. reflexivity.
    + apply (bool_decide_unpack _). vm_compute. exact I.
  - assert (H : let out := runSeq (EmailService.sendEmail emailPayload "rate-6")
                              (elapse 10000 Burst.five) in
               svc_requestTimestamps (service (fst out))
                 = [clock (elapse 10000 Burst.five)] /\
               (snd out = Returned (Some (length (heap (elapse 10000 Burst.five)))) \/
                snd out = ThrewTypeError) /\
               ((forall this, Civil this emailPayload (elapse 10000 Burst.five)) ->
                snd out = Returned (Some (length (heap (elapse 10000 Burst.five)))))).
    2: { destruct H as (Hts & _ & Hret). split; [exact (Hret Burst_civil) | exact Hts]. }
    refine (proj2 (proj2 (proj2 (proj2 (C8_sliding_window [] emailPayload "rate-6"
                                          (elapse 10000 Burst.five))) _)) _).
    + intros timestamp Ht.
      assert (E : svc_requestTimestamps (service (elapse 10000 Burst.five))
                  = [0; 0; 0; 0; 0]) by (vm_compute; reflexivity).
      rewrite E in Ht.
      assert (timestamp = 0).
      { repeat (apply elem_of_cons in Ht as [Ht | Ht]; [exact Ht|]).
        apply elem_of_nil in Ht. contradiction. }
      subst timestamp. vm_compute. discriminate.
    + apply (bool_decide_unpack _). vm_compute. exact I.
Defined.

(** C8 as stated fails when the sixth call repeats a key that has been
    sent: five emails have passed the limiter, their timestamps are all
    in the window, and the call returns the record of its key instead of
    throwing, the limiter not being consulted. *)
Lemma C8_counterexample :
  acceptedSends
    [OpSend emailPayload "rate-1"; OpSend emailPayload "rate-2";
     OpSend emailPayload "rate-3"; OpSend emailPayload "rate-4";
     OpSend emailPayload "rate-5"] Burst.start = 5%nat /\
  clock Burst.five = 0 /\
  svc_requestTimestamps (service Burst.five) = [0; 0; 0; 0; 0] /\
  limited Burst.five = true /\
  snd (runSeq (EmailService.sendEmail emailPayload "rate-1") Burst.five)
    = Returned (Some 0%nat) /\
  svc_requestTimestamps
    (service (fst (runSeq (EmailService.sendEmail emailPayload "rate-1") Burst.five)))
    = [0; 0; 0; 0; 0].
Proof. vm_compute. repeat split; reflexivity. Qed.

(** ** Calls in flight together *)

(** C9 does not hold of the code.  The key enters [sentEmailIds] only
    at line 95, after the [await] of line 89, so a second call made while
    the first is suspended passes the check of line 58 as well: by the
    time both calls are suspended the provider has already been called
    twice, and once both are resumed to their end they have returned two
    different records. *)
Theorem C9_same_key_in_flight_is_sent_twice :
  (Race.results Race.inFlight = Some [None; None] /\
   Race.observe (sendCalledCount 0) Race.inFlight = Some (Some 2%nat) /\
   Race.observe effects Race.inFlight = Some [ProviderCall 0; ProviderCall 0] /\
   Race.observe (fun w => svc_requestTimestamps (service w)) Race.inFlight
     = Some [0; 0]) /\
  (Race.results Race.finish
     = Some [Some (Returned (Some 0%nat)); Some (Returned (Some 1%nat))] /\
   Race.observe (sendCalledCount 0) Race.finish = Some (Some 2%nat) /\
   Race.observe heap Race.finish
     = Some [mkTracked 0 sent 1 (Some "Provider1") 0 "k";
             mkTracked 1 sent 1 (Some "Provider1") 0 "k"] /\
   Race.observe (EmailService.getEmailStatus "k") Race.finish = Some (Some 1%nat)).
Proof. vm_compute. repeat split; reflexivity. Qed.

(** * Invariants and guarantees *)

(** ** What awaited calls do to the breakers *)

Lemma sendSeq_afterSend this payload w cb :
  breaker this w = Some cb ->
  exists now', breaker this (fst (sendSeq this payload w))
    = Some (afterSend (clock w) now' payload cb).
Proof.
  intros Hb. unfold afterSend.
  destruct (CircuitBreaker.guard (clock w) cb) as [cb1 [e|]] eqn:Hg.
  - exists 0. rewrite (sendSeq_thrown this payload w cb e Hb) by (rewrite Hg; reflexivity).
    simpl. rewrite Hb. f_equal. symmetry. eapply guard_thrown. exact Hg.
  - destruct (sendSeq_called this payload w cb cb1 Hb Hg) as (_ & _ & _ & Hbr).
    destruct (guard_keeps _ _ _ _ Hg) as [Hp _].
    eexists. rewrite Hbr, Hp. reflexivity.
Qed.

Section Breakers.
Variables (Q : nat -> CircuitBreaker -> Prop) (payload : EmailPayload).
Hypothesis stable : forall this now now' cb,
  Q this cb -> Q this (afterSend now now' payload cb).

Lemma allBreakers_sendSeq this w :
  allBreakers Q w -> allBreakers Q (fst (sendSeq this payload w)).
Proof.
  intros H j cb' Hj. destruct (decide (j = this)) as [->|Hne].
  - destruct (breaker this w) as [cb|] eqn:Hb.
    + destruct (sendSeq_afterSend this payload w cb Hb) as [now' E].
      rewrite E in Hj. injection Hj as <-. apply stable, (H this). assumption.
    + unfold sendSeq in Hj. rewrite Hb in Hj. simpl in Hj. congruence.
  - rewrite sendSeq_other in Hj by assumption. apply (H j). assumption.
Qed.

Lemma allBreakers_retryLoop key r this n : forall i w,
  allBreakers Q w ->
  allBreakers Q (fst (runSeq (EmailService.retryLoop payload key r this n i) w)).
Proof.
  induction n as [|n IH]; intros i w H.
  - rewrite retryLoop_0. assumption.
  - rewrite retryLoop_S. cbv zeta.
    set (w1 := mutate r (EmailService.countAttempt (clock w)) w).
    assert (H1 : allBreakers Q (fst (sendSeq this payload w1))).
    { apply allBreakers_sendSeq. exact H. }
    assert (H2 : allBreakers Q (afterRejection i (fst (sendSeq this payload w1)))).
    { intros j cb Hj. rewrite breaker_afterRejection in Hj. apply (H1 j). assumption. }
    destruct (snd (sendSeq this payload w1)) as [[] name | msg | []].
    + exact H1.
    + apply IH. exact H1.
    + apply IH. exact H2.
    + exact H1.
    + apply IH. exact H2.
Qed.

Lemma allBreakers_providersLoop key r providers : forall w,
  allBreakers Q w ->
  allBreakers Q (fst (runSeq (EmailService.providersLoop payload key r providers) w)).
Proof.
  induction providers as [|this rest IH]; intros w H.
  - assumption.
  - rewrite providersLoop_cons. cbv zeta.
    pose proof (allBreakers_retryLoop key r this (S MAX_RETRIES) 0 w H) as H1.
    destruct (runSeq (EmailService.retryLoop _ _ _ _ _ _) w) as [w' [res|]];
      simpl in *; auto.
Qed.

Lemma allBreakers_sendEmail key w :
  allBreakers Q w ->
  allBreakers Q (fst (runSeq (EmailService.sendEmail payload key) w)).
Proof.
  intros H.
  destruct (decide (key ∈ svc_sentEmailIds (service w))) as [Hin|Hin].
  { rewrite sendEmail_seen by assumption. assumption. }
  destruct (limited w) eqn:Hlim.
  { rewrite sendEmail_limited by assumption. assumption. }
  rewrite sendEmail_accepted by assumption. cbv zeta.
  pose proof (allBreakers_providersLoop key (length (heap w))
                (seq 0 (length (svc_providers (service w)))) (accepted key w) H) as H1.
  destruct (runSeq (EmailService.providersLoop _ _ _ _) _) as [w' [res|]];
    simpl in *; auto.
Qed.
End Breakers.

Lemma AtRest_afterSend now now' payload cb :
  AtRest cb -> AtRest (afterSend now now' payload cb).
Proof.
  unfold AtRest, afterSend, CircuitBreaker.guard, CircuitBreaker.checkOpen,
    CircuitBreaker.checkProbe, failureThreshold.
  destruct cb as [p st fc last pend]. simpl.
  intros [-> [[-> Hfc] | [-> Hfc]]]; simpl.
  - destruct (pr_behaviour p (pr_sendCalledCount p) payload); simpl.
    + split; [reflexivity|]. left. split; [reflexivity | lia].
    + split; [reflexivity|].
      case_bool_decide; unfold failureThreshold in *; [right | left]; split; auto; lia.
    + split; [reflexivity|].
      case_bool_decide; unfold failureThreshold in *; [right | left]; split; auto; lia.
  - case_bool_decide; simpl.
    + destruct (pr_behaviour p (pr_sendCalledCount p) payload); simpl.
      * split; [reflexivity|]. left. split; [reflexivity | lia].
      * split; [reflexivity|].
        rewrite bool_decide_eq_true_2 by (unfold failureThreshold; lia).
        right. split; [reflexivity | lia].
      * split; [reflexivity|].
        rewrite bool_decide_eq_true_2 by (unfold failureThreshold; lia).
        right. split; [reflexivity | lia].
    + split; [reflexivity|]. right. auto.
Qed.

(** ** The providers of a service *)

Lemma names_Frame r w w' :
  Frame r w w' ->
  CircuitBreaker.getName <$> svc_providers (service w')
    = CircuitBreaker.getName <$> svc_providers (service w).
Proof.
  intros F. apply list_eq. intros i. rewrite !list_lookup_fmap.
  destruct (svc_providers (service w) !! i) as [cb|] eqn:Hb.
  - destruct (frame_behaviour _ _ _ F i cb Hb) as (cb' & Hb' & _ & Hn).
    unfold breaker in Hb'. rewrite Hb'. simpl.
    unfold CircuitBreaker.getName. congruence.
  - apply lookup_ge_None in Hb. rewrite <- (frame_providers _ _ _ F) in Hb.
    apply lookup_ge_None in Hb. rewrite Hb. reflexivity.
Qed.

Lemma names_sendEmail payload key w :
  CircuitBreaker.getName
    <$> svc_providers (service (fst (runSeq (EmailService.sendEmail payload key) w)))
    = CircuitBreaker.getName <$> svc_providers (service w).
Proof.
  destruct (sendEmail_cases payload key w)
    as [(Hin & E) | [(Hin & Hlim & E) | [(Hin & Hlim & Hres & w2 & F & E) |
                                         (Hin & Hlim & Hres & F)]]].
  - rewrite E. reflexivity.
  - rewrite E. reflexivity.
  - apply names_Frame in F. destruct E as [[name E] | E]; rewrite E; exact F.
  - apply names_Frame in F. exact F.
Qed.

Lemma names_step w op :
  CircuitBreaker.getName <$> svc_providers (service (step w op))
    = CircuitBreaker.getName <$> svc_providers (service w).
Proof.
  destruct op as [payload key | key | ms]; simpl;
    [apply names_sendEmail | reflexivity | reflexivity].
Qed.

Lemma names_exec ops : forall w,
  CircuitBreaker.getName <$> svc_providers (service (exec ops w))
    = CircuitBreaker.getName <$> svc_providers (service w).
Proof.
  unfold exec. induction ops as [|op ops IH]; intros w; simpl.
  - reflexivity.
  - rewrite IH. apply names_step.
Qed.

Lemma names_boot t providers :
  CircuitBreaker.getName <$> svc_providers (service (boot t providers))
    = pr_name <$> providers.
Proof.
  unfold boot. destruct providers as [|p rest]; [reflexivity|].
  unfold EmailService.new, default, service, svc_providers.
  generalize (p :: rest). intros l. induction l as [|q l IH]; csimpl; [reflexivity|].
  f_equal. exact IH.
Qed.

Lemma providers_exec t providers ops :
  length (svc_providers (service (exec ops (boot t providers)))) = length providers.
Proof.
  rewrite <- (length_fmap CircuitBreaker.getName), names_exec, names_boot.
  apply length_fmap.
Qed.

Lemma providers_step w op :
  length (svc_providers (service (step w op))) = length (svc_providers (service w)).
Proof.
  rewrite <- (length_fmap CircuitBreaker.getName), names_step. apply length_fmap.
Qed.

(** X1. The constructor refuses an empty list of providers and nothing
    else; a service keeps, through any sequence of awaited calls, one
    breaker per provider it was built with, in the constructor's order
    and under the provider's own name. *)
Theorem X1_one_breaker_per_provider
    (t : Z) (providers : list Provider) (ops : list Op) :
  (EmailService.new providers = None <-> providers = []) /\
  CircuitBreaker.getName <$> svc_providers (service (exec ops (boot t providers)))
    = pr_name <$> providers.
Proof.
  split.
  - destruct providers; simpl; split; intros H; congruence.
  - rewrite names_exec. apply names_boot.
Qed.

(** ** The breakers between awaited calls *)

Lemma allBreakers_step Q w op :
  (forall payload this now now' cb,
     Q this cb -> Q this (afterSend now now' payload cb)) ->
  allBreakers Q w -> allBreakers Q (step w op).
Proof.
  intros stable H. destruct op as [payload key | key | ms]; simpl.
  - apply allBreakers_sendEmail; [apply stable | assumption].
  - assumption.
  - exact H.
Qed.

Lemma allBreakers_exec Q ops :
  (forall payload this now now' cb,
     Q this cb -> Q this (afterSend now now' payload cb)) ->
  forall w, allBreakers Q w -> allBreakers Q (exec ops w).
Proof.
  intros stable. unfold exec. induction ops as [|op ops IH]; intros w H; simpl.
  - assumption.
  - apply IH, allBreakers_step; assumption.
Qed.

Lemma allBreakers_boot (Q : nat -> CircuitBreaker -> Prop) t providers :
  (forall this p, providers !! this = Some p -> Q this (EmailService.newBreaker p)) ->
  allBreakers Q (boot t providers).
Proof.
  intros H this cb. unfold boot, breaker.
  destruct providers as [|p rest]; [simpl; rewrite lookup_nil; discriminate|].
  intros Hb.
  change ((EmailService.newBreaker <$> (p :: rest)) !! this = Some cb) in Hb.
  rewrite list_lookup_fmap in Hb.
  destruct ((p :: rest) !! this) as [p'|] eqn:Hp; simpl in Hb; [|discriminate].
  injection Hb as <-. apply H. assumption.
Qed.

Lemma AtRest_exec t providers ops :
  allBreakers (fun _ => AtRest) (exec ops (boot t providers)).
Proof.
  apply allBreakers_exec.
  - intros. apply AtRest_afterSend. assumption.
  - apply allBreakers_boot. intros j p _. unfold AtRest, failureThreshold. simpl.
    split; [reflexivity|]. left. split; [reflexivity | lia].
Qed.

(** X2. Between awaited calls no breaker is HALF_OPEN or has its
    test-request flag up, and a breaker is OPEN exactly when it has
    counted three failures or more (so a CLOSED one has counted at most
    two). *)
Theorem X2_breakers_at_rest (t : Z) (providers : list Provider) (ops : list Op) :
  length (svc_providers (service (exec ops (boot t providers)))) = length providers /\
  Forall AtRest (svc_providers (service (exec ops (boot t providers)))).
Proof.
  split; [apply providers_exec|].
  apply Forall_lookup. intros this cb Hb.
  exact (AtRest_exec t providers ops this cb Hb).
Qed.

(** ** The records between awaited calls *)

Lemma retryLoop_attempts payload key r this n : forall i w e,
  heap w !! r = Some e ->
  let out := runSeq (EmailService.retryLoop payload key r this n i) w in
  exists e', heap (fst out) !! r = Some e' /\
    match snd out with
    | None => te_attempts e' = (te_attempts e + n)%nat
    | Some _ => (te_attempts e < te_attempts e' <= te_attempts e + n)%nat
    end.
Proof.
  induction n as [|n IH]; intros i w e He; cbv zeta.
  - rewrite retryLoop_0. exists e. simpl. split; [assumption | lia].
  - rewrite retryLoop_S. cbv zeta.
    set (w1 := mutate r (EmailService.countAttempt (clock w)) w).
    assert (H1 : heap (fst (sendSeq this payload w1)) !! r
                 = Some (EmailService.countAttempt (clock w) e)).
    { rewrite sendSeq_heap. unfold w1. simpl.
      rewrite list_lookup_alter_eq, He. reflexivity. }
    destruct (snd (sendSeq this payload w1)) as [[] name | msg | []].
    + exists (EmailService.markSent name (EmailService.countAttempt (clock w) e)).
      simpl. rewrite list_lookup_alter_eq, H1. simpl. split; [reflexivity | lia].
    + destruct (IH (S i) _ _ H1) as (e' & He' & Hm). exists e'.
      split; [exact He'|].
      destruct (snd (runSeq _ _)); simpl in Hm; lia.
    + rewrite <- (heap_afterRejection i) in H1.
      destruct (IH (S i) _ _ H1) as (e' & He' & Hm). exists e'.
      split; [exact He'|].
      destruct (snd (runSeq _ _)); simpl in Hm; lia.
    + exists (EmailService.countAttempt (clock w) e).
      cbn [fst snd]. split; [exact H1 | simpl; lia].
    + rewrite <- (heap_afterRejection i) in H1.
      destruct (IH (S i) _ _ H1) as (e' & He' & Hm). exists e'.
      split; [exact He'|].
      destruct (snd (runSeq _ _)); simpl in Hm; lia.
Qed.

Lemma providersLoop_attempts payload key r providers : forall w e,
  heap w !! r = Some e ->
  let out := runSeq (EmailService.providersLoop payload key r providers) w in
  exists e', heap (fst out) !! r = Some e' /\
    match snd out with
    | None => te_attempts e' = (te_attempts e + S MAX_RETRIES * length providers)%nat
    | Some _ =>
        (te_attempts e < te_attempts e'
           <= te_attempts e + S MAX_RETRIES * length providers)%nat
    end.
Proof.
  induction providers as [|this rest IH]; intros w e He; cbv zeta.
  - exists e. simpl. split; [assumption | lia].
  - rewrite providersLoop_cons. cbv zeta.
    destruct (retryLoop_attempts payload key r this (S MAX_RETRIES) 0 w e He)
      as (e1 & He1 & Hm1).
    destruct (runSeq (EmailService.retryLoop _ _ _ _ _ _) w) as [w' [res|]];
      cbn [fst snd] in *.
    + exists e1. split; [assumption|]. cbn [length]. unfold MAX_RETRIES in *. lia.
    + destruct (IH w' e1 He1) as (e2 & He2 & Hm2). exists e2.
      split; [assumption|]. cbn [length]. unfold MAX_RETRIES in *.
      destruct (snd (runSeq _ _)); lia.
Qed.

(** What a call that reaches the loops leaves of its record. *)
Lemma sendEmail_record payload key w :
  key ∉ svc_sentEmailIds (service w) ->
  limited w = false ->
  let out := runSeq (EmailService.sendEmail payload key) w in
  exists e, heap (fst out) !! length (heap w) = Some e /\
    svc_emailStatus (service (fst out)) !! key = Some (length (heap w)) /\
    te_idempotencyKey e = key /\ te_id e = length (heap w) /\
    match snd out with
    | ThrewTypeError => Abandoned (length (svc_providers (service w))) e
    | _ => Terminal (length (svc_providers (service w))) e
    end.
Proof.
  intros Hin Hlim out. subst out.
  rewrite sendEmail_accepted by assumption. cbv zeta.
  set (r := length (heap w)).
  set (providers := seq 0 (length (svc_providers (service w)))).
  assert (He0 : heap (accepted key w) !! r
                = Some (mkTracked r pending 0 None (clock w) key)).
  { unfold accepted. simpl. rewrite lookup_app_r by reflexivity.
    fold r. rewrite Nat.sub_diag. reflexivity. }
  pose proof (providersLoop_outcome payload key r providers (accepted key w)) as O.
  destruct (providersLoop_attempts payload key r providers (accepted key w) _ He0)
    as (e1 & He1 & Hm).
  unfold LoopOutcome in O. unfold providers in Hm. rewrite length_seq in Hm.
  destruct (runSeq (EmailService.providersLoop _ _ _ _) _) as [w' [res|]];
    cbn [fst snd] in *.
  - destruct O as [(-> & w2 & name & F & ->) | (-> & F)].
    + destruct (frame_record _ _ _ F _ He0) as (e2 & He2 & Hid & _ & _ & Hk).
      simpl in He1. rewrite list_lookup_alter_eq, He2 in He1. simpl in He1.
      injection He1 as <-.
      exists (EmailService.markSent name e2). simpl.
      rewrite list_lookup_alter_eq, He2, lookup_insert_eq. simpl.
      split; [reflexivity|]. split; [reflexivity|].
      split; [assumption|]. split; [assumption|].
      left. split; [reflexivity|]. split; [eexists; reflexivity|].
      unfold MAX_RETRIES in *. simpl in *. lia.
    + destruct (frame_record _ _ _ F _ He0) as (e2 & He2 & Hid & Hst & Hp & Hk).
      assert (e1 = e2) by congruence. subst e1.
      exists e2. split; [assumption|]. split.
      { rewrite (frame_status _ _ _ F). simpl. apply lookup_insert_eq. }
      split; [assumption|]. split; [assumption|].
      split; [assumption|]. split; [assumption|].
      unfold MAX_RETRIES in *. simpl in *. lia.
  - destruct (frame_record _ _ _ O _ He0) as (e2 & He2 & Hid & _ & Hp & Hk).
    assert (e1 = e2) by congruence. subst e1.
    exists (EmailService.markFailed e2). simpl.
    rewrite list_lookup_alter_eq, He2, lookup_insert_eq. simpl.
    split; [reflexivity|]. split; [reflexivity|].
    split; [assumption|]. split; [assumption|].
    right. split; [reflexivity|]. split; [assumption|].
    unfold MAX_RETRIES in *. simpl in *. lia.
Qed.

(** What [sendEmail] returns is what [getEmailStatus] then answers. *)
Lemma sendEmail_registers payload key w r :
  snd (runSeq (EmailService.sendEmail payload key) w) = Returned r ->
  EmailService.getEmailStatus key (fst (runSeq (EmailService.sendEmail payload key) w)) = r.
Proof.
  unfold EmailService.getEmailStatus.
  destruct (sendEmail_cases payload key w)
    as [(Hin & E) | [(Hin & Hlim & E) | [(Hin & Hlim & Hres & w2 & F & E) |
                                         (Hin & Hlim & Hres & F)]]].
  - rewrite E. simpl. congruence.
  - rewrite E. simpl. discriminate.
  - rewrite Hres. intros [= <-].
    destruct E as [[name E] | E]; rewrite E; simpl; apply lookup_insert_eq.
  - rewrite Hres. discriminate.
Qed.

Lemma Records_sendEmail payload key w :
  Inv w -> Records w -> Records (fst (runSeq (EmailService.sendEmail payload key) w)).
Proof.
  intros I R.
  pose proof (providers_step w (OpSend payload key)) as HP. cbn [step] in HP.
  pose proof (sendEmail_keeps payload key w) as K.
  pose proof (sendEmail_record payload key w) as N.
  destruct (decide (key ∈ svc_sentEmailIds (service w))) as [Hin|Hin].
  { rewrite (keeps_seen _ _ _ K Hin). assumption. }
  destruct (limited w) eqn:Hlim.
  { rewrite sendEmail_limited by assumption. exact R. }
  specialize (N Hin eq_refl). cbv zeta in N.
  destruct N as (e0 & He0 & G & Hk0 & Hid0 & Ht0).
  intros k r e Hm Hh. rewrite HP.
  destruct (decide (k = key)) as [->|Hne].
  - rewrite G in Hm. injection Hm as <-.
    assert (e = e0) by congruence. subst e.
    split; [assumption|]. split; [assumption|].
    destruct (snd (runSeq (EmailService.sendEmail payload key) w)); auto.
  - rewrite (keeps_status _ _ _ K k Hne) in Hm.
    pose proof (inv_bound _ I k r Hm) as Hr.
    rewrite (keeps_heap _ _ _ K r Hr) in Hh. exact (R k r e Hm Hh).
Qed.

Lemma Records_step w op : Inv w -> Records w -> Records (step w op).
Proof.
  intros I R. destruct op as [payload key | key | ms]; simpl.
  - apply Records_sendEmail; assumption.
  - assumption.
  - exact R.
Qed.

Lemma Records_exec ops : forall w, Inv w -> Records w -> Records (exec ops w).
Proof.
  unfold exec. induction ops as [|op ops IH]; intros w I R; simpl.
  - assumption.
  - apply IH; [apply Inv_step | apply Records_step]; assumption.
Qed.

Lemma Records_boot t providers : Records (boot t providers).
Proof.
  intros k r e Hm. unfold boot in Hm. destruct providers; simpl in Hm;
    rewrite lookup_empty in Hm; discriminate.
Qed.

Lemma polite_afterSend payload (this : nat) now now' cb :
  polite (cb_provider cb) -> polite (cb_provider (afterSend now now' payload cb)).
Proof.
  unfold polite, afterSend. intros H.
  destruct (CircuitBreaker.guard now cb) as [cb1 thrown] eqn:Hg.
  destruct (guard_keeps _ _ _ _ Hg) as [Hp _].
  destruct thrown as [e|]; [rewrite Hp; exact H|].
  destruct (pr_behaviour (cb_provider cb1) _ _); simpl; rewrite Hp; exact H.
Qed.

Lemma polite_Civil w :
  allBreakers (fun _ cb => polite (cb_provider cb)) w ->
  forall payload this, Civil this payload w.
Proof. intros H payload this cb Hb n. apply (H this cb Hb). Qed.

Lemma polite_boot t providers :
  Forall polite providers ->
  allBreakers (fun _ cb => polite (cb_provider cb)) (boot t providers).
Proof.
  intros H. apply allBreakers_boot. intros this p Hp. simpl.
  rewrite Forall_lookup in H. exact (H this p Hp).
Qed.

Lemma polite_exec t providers ops :
  Forall polite providers ->
  forall payload this, Civil this payload (exec ops (boot t providers)).
Proof.
  intros H. apply polite_Civil, allBreakers_exec.
  - intros payload this. apply polite_afterSend. exact this.
  - apply polite_boot. exact H.
Qed.

Lemma NonePending_sendEmail payload key w :
  Inv w -> (forall this, Civil this payload w) -> NonePending w ->
  NonePending (fst (runSeq (EmailService.sendEmail payload key) w)).
Proof.
  intros I C R.
  pose proof (sendEmail_keeps payload key w) as K.
  pose proof (sendEmail_record payload key w) as N.
  pose proof (sendEmail_civil payload key w C) as Hno.
  destruct (decide (key ∈ svc_sentEmailIds (service w))) as [Hin|Hin].
  { rewrite (keeps_seen _ _ _ K Hin). assumption. }
  destruct (limited w) eqn:Hlim.
  { rewrite sendEmail_limited by assumption. exact R. }
  specialize (N Hin eq_refl). cbv zeta in N.
  destruct N as (e0 & He0 & G & _ & _ & Ht0).
  intros k r e Hm Hh.
  destruct (decide (k = key)) as [->|Hne].
  - rewrite G in Hm. injection Hm as <-.
    assert (e = e0) by congruence. subst e.
    destruct (snd (runSeq (EmailService.sendEmail payload key) w));
      [| |congruence];
      destruct Ht0 as [(Hs & _) | (Hs & _)]; congruence.
  - rewrite (keeps_status _ _ _ K k Hne) in Hm.
    pose proof (inv_bound _ I k r Hm) as Hr.
    rewrite (keeps_heap _ _ _ K r Hr) in Hh. exact (R k r e Hm Hh).
Qed.

Lemma NonePending_exec ops : forall w,
  Inv w -> allBreakers (fun _ cb => polite (cb_provider cb)) w ->
  NonePending w -> NonePending (exec ops w).
Proof.
  unfold exec. induction ops as [|op ops IH]; intros w I H R; simpl.
  - assumption.
  - apply IH.
    + apply Inv_step. assumption.
    + apply allBreakers_step; [|assumption].
      intros payload this. apply polite_afterSend. exact this.
    + destruct op as [payload key | key | ms]; cbn [step].
      * apply NonePending_sendEmail; [assumption | | assumption].
        intros this. apply polite_Civil. assumption.
      * assumption.
      * exact R.
Qed.

Lemma NonePending_boot t providers : NonePending (boot t providers).
Proof.
  intros k r e Hm. unfold boot in Hm. destruct providers; simpl in Hm;
    rewrite lookup_empty in Hm; discriminate.
Qed.

(** X3. The records the service answers for, between awaited calls.
    With [n] the number of providers, the record registered under a key
    carries that key and is one of three things: [sent], under a provider
    name and after 1 to [3 * n] attempts; [failed], under no provider
    name and after exactly [3 * n] attempts; or [pending], under no name
    and after 1 to [3 * n] attempts, which is what a call that ended in
    the [TypeError] of line 100 leaves.  If no provider ever rejects with
    [undefined] or [null], no such record exists: every registered record
    is [sent] or [failed].  No two keys share a record. *)
Theorem X3_registered_records
    (t : Z) (providers : list Provider) (ops : list Op) (key : string) (r : Ref)
    (Hm : EmailService.getEmailStatus key (exec ops (boot t providers)) = Some r) :
  let w := exec ops (boot t providers) in
  (exists e, heap w !! r = Some e /\
     EmailService.statusRecord key w = Some e /\
     te_idempotencyKey e = key /\
     (Terminal (length providers) e \/ Abandoned (length providers) e) /\
     (Forall polite providers -> Terminal (length providers) e)) /\
  (forall key', EmailService.getEmailStatus key' w = Some r -> key' = key).
Proof.
  intros w. subst w. set (w := exec ops (boot t providers)) in *.
  assert (I : Inv w) by apply Inv_exec, Inv_boot.
  assert (R : Records w) by (apply Records_exec; [apply Inv_boot | apply Records_boot]).
  pose proof (inv_bound _ I key r Hm) as Hr.
  apply lookup_lt_is_Some in Hr. destruct Hr as [e He].
  destruct (R key r e Hm He) as (Hk & _ & Ht).
  unfold w in Ht. rewrite providers_exec in Ht.
  split.
  - exists e. split; [assumption|]. split.
    { unfold EmailService.statusRecord. rewrite Hm. exact He. }
    split; [assumption|]. split; [assumption|].
    intros Hpolite. destruct Ht as [Ht | (Hs & _)]; [assumption|].
    exfalso.
    assert (S : NonePending w).
    { apply NonePending_exec;
        [apply Inv_boot | apply polite_boot; assumption | apply NonePending_boot]. }
    exact (S key r e Hm He Hs).
  - intros key' Hm'. destruct (R key' r e Hm' He) as (Hk' & _). congruence.
Qed.

Lemma X3_witness :
  (exists e, heap Abrupt.world !! 0%nat = Some e /\
     EmailService.statusRecord "id-9" Abrupt.world = Some e /\
     te_idempotencyKey e = "id-9" /\
     (Terminal 2 e \/ Abandoned 2 e) /\
     (Forall polite [AbruptProvider "Provider1";
                     ControllableMockProvider "Provider2" false] -> Terminal 2 e)) /\
  (forall key', EmailService.getEmailStatus key' Abrupt.world = Some 0%nat ->
     key' = "id-9").
Proof.
  apply (X3_registered_records 0
           [AbruptProvider "Provider1"; ControllableMockProvider "Provider2" false]
           [OpSend emailPayload "id-9"] "id-9" 0%nat).
  vm_compute. reflexivity.
Defined.

(** ** Reading a status *)

Lemma status_step key w op :
  Inv w -> keyOf op <> Some key ->
  EmailService.getEmailStatus key (step w op) = EmailService.getEmailStatus key w /\
  EmailService.statusRecord key (step w op) = EmailService.statusRecord key w.
Proof.
  intros I Hk. destruct op as [payload key' | key' | ms];
    [cbn [step] | split; reflexivity | split; reflexivity].
  pose proof (sendEmail_keeps payload key' w) as K.
  assert (Hne : key <> key') by (simpl in Hk; congruence).
  unfold EmailService.statusRecord, EmailService.getEmailStatus.
  rewrite (keeps_status _ _ _ K key Hne). split; [reflexivity|].
  destruct (svc_emailStatus (service w) !! key) as [r|] eqn:Hm; simpl; [|reflexivity].
  apply (keeps_heap _ _ _ K). eapply inv_bound; eassumption.
Qed.

Lemma status_exec key ops : forall w,
  Inv w -> Some key ∉ keyOf <$> ops ->
  EmailService.getEmailStatus key (exec ops w) = EmailService.getEmailStatus key w /\
  EmailService.statusRecord key (exec ops w) = EmailService.statusRecord key w.
Proof.
  unfold exec. induction ops as [|op ops IH]; intros w I Hk; simpl; auto.
  rewrite fmap_cons, not_elem_of_cons in Hk. destruct Hk as [Hop Hk].
  destruct (status_step key w op I) as [E1 E2]; [congruence|].
  destruct (IH (step w op)) as [E3 E4]; [apply Inv_step; assumption | assumption |].
  split; congruence.
Qed.

(** X4. [getEmailStatus] answers [undefined] for a key that no
    [sendEmail] was called with, whatever else the service has done; and
    calls made with other keys change neither what [getEmailStatus]
    answers for a key nor the record it answers with. *)
Theorem X4_other_keys_are_left_alone
    (t : Z) (providers : list Provider) (before ops : list Op) (key : string)
    (Hk : Some key ∉ keyOf <$> ops) :
  let w := exec before (boot t providers) in
  EmailService.getEmailStatus key (exec ops (boot t providers)) = None /\
  EmailService.getEmailStatus key (exec ops w) = EmailService.getEmailStatus key w /\
  EmailService.statusRecord key (exec ops w) = EmailService.statusRecord key w.
Proof.
  intros w. split.
  - destruct (status_exec key ops (boot t providers) (Inv_boot t providers) Hk)
      as [E _].
    rewrite E. unfold boot, EmailService.getEmailStatus.
    destruct providers; simpl; apply lookup_empty.
  - apply status_exec; [|assumption]. apply Inv_exec, Inv_boot.
Qed.

Lemma X4_witness :
  let w := exec [OpSend emailPayload "id-4"] Delivered.start in
  EmailService.getEmailStatus "id-4"
    (exec [OpSend emailPayload "id-5"; OpStatus "id-4"; OpIdle 5] Delivered.start) = None /\
  EmailService.getEmailStatus "id-4"
    (exec [OpSend emailPayload "id-5"; OpStatus "id-4"; OpIdle 5] w)
    = EmailService.getEmailStatus "id-4" w /\
  EmailService.statusRecord "id-4"
    (exec [OpSend emailPayload "id-5"; OpStatus "id-4"; OpIdle 5] w)
    = EmailService.statusRecord "id-4" w.
Proof.
  apply (X4_other_keys_are_left_alone 0
           [ControllableMockProvider "Provider1" false;
            ControllableMockProvider "Provider2" false]
           [OpSend emailPayload "id-4"]
           [OpSend emailPayload "id-5"; OpStatus "id-4"; OpIdle 5] "id-4").
  apply (bool_decide_unpack _). vm_compute. exact I.
Defined.

Lemma exec_snoc ops op w : exec (ops ++ [op]) w = step (exec ops w) op.
Proof. unfold exec. rewrite foldl_app. reflexivity. Qed.

(** X5. What an awaited [sendEmail] returns is what [getEmailStatus]
    answers for its key right after: the same object, never [undefined],
    carrying that key, and terminal. *)
Theorem X5_returned_record_is_registered
    (t : Z) (providers : list Provider) (ops : list Op)
    (payload : EmailPayload) (key : string) (r : option Ref)
    (Hres : snd (runSeq (EmailService.sendEmail payload key)
                   (exec ops (boot t providers))) = Returned r) :
  let out := runSeq (EmailService.sendEmail payload key) (exec ops (boot t providers)) in
  EmailService.getEmailStatus key (fst out) = r /\
  exists ref e, r = Some ref /\ heap (fst out) !! ref = Some e /\
    te_idempotencyKey e = key /\ Terminal (length providers) e.
Proof.
  intros out. subst out. set (w := exec ops (boot t providers)) in *.
  pose proof (sendEmail_registers payload key w r Hres) as G.
  split; [exact G|].
  assert (I : Inv w) by apply Inv_exec, Inv_boot.
  destruct (sendEmail_returns payload key w I)
    as [E | [E | (ref & e & E & He & Hst)]];
    cbv zeta in *; [congruence | congruence |].
  assert (Hr : r = Some ref) by congruence. rewrite Hr in G.
  exists ref, e. split; [exact Hr|]. split; [assumption|].
  assert (R : Records (exec (ops ++ [OpSend payload key]) (boot t providers))).
  { apply Records_exec; [apply Inv_boot | apply Records_boot]. }
  rewrite exec_snoc in R. cbn [step] in R. fold w in R.
  destruct (R key ref e G He) as (Hk & _ & Ht).
  pose proof (providers_exec t providers (ops ++ [OpSend payload key])) as HP.
  rewrite exec_snoc in HP. cbn [step] in HP. fold w in HP.
  rewrite HP in Ht. split; [assumption|].
  destruct Ht as [Ht | (Hpend & _)]; [assumption|].
  destruct Hst; congruence.
Qed.

Lemma X5_witness :
  let out := runSeq (EmailService.sendEmail emailPayload "id-3b") (fst Outage.first) in
  EmailService.getEmailStatus "id-3b" (fst out) = Some 1%nat /\
  exists ref e, Some 1%nat = Some ref /\ heap (fst out) !! ref = Some e /\
    te_idempotencyKey e = "id-3b" /\ Terminal 2 e.
Proof.
  apply (X5_returned_record_is_registered 0
           [ControllableMockProvider "Provider1" true;
            ControllableMockProvider "Provider2" true]
           [OpSend emailPayload "id-3"] emailPayload "id-3b" (Some 1%nat)).
  vm_compute. reflexivity.
Defined.

(** ** The request log *)

Lemma log_step w op :
  (length (svc_requestTimestamps (service w)) <= RATE_LIMIT_COUNT)%nat ->
  (length (svc_requestTimestamps (service (step w op))) <= RATE_LIMIT_COUNT)%nat.
Proof.
  intros H. destruct op as [payload key | key | ms]; [cbn [step] | exact H | exact H].
  destruct (sendEmail_window payload key w) as [_ E]. rewrite E.
  case_bool_decide; [assumption|].
  pose proof (length_filter (fun timestamp => clock w - timestamp < RATE_LIMIT_WINDOW_MS)
                (svc_requestTimestamps (service w))) as L.
  fold (EmailService.retained (clock w) (svc_requestTimestamps (service w))) in L.
  destruct (limited w) eqn:Hlim; [lia|].
  unfold limited in Hlim. apply bool_decide_eq_false in Hlim.
  rewrite length_app. simpl. lia.
Qed.

Lemma log_exec ops : forall w,
  (length (svc_requestTimestamps (service w)) <= RATE_LIMIT_COUNT)%nat ->
  (length (svc_requestTimestamps (service (exec ops w))) <= RATE_LIMIT_COUNT)%nat.
Proof.
  unfold exec. induction ops as [|op ops IH]; intros w H; simpl.
  - assumption.
  - apply IH, log_step. assumption.
Qed.

Lemma log_boot t providers :
  (length (svc_requestTimestamps (service (boot t providers))) <= RATE_LIMIT_COUNT)%nat.
Proof. unfold boot. destruct providers; simpl; lia. Qed.

Example Slow_calls :
  clock (exec [OpSend emailPayload "a"; OpSend emailPayload "b"] Slow.start) = 8000 /\
  clock (exec Slow.calls Slow.start) = 12000 /\
  svc_requestTimestamps (service (exec Slow.calls Slow.start)) = [0; 4000; 8000] /\
  acceptedSends Slow.calls Slow.start = 3%nat.
Proof. vm_compute. repeat split; reflexivity. Qed.

Lemma acceptedSends_app ops ops' : forall w,
  acceptedSends (ops ++ ops') w
    = (acceptedSends ops w + acceptedSends ops' (exec ops w))%nat.
Proof.
  induction ops as [|op ops IH]; intros w; [reflexivity|].
  change (exec (op :: ops) w) with (exec ops (step w op)).
  cbn [app acceptedSends]. rewrite IH. lia.
Qed.

(** X6. The limiter's guarantee.  Between awaited calls the request log
    never holds more than five timestamps, and of the calls a client
    makes in any stretch of less than ten seconds, measured from the
    moment the first call is made to the moment the last call is made,
    at most five pass the limiter, however long the calls themselves
    take. *)
Theorem X6_at_most_five_per_window
    (t : Z) (providers : list Provider) (before ops : list Op) (op : Op)
    (Hwin : clock (exec ops (exec before (boot t providers)))
              - clock (exec before (boot t providers)) < RATE_LIMIT_WINDOW_MS) :
  let w := exec before (boot t providers) in
  (length (svc_requestTimestamps (service w)) <= RATE_LIMIT_COUNT)%nat /\
  (acceptedSends (ops ++ [op]) w <= RATE_LIMIT_COUNT)%nat.
Proof.
  intros w. subst w. set (w := exec before (boot t providers)) in *.
  assert (L : forall ops', (length (svc_requestTimestamps (service (exec ops' w)))
                            <= RATE_LIMIT_COUNT)%nat).
  { intros ops'. apply log_exec, log_exec, log_boot. }
  split; [exact (L [])|].
  rewrite acceptedSends_app.
  pose proof (loggedSince_exec (clock w) ops w ltac:(lia) Hwin) as E.
  pose proof (since_le_retained (clock w) (clock (exec ops w))
                (svc_requestTimestamps (service (exec ops w))) Hwin) as R.
  fold (loggedSince (clock w) (exec ops w)) in R.
  pose proof (length_filter
                (fun timestamp => clock (exec ops w) - timestamp < RATE_LIMIT_WINDOW_MS)
                (svc_requestTimestamps (service (exec ops w)))) as F.
  fold (EmailService.retained (clock (exec ops w))
          (svc_requestTimestamps (service (exec ops w)))) in F.
  specialize (L ops).
  destruct op as [payload key | key | ms]; cbn [acceptedSends]; [|lia|lia].
  case_bool_decide; [lia|].
  destruct (limited (exec ops w)) eqn:Hlim; [lia|].
  unfold limited in Hlim. apply bool_decide_eq_false in Hlim. lia.
Qed.

Lemma X6_witness :
  let w := exec [] Slow.start in
  (length (svc_requestTimestamps (service w)) <= RATE_LIMIT_COUNT)%nat /\
  (acceptedSends
     ([OpSend emailPayload "a"; OpSend emailPayload "b"] ++ [OpSend emailPayload "c"]) w
     <= RATE_LIMIT_COUNT)%nat.
Proof.
  apply (X6_at_most_five_per_window 0 [SlowProvider "Provider1" 4000] []
           [OpSend emailPayload "a"; OpSend emailPayload "b"]
           (OpSend emailPayload "c")).
  vm_compute. reflexivity.
Defined.

(** ** A test request that fails *)



(** ** A provider that never throws *)

Lemma never_thrown_exec t providers ops this p :
  providers !! this = Some p ->
  (forall n payload, exists success providerName,
     pr_behaviour p n payload = Resolved success providerName) ->
  exists cb,
    breaker this (exec ops (boot t providers)) = Some cb /\
    cb_state cb = CLOSED /\
    cb_failureCount cb = 0%nat /\
    cb_lastFailureTime cb = 0 /\
    cb_halfOpenRequestPending cb = false /\
    pr_behaviour (cb_provider cb) = pr_behaviour p.
Proof.
  intros Hp Hnever.
  pose (Q := fun (j : nat) (cb : CircuitBreaker) =>
    j = this ->
    cb_state cb = CLOSED /\ cb_failureCount cb = 0%nat /\ cb_lastFailureTime cb = 0 /\
    cb_halfOpenRequestPending cb = false /\
    pr_behaviour (cb_provider cb) = pr_behaviour p).
  assert (H : allBreakers Q (exec ops (boot t providers))).
  { apply allBreakers_exec.
    - intros payload j now now' cb HQ ->.
      destruct (HQ eq_refl) as (Hs & Hfc & Hl & Hpend & Hbeh).
      unfold afterSend. rewrite (guard_closed now cb Hs). rewrite Hbeh.
      destruct (Hnever (pr_sendCalledCount (cb_provider cb)) payload)
        as (success & name & ->).
      simpl. auto.
    - apply allBreakers_boot. intros j q Hq ->.
      assert (q = p) by congruence. subst q. simpl. auto. }
  assert (Hlen : (this < length (svc_providers (service (exec ops (boot t providers)))))%nat).
  { rewrite providers_exec. eapply lookup_lt_Some. exact Hp. }
  apply lookup_lt_is_Some in Hlen. destruct Hlen as [cb Hcb].
  destruct (H this cb Hcb eq_refl) as (Hs & Hfc & Hl & Hpend & Hbeh).
  exists cb. auto 10.
Qed.

(** X8. The circuit of a provider whose calls never throw (they all
    resolve, with [success] true or false) never opens: between awaited
    calls its breaker is CLOSED with no failure counted, and no failure
    time was ever recorded. *)
Theorem X8_circuit_of_a_provider_that_never_throws
    (t : Z) (providers : list Provider) (ops : list Op) (this : nat) (p : Provider)
    (Hp : providers !! this = Some p)
    (Hnever : forall n payload, exists success providerName,
        pr_behaviour p n payload = Resolved success providerName) :
  exists cb,
    breaker this (exec ops (boot t providers)) = Some cb /\
    cb_state cb = CLOSED /\
    cb_failureCount cb = 0%nat /\
    cb_lastFailureTime cb = 0 /\
    cb_halfOpenRequestPending cb = false.
Proof.
  destruct (never_thrown_exec t providers ops this p Hp Hnever)
    as (cb & Hb & Hs & Hfc & Hl & Hpend & _).
  exists cb. auto.
Qed.

Lemma X8_witness :
  exists cb,
    breaker 0 (exec [OpSend emailPayload "a"; OpIdle 50; OpSend emailPayload "b"]
                 (boot 0 [DecliningProvider "Provider1";
                          ControllableMockProvider "Provider2" true])) = Some cb /\
    cb_state cb = CLOSED /\
    cb_failureCount cb = 0%nat /\
    cb_lastFailureTime cb = 0 /\
    cb_halfOpenRequestPending cb = false.
Proof.
  apply (X8_circuit_of_a_provider_that_never_throws 0
           [DecliningProvider "Provider1"; ControllableMockProvider "Provider2" true]
           [OpSend emailPayload "a"; OpIdle 50; OpSend emailPayload "b"]
           0 (DecliningProvider "Provider1")).
  - reflexivity.
  - intros n payload. exists false, "Provider1". reflexivity.
Defined.

(** ** A provider that always succeeds *)

Lemma providersLoop_delivers payload key r this providers : forall w cb,
  this ∈ providers ->
  breaker this w = Some cb ->
  cb_state cb = CLOSED ->
  (forall n, exists providerName,
     pr_behaviour (cb_provider cb) n payload = Resolved true providerName) ->
  is_Some (snd (runSeq (EmailService.providersLoop payload key r providers) w)).
Proof.
  induction providers as [|j rest IH]; intros w cb Hin Hb Hs Hok.
  - apply elem_of_nil in Hin. contradiction.
  - rewrite providersLoop_cons. cbv zeta.
    destruct (decide (j = this)) as [->|Hne].
    + rewrite retryLoop_S. cbv zeta.
      set (w1 := mutate r (EmailService.countAttempt (clock w)) w).
      destruct (sendSeq_called this payload w1 cb cb Hb (guard_closed _ _ Hs))
        as (Hsnd & _).
      cbv zeta in Hsnd. rewrite Hsnd.
      destruct (Hok (pr_sendCalledCount (cb_provider cb))) as [name ->].
      simpl. eauto.
    + pose proof (retryLoop_other payload key r j this (S MAX_RETRIES)
                    ltac:(congruence) 0%nat w) as Ho.
      destruct (runSeq (EmailService.retryLoop _ _ _ _ _ _) w) as [w' [res|]];
        cbn [fst snd] in *; [eauto|].
      apply (IH w' cb); try assumption.
      * apply elem_of_cons in Hin as [Hin|Hin]; [congruence | assumption].
      * congruence.
Qed.

Lemma sendEmail_delivers payload key w this cb :
  key ∉ svc_sentEmailIds (service w) ->
  limited w = false ->
  breaker this w = Some cb ->
  cb_state cb = CLOSED ->
  (forall n, exists providerName,
     pr_behaviour (cb_provider cb) n payload = Resolved true providerName) ->
  let out := runSeq (EmailService.sendEmail payload key) w in
  snd out = ThrewTypeError \/
  (snd out = Returned (Some (length (heap w))) /\
   key ∈ svc_sentEmailIds (service (fst out)) /\
   svc_emailStatus (service (fst out)) !! key = Some (length (heap w)) /\
   exists e providerName,
     heap (fst out) !! length (heap w) = Some e /\
     te_status e = sent /\ te_provider e = Some providerName /\
     te_idempotencyKey e = key).
Proof.
  intros Hin Hlim Hb Hs Hok out. subst out.
  rewrite sendEmail_accepted by assumption. cbv zeta.
  set (r := length (heap w)).
  set (providers := seq 0 (length (svc_providers (service w)))).
  assert (He0 : heap (accepted key w) !! r
                = Some (mkTracked r pending 0 None (clock w) key)).
  { unfold accepted. simpl. rewrite lookup_app_r by reflexivity.
    fold r. rewrite Nat.sub_diag. reflexivity. }
  pose proof (providersLoop_outcome payload key r providers (accepted key w)) as O.
  destruct (providersLoop_delivers payload key r this providers (accepted key w) cb)
    as [res Hres]; try assumption.
  { apply elem_of_seq. split; [lia|]. simpl. eapply lookup_lt_Some. exact Hb. }
  unfold LoopOutcome in O. rewrite Hres in *.
  destruct O as [(-> & w2 & name & F & E) | (-> & F)]; [right | left; reflexivity].
  rewrite E.
  destruct (frame_record _ _ _ F _ He0) as (e2 & He2 & _ & _ & _ & Hk).
  split; [reflexivity|]. split.
  { simpl. apply elem_of_union_l, elem_of_singleton. reflexivity. }
  split; [simpl; apply lookup_insert_eq|].
  exists (EmailService.markSent name e2), name.
  simpl. rewrite list_lookup_alter_eq, He2. auto.
Qed.

(** X9. One dependable provider is enough.  If some breaker of the
    service is CLOSED and every call of its provider resolves with
    success, then a call that reaches the loops never ends with its
    record [failed], whatever state the other breakers are in: either it
    ends in the [TypeError] of line 100, which takes a provider that
    rejects with [undefined] or [null], or it returns its record [sent]
    with its key in [sentEmailIds].  If no provider rejects with
    [undefined] or [null], the record is [sent], whatever else the
    other providers do. *)
Theorem X9_a_dependable_provider_delivers
    (payload : EmailPayload) (key : string) (w : World)
    (this : nat) (cb : CircuitBreaker)
    (Hin : key ∉ svc_sentEmailIds (service w))
    (Hlim : limited w = false)
    (Hb : breaker this w = Some cb)
    (Hs : cb_state cb = CLOSED)
    (Hok : forall n, exists providerName,
        pr_behaviour (cb_provider cb) n payload = Resolved true providerName) :
  let out := runSeq (EmailService.sendEmail payload key) w in
  let delivered :=
    snd out = Returned (Some (length (heap w))) /\
    key ∈ svc_sentEmailIds (service (fst out)) /\
    exists e providerName,
      EmailService.statusRecord key (fst out) = Some e /\
      te_status e = sent /\ te_provider e = Some providerName /\
      te_idempotencyKey e = key in
  (snd out = ThrewTypeError \/ delivered) /\
  (Forall (fun cb' => forall n, pr_behaviour (cb_provider cb') n payload
                                  <> RejectedWith true)
     (svc_providers (service w)) -> delivered).
Proof.
  intros out delivered.
  assert (D : snd out = ThrewTypeError \/ delivered).
  { destruct (sendEmail_delivers payload key w this cb Hin Hlim Hb Hs Hok)
      as [E | (Hres & Hsent & Hm & e & name & He & Hst & Hp & Hk)];
      [left; exact E | right].
    split; [exact Hres|]. split; [exact Hsent|].
    exists e, name. unfold EmailService.statusRecord, EmailService.getEmailStatus.
    subst out. cbv zeta in Hm. rewrite Hm. simpl. auto. }
  split; [exact D|]. intros Hcivil.
  destruct D as [E | D]; [|exact D].
  exfalso. revert E. apply sendEmail_civil.
  intros j cb' Hj. rewrite Forall_lookup in Hcivil. exact (Hcivil j cb' Hj).
Qed.

Lemma X9_witness :
  let out := runSeq (EmailService.sendEmail emailPayload "id-2b") (fst Fallback.first) in
  snd out = Returned (Some (length (heap (fst Fallback.first)))) /\
  "id-2b" ∈ svc_sentEmailIds (service (fst out)) /\
  exists e providerName,
    EmailService.statusRecord "id-2b" (fst out) = Some e /\
    te_status e = sent /\ te_provider e = Some providerName /\
    te_idempotencyKey e = "id-2b".
Proof.
  refine (proj2 (X9_a_dependable_provider_delivers emailPayload "id-2b"
                   (fst Fallback.first) 1%nat
                   (mkBreaker
                      (mkProvider "Provider2" 1
                         (pr_behaviour (ControllableMockProvider "Provider2" false))
                         (fun _ => 0))
                      CLOSED 0 0 false) _ _ _ _ _) _).
  - apply (bool_decide_unpack _). vm_compute. exact I.
  - vm_compute. reflexivity.
  - vm_compute. reflexivity.
  - reflexivity.
  - intros n. exists "Provider2". reflexivity.
  - vm_compute. repeat constructor; intros n H; discriminate H.
Defined.

(** ** The first try *)

(** X10. A call that reaches the loops, whose first breaker lets the
    request through and whose first provider resolves it with success,
    is done after that one try: the new record is [sent] under the name
    the provider answered with and counts one attempt, the key is in
    [sentEmailIds], the clock has advanced by the provider's latency and
    by nothing else, no timer was set, the first breaker is CLOSED with
    no failure counted, and no other provider was touched. *)
Theorem X10_first_try_succeeds
    (payload : EmailPayload) (key : string) (w : World)
    (cb cb1 : CircuitBreaker) (providerName : string)
    (Hin : key ∉ svc_sentEmailIds (service w))
    (Hlim : limited w = false)
    (Hb : breaker 0 w = Some cb)
    (Hg : CircuitBreaker.guard (clock w) cb = (cb1, None))
    (Hok : pr_behaviour (cb_provider cb) (pr_sendCalledCount (cb_provider cb)) payload
           = Resolved true providerName) :
  let out := runSeq (EmailService.sendEmail payload key) w in
  let r := length (heap w) in
  snd out = Returned (Some r) /\
  heap (fst out) = heap w ++ [mkTracked r sent 1 (Some providerName) (clock w) key] /\
  EmailService.getEmailStatus key (fst out) = Some r /\
  svc_sentEmailIds (service (fst out)) = {[key]} ∪ svc_sentEmailIds (service w) /\
  clock (fst out) = clock w +
    Z.max 0 (pr_latency (cb_provider cb) (pr_sendCalledCount (cb_provider cb))) /\
  effects (fst out) = effects w ++ [ProviderCall 0] /\
  breaker 0 (fst out) =
    Some (mkBreaker
            (mkProvider (pr_name (cb_provider cb)) (S (pr_sendCalledCount (cb_provider cb)))
               (pr_behaviour (cb_provider cb)) (pr_latency (cb_provider cb)))
            CLOSED 0 (cb_lastFailureTime cb) false) /\
  forall j, j <> 0%nat -> breaker j (fst out) = breaker j w.
Proof.
  intros out r. subst out. rewrite sendEmail_accepted by assumption. cbv zeta. fold r.
  assert (Hlen : exists m, length (svc_providers (service w)) = S m).
  { apply lookup_lt_Some in Hb. destruct (length (svc_providers (service w)));
      [lia | eauto]. }
  destruct Hlen as [m ->]. cbn [seq].
  rewrite providersLoop_cons. cbv zeta. rewrite retryLoop_S. cbv zeta.
  set (w1 := mutate r (EmailService.countAttempt (clock (accepted key w))) (accepted key w)).
  assert (Hb1 : breaker 0 w1 = Some cb) by exact Hb.
  assert (Hg1 : CircuitBreaker.guard (clock w1) cb = (cb1, None)) by exact Hg.
  destruct (sendSeq_called 0 payload w1 cb cb1 Hb1 Hg1) as (Hsnd & Hclock & Heff & Hbr).
  cbv zeta in *. rewrite Hok in Hsnd, Hbr.
  pose proof (Frame_sendSeq r 0 payload w1) as F.
  pose proof (sendSeq_heap 0 payload w1) as Hheap.
  pose proof (fun j => sendSeq_other 0 j payload w1) as Hother.
  destruct (sendSeq 0 payload w1) as [w2 result]. cbn [fst snd] in *. subst result.
  cbn [fst snd].
  destruct (guard_keeps _ _ _ _ Hg) as [Hprov Hcount].
  assert (Hlast : cb_lastFailureTime cb1 = cb_lastFailureTime cb).
  { revert Hg. unfold CircuitBreaker.guard, CircuitBreaker.checkOpen,
      CircuitBreaker.checkProbe.
    destruct cb as [p [] fc last []]; simpl;
      repeat case_bool_decide; simpl; intros [= <-]; reflexivity. }
  split; [reflexivity|]. split.
  { simpl. rewrite Hheap. unfold w1, accepted. simpl.
    rewrite !alter_app_r_alt by (fold r; lia). fold r.
    rewrite Nat.sub_diag. reflexivity. }
  split. { unfold EmailService.getEmailStatus. simpl. apply lookup_insert_eq. }
  split. { simpl. rewrite (frame_sent _ _ _ F). reflexivity. }
  split. { exact Hclock. }
  split. { exact Heff. }
  split.
  { rewrite breaker_succeed, Hbr. simpl.
    unfold CircuitBreaker.reset, CircuitBreaker.setProvider. simpl.
    rewrite Hlast. reflexivity. }
  intros j Hj. rewrite breaker_succeed, Hother by assumption. reflexivity.
Qed.

Lemma X10_witness :
  let out := runSeq (EmailService.sendEmail emailPayload "id-1") Delivered.start in
  let r := length (heap Delivered.start) in
  snd out = Returned (Some r) /\
  heap (fst out) = heap Delivered.start
    ++ [mkTracked r sent 1 (Some "Provider1") (clock Delivered.start) "id-1"] /\
  EmailService.getEmailStatus "id-1" (fst out) = Some r /\
  svc_sentEmailIds (service (fst out))
    = {["id-1"]} ∪ svc_sentEmailIds (service Delivered.start) /\
  clock (fst out) = clock Delivered.start +
    Z.max 0 (pr_latency (ControllableMockProvider "Provider1" false) 0) /\
  effects (fst out) = effects Delivered.start ++ [ProviderCall 0] /\
  breaker 0 (fst out) =
    Some (mkBreaker
            (mkProvider "Provider1" 1
               (pr_behaviour (ControllableMockProvider "Provider1" false))
               (pr_latency (ControllableMockProvider "Provider1" false)))
            CLOSED 0 0 false) /\
  forall j, j <> 0%nat -> breaker j (fst out) = breaker j Delivered.start.
Proof.
  apply (X10_first_try_succeeds emailPayload "id-1" Delivered.start
           (EmailService.newBreaker (ControllableMockProvider "Provider1" false))
           (EmailService.newBreaker (ControllableMockProvider "Provider1" false))
           "Provider1").
  - apply (bool_decide_unpack _). vm_compute. exact I.
  - vm_compute. reflexivity.
  - reflexivity.
  - reflexivity.
  - reflexivity.
Defined.

(** ** How often a provider is called *)

Lemma afterSend_count now now' payload cb :
  let n := pr_sendCalledCount (cb_provider cb) in
  let n' := pr_sendCalledCount (cb_provider (afterSend now now' payload cb)) in
  (n <= n' <= S n)%nat.
Proof.
  unfold afterSend.
  destruct (CircuitBreaker.guard now cb) as [cb1 thrown] eqn:Hg.
  destruct (guard_keeps _ _ _ _ Hg) as [Hp _].
  destruct thrown as [e|]; cbv zeta; [rewrite Hp; lia|].
  destruct (pr_behaviour _ _ _); simpl; rewrite Hp; lia.
Qed.

Lemma retryLoop_budget payload key r this n : forall i w cb,
  breaker this w = Some cb ->
  exists cb',
    breaker this (fst (runSeq (EmailService.retryLoop payload key r this n i) w))
      = Some cb' /\
    (pr_sendCalledCount (cb_provider cb) <= pr_sendCalledCount (cb_provider cb')
       <= pr_sendCalledCount (cb_provider cb) + n)%nat.
Proof.
  induction n as [|n IH]; intros i w cb Hb.
  - rewrite retryLoop_0. exists cb. simpl. split; [assumption | lia].
  - rewrite retryLoop_S. cbv zeta.
    set (w1 := mutate r (EmailService.countAttempt (clock w)) w).
    assert (Hb1 : breaker this w1 = Some cb) by exact Hb.
    destruct (sendSeq_afterSend this payload w1 cb Hb1) as [now' E].
    pose proof (afterSend_count (clock w1) now' payload cb) as C. cbv zeta in C.
    destruct (snd (sendSeq this payload w1)) as [[] name | msg | []].
    + eexists. cbn [fst]. rewrite breaker_succeed. split; [exact E | lia].
    + destruct (IH (S i) _ _ E) as (cb' & Hb' & C'). exists cb'.
      split; [exact Hb' | lia].
    + rewrite <- (breaker_afterRejection this i) in E.
      destruct (IH (S i) _ _ E) as (cb' & Hb' & C'). exists cb'.
      split; [exact Hb' | lia].
    + eexists. cbn [fst]. split; [exact E | lia].
    + rewrite <- (breaker_afterRejection this i) in E.
      destruct (IH (S i) _ _ E) as (cb' & Hb' & C'). exists cb'.
      split; [exact Hb' | lia].
Qed.

Lemma providersLoop_budget payload key r this providers : forall w cb,
  NoDup providers ->
  breaker this w = Some cb ->
  exists cb',
    breaker this (fst (runSeq (EmailService.providersLoop payload key r providers) w))
      = Some cb' /\
    (pr_sendCalledCount (cb_provider cb) <= pr_sendCalledCount (cb_provider cb')
       <= pr_sendCalledCount (cb_provider cb) + S MAX_RETRIES)%nat.
Proof.
  induction providers as [|j rest IH]; intros w cb Hnd Hb.
  - exists cb. simpl. split; [assumption | lia].
  - apply NoDup_cons in Hnd as [Hj Hnd].
    rewrite providersLoop_cons. cbv zeta.
    destruct (decide (j = this)) as [->|Hne].
    + destruct (retryLoop_budget payload key r this (S MAX_RETRIES) 0 w cb Hb)
        as (cb1 & Hb1 & C1).
      pose proof (fun w' => providersLoop_other payload key r this rest Hj w') as Ho.
      destruct (runSeq (EmailService.retryLoop _ _ _ _ _ _) w) as [w' [res|]];
        cbn [fst snd] in *.
      * exists cb1. auto.
      * exists cb1. rewrite Ho. auto.
    + pose proof (retryLoop_other payload key r j this (S MAX_RETRIES)
                    ltac:(congruence) 0%nat w) as Ho.
      destruct (runSeq (EmailService.retryLoop _ _ _ _ _ _) w) as [w' [res|]];
        cbn [fst snd] in *.
      * exists cb. rewrite Ho. split; [assumption | lia].
      * apply IH; [assumption | congruence].
Qed.

(** X11. One [sendEmail] calls each provider at most three times,
    whatever the providers answer and whatever state the breakers are
    in. *)
Theorem X11_at_most_three_calls_per_provider
    (payload : EmailPayload) (key : string) (w : World)
    (this : nat) (cb : CircuitBreaker)
    (Hb : breaker this w = Some cb) :
  exists cb',
    breaker this (fst (runSeq (EmailService.sendEmail payload key) w)) = Some cb' /\
    (pr_sendCalledCount (cb_provider cb) <= pr_sendCalledCount (cb_provider cb')
       <= pr_sendCalledCount (cb_provider cb) + S MAX_RETRIES)%nat.
Proof.
  destruct (decide (key ∈ svc_sentEmailIds (service w))) as [Hin|Hin].
  { rewrite sendEmail_seen by assumption. exists cb. split; [assumption | lia]. }
  destruct (limited w) eqn:Hlim.
  { rewrite sendEmail_limited by assumption. exists cb. split; [assumption | lia]. }
  rewrite sendEmail_accepted by assumption. cbv zeta.
  destruct (providersLoop_budget payload key (length (heap w)) this
              (seq 0 (length (svc_providers (service w)))) (accepted key w) cb
              (NoDup_seq _ _) Hb) as (cb' & Hb' & C).
  destruct (runSeq (EmailService.providersLoop _ _ _ _) _) as [w' [res|]];
    cbn [fst snd] in *; exists cb'; auto.
Qed.

Lemma X11_witness :
  exists cb',
    breaker 0 (fst (runSeq (EmailService.sendEmail emailPayload "id-3") Outage.start))
      = Some cb' /\
    (pr_sendCalledCount (ControllableMockProvider "Provider1" true)
       <= pr_sendCalledCount (cb_provider cb')
       <= pr_sendCalledCount (ControllableMockProvider "Provider1" true) + S MAX_RETRIES)%nat.
Proof.
  apply (X11_at_most_three_calls_per_provider emailPayload "id-3" Outage.start 0
           (EmailService.newBreaker (ControllableMockProvider "Provider1" true))).
  reflexivity.
Defined.

(** ** A call that is not awaited *)

Lemma advance_bind {A B} (m : Async A) (k : A -> Async B) w :
  advance (m ≫= k) w =
    match advance m w with
    | (w', inl a) => advance (k a) w'
    | (w', inr (ms, m')) => (w', inr (ms, m' ≫= k))
    end.
Proof.
  revert w. induction m as [a | f IH | w' m IH | ms m IH]; intros w; simpl; auto.
Qed.

Lemma advance_isRateLimited w :
  advance EmailService.isRateLimited w = (pruned w, inl (limited w)).
Proof.
  unfold EmailService.isRateLimited, limited, pruned. simpl.
  destruct (bool_decide _); reflexivity.
Qed.

Lemma advance_sendEmail_seen payload key w :
  key ∈ svc_sentEmailIds (service w) ->
  advance (EmailService.sendEmail payload key) w =
    (w, inl (Returned (svc_emailStatus (service w) !! key))).
Proof.
  intros Hin. unfold EmailService.sendEmail. simpl.
  rewrite bool_decide_eq_true_2 by assumption. reflexivity.
Qed.

Lemma advance_sendEmail_limited payload key w :
  key ∉ svc_sentEmailIds (service w) ->
  limited w = true ->
  advance (EmailService.sendEmail payload key) w =
    (pruned w, inl (Threw EmailService.rateLimitMessage)).
Proof.
  intros Hin Hlim. unfold EmailService.sendEmail.
  cbn [mbind Async_bind bind gets advance].
  rewrite bool_decide_eq_false_2 by assumption.
  rewrite advance_bind, advance_isRateLimited. rewrite Hlim. reflexivity.
Qed.

(** A request the breaker refuses is rejected at once, with nothing
    changed. *)
Lemma send_refused this payload w cb e :
  breaker this w = Some cb ->
  snd (CircuitBreaker.guard (clock w) cb) = Some e ->
  advance (CircuitBreaker.send this payload) w = (w, inl (Rejected e)).
Proof.
  intros Hb Hg. unfold CircuitBreaker.send.
  cbn [mbind Async_bind bind gets advance]. rewrite Hb.
  destruct (CircuitBreaker.guard (clock w) cb) as [cb1 thrown] eqn:E.
  simpl in Hg. subst thrown. apply guard_thrown in E. subst cb1.
  cbn [mbind Async_bind bind modify advance].
  rewrite setBreaker_same by assumption. reflexivity.
Qed.

(** A call that passes the checks runs up to the first [await] of its
    first try: that of the provider's call if the first breaker lets the
    request through, that of line 89 if it refuses it. *)
Lemma advance_sendEmail_accepted payload key w cb :
  key ∉ svc_sentEmailIds (service w) ->
  limited w = false ->
  breaker 0 w = Some cb ->
  let trying :=
    mutate (length (heap w)) (EmailService.countAttempt (clock w)) (accepted key w) in
  exists k,
    advance (EmailService.sendEmail payload key) w =
      match CircuitBreaker.guard (clock w) cb with
      | (cb1, Some _) => (trying, inr (0, k))
      | (cb1, None) =>
          (logEffect (ProviderCall 0)
             (setBreaker 0
                (CircuitBreaker.setProvider (fst (callProvider (cb_provider cb) payload)) cb1)
                trying),
           inr (pr_latency (cb_provider cb) (pr_sendCalledCount (cb_provider cb)), k))
      end.
Proof.
  intros Hin Hlim Hb trying. unfold EmailService.sendEmail.
  cbn [mbind Async_bind bind gets advance].
  rewrite bool_decide_eq_false_2 by assumption.
  rewrite advance_bind, advance_isRateLimited. rewrite Hlim.
  cbn [mbind Async_bind bind gets modify atomic advance fst snd].
  rewrite advance_bind.
  change (length (heap (setService _ (pruned w)))) with (length (heap w)).
  match goal with |- context [advance (EmailService.providersLoop _ _ _ ?l) ?w0] =>
    change l with (seq 0 (length (svc_providers (service w))));
    change w0 with (accepted key w) end.
  assert (Hlen : exists m, length (svc_providers (service w)) = S m).
  { apply lookup_lt_Some in Hb. destruct (length (svc_providers (service w)));
      [lia | eauto]. }
  destruct Hlen as [m ->]. cbn [seq EmailService.providersLoop].
  cbn [mbind Async_bind]. rewrite advance_bind.
  cbn [EmailService.retryLoop]. cbn [mbind Async_bind bind gets modify advance].
  rewrite advance_bind.
  match goal with |- context [advance (CircuitBreaker.send 0 payload) ?w0] =>
    change w0 with trying end.
  assert (Hb1 : breaker 0 trying = Some cb) by exact Hb.
  destruct (CircuitBreaker.guard (clock w) cb) as [cb1 [e|]] eqn:Hg.
  - rewrite (send_refused 0 payload trying cb e Hb1)
      by (change (clock trying) with (clock w); rewrite Hg; reflexivity).
    cbn [await mbind Async_bind bind advance]. eexists. reflexivity.
  - destruct (send_in_flight 0 payload trying cb cb1 Hb1 Hg) as (k & E & _).
    rewrite E. eexists. reflexivity.
Qed.

Lemma elapse_max ms w : elapse (Z.max 0 ms) w = elapse ms w.
Proof. unfold elapse. f_equal. lia. Qed.

(** What a call that passes the checks has done when it comes back. *)
Lemma call_in_flight
    (payload : EmailPayload) (key : string) (w : World) (promises : list Promise)
    (cb : CircuitBreaker)
    (Hin : key ∉ svc_sentEmailIds (service w))
    (Hlim : limited w = false)
    (Hb : breaker 0 w = Some cb) :
  exists w' due k,
    act (Call payload key) (w, promises) = Some (w', promises ++ [Suspended due k]) /\
    clock w' = clock w /\
    EmailService.statusRecord key w'
      = Some (mkTracked (length (heap w)) pending 1 None (clock w) key) /\
    svc_sentEmailIds (service w') = svc_sentEmailIds (service w) /\
    is_Some (breaker 0 w') /\
    length (heap w') = S (length (heap w)) /\
    svc_requestTimestamps (service w')
      = EmailService.retained (clock w) (svc_requestTimestamps (service w)) ++ [clock w] /\
    (effects w', sendCalledCount 0 w', due) =
      match snd (CircuitBreaker.guard (clock w) cb) with
      | None =>
          (effects w ++ [ProviderCall 0],
           Some (S (pr_sendCalledCount (cb_provider cb))),
           clock w +
             Z.max 0 (pr_latency (cb_provider cb) (pr_sendCalledCount (cb_provider cb))))
      | Some _ => (effects w, Some (pr_sendCalledCount (cb_provider cb)), clock w)
      end /\
    runSeq k (elapse (due - clock w) w') = runSeq (EmailService.sendEmail payload key) w.
Proof.
  destruct (advance_sendEmail_accepted payload key w cb Hin Hlim Hb) as (k & E).
  cbv zeta in E.
  pose proof (runSeq_advance (EmailService.sendEmail payload key) w) as R.
  assert (Hrec : forall h : list TrackedEmail,
             alter (EmailService.countAttempt (clock w)) (length (heap w))
               (heap w ++ [mkTracked (length (heap w)) pending 0 None (clock w) key])
               !! length (heap w)
             = Some (mkTracked (length (heap w)) pending 1 None (clock w) key)).
  { intros _. rewrite list_lookup_alter_eq, lookup_app_r by reflexivity.
    rewrite Nat.sub_diag. reflexivity. }
  unfold act. rewrite E in *.
  destruct (CircuitBreaker.guard (clock w) cb) as [cb1 [e|]] eqn:Hg; cbn [snd].
  - do 3 eexists. split; [reflexivity|].
    split; [reflexivity|]. split.
    { unfold EmailService.statusRecord, EmailService.getEmailStatus. simpl.
      rewrite lookup_insert_eq. simpl. apply (Hrec []). }
    split; [reflexivity|]. split; [exists cb; exact Hb|].
    split; [simpl; rewrite length_alter, length_app; simpl; lia|].
    split; [reflexivity|]. split.
    { unfold sendCalledCount.
      change (breaker 0 (mutate _ _ (accepted key w))) with (breaker 0 w).
      rewrite Hb. simpl. repeat f_equal. lia. }
    rewrite R. f_equal. unfold elapse. f_equal. simpl. lia.
  - destruct (guard_keeps _ _ _ _ Hg) as [Hp _].
    do 3 eexists. split; [reflexivity|].
    split; [reflexivity|]. split.
    { unfold EmailService.statusRecord, EmailService.getEmailStatus. simpl.
      rewrite lookup_insert_eq. simpl. apply (Hrec []). }
    split; [reflexivity|]. split.
    { unfold breaker. simpl.
      rewrite list_lookup_insert_eq by (eapply lookup_lt_Some; exact Hb). eauto. }
    split; [simpl; rewrite length_alter, length_app; simpl; lia|].
    split; [reflexivity|]. split.
    { unfold sendCalledCount, breaker. simpl.
      rewrite list_lookup_insert_eq by (eapply lookup_lt_Some; exact Hb).
      reflexivity. }
    rewrite R. f_equal. unfold elapse. f_equal. simpl. lia.
Qed.

(** X12. A call that passes the checks and is not awaited comes back
    suspended at the first [await] of its first try.  At that point its
    record is registered and reads [pending] with one attempt, its key is
    not in [sentEmailIds], its request is logged, and the first provider
    has been called if and only if its breaker let the request through;
    resumed when due with nothing else in between, the call ends as an
    awaited one does. *)
Theorem X12_record_is_pending_in_flight
    (payload : EmailPayload) (key : string) (w : World) (promises : list Promise)
    (cb : CircuitBreaker)
    (Hin : key ∉ svc_sentEmailIds (service w))
    (Hlim : limited w = false)
    (Hb : breaker 0 w = Some cb) :
  exists w' due k,
    act (Call payload key) (w, promises) = Some (w', promises ++ [Suspended due k]) /\
    clock w' = clock w /\
    EmailService.statusRecord key w'
      = Some (mkTracked (length (heap w)) pending 1 None (clock w) key) /\
    svc_sentEmailIds (service w') = svc_sentEmailIds (service w) /\
    svc_requestTimestamps (service w')
      = EmailService.retained (clock w) (svc_requestTimestamps (service w)) ++ [clock w] /\
    (effects w', sendCalledCount 0 w', due) =
      match snd (CircuitBreaker.guard (clock w) cb) with
      | None =>
          (effects w ++ [ProviderCall 0],
           Some (S (pr_sendCalledCount (cb_provider cb))),
           clock w +
             Z.max 0 (pr_latency (cb_provider cb) (pr_sendCalledCount (cb_provider cb))))
      | Some _ => (effects w, Some (pr_sendCalledCount (cb_provider cb)), clock w)
      end /\
    runSeq k (elapse (due - clock w) w') = runSeq (EmailService.sendEmail payload key) w.
Proof.
  destruct (call_in_flight payload key w promises cb Hin Hlim Hb)
    as (w' & due & k & E & Hc & Hrec & Hs & _ & _ & Ht & Hcall & Hrun).
  exists w', due, k. auto 10.
Qed.

Lemma X12_witness :
  exists w' due k,
    act (Call emailPayload "k") (Race.start, [])
      = Some (w', [] ++ [Suspended due k]) /\
    clock w' = clock Race.start /\
    EmailService.statusRecord "k" w'
      = Some (mkTracked (length (heap Race.start)) pending 1 None (clock Race.start) "k") /\
    svc_sentEmailIds (service w') = svc_sentEmailIds (service Race.start) /\
    svc_requestTimestamps (service w')
      = EmailService.retained (clock Race.start)
          (svc_requestTimestamps (service Race.start)) ++ [clock Race.start] /\
    (effects w', sendCalledCount 0 w', due) =
      match snd (CircuitBreaker.guard (clock Race.start)
                   (EmailService.newBreaker (ControllableMockProvider "Provider1" false))) with
      | None =>
          (effects Race.start ++ [ProviderCall 0],
           Some (S (pr_sendCalledCount
                      (cb_provider
                         (EmailService.newBreaker
                            (ControllableMockProvider "Provider1" false))))),
           clock Race.start +
             Z.max 0 (pr_latency
                        (cb_provider
                           (EmailService.newBreaker
                              (ControllableMockProvider "Provider1" false)))
                        (pr_sendCalledCount
                           (cb_provider
                              (EmailService.newBreaker
                                 (ControllableMockProvider "Provider1" false))))))
      | Some _ =>
          (effects Race.start,
           Some (pr_sendCalledCount
                   (cb_provider
                      (EmailService.newBreaker
                         (ControllableMockProvider "Provider1" false)))),
           clock Race.start)
      end /\
    runSeq k (elapse (due - clock Race.start) w')
      = runSeq (EmailService.sendEmail emailPayload "k") Race.start.
Proof.
  apply (X12_record_is_pending_in_flight emailPayload "k" Race.start []
           (EmailService.newBreaker (ControllableMockProvider "Provider1" false))).
  - apply (bool_decide_unpack _). vm_compute. exact I.
  - vm_compute. reflexivity.
  - reflexivity.
Defined.

(** ** A burst of calls *)

Lemma retained_idem now (l : list Z) :
  EmailService.retained now (EmailService.retained now l) = EmailService.retained now l.
Proof.
  unfold EmailService.retained. induction l as [|x l IH]; [reflexivity|].
  rewrite filter_cons. case_decide; [|assumption].
  rewrite filter_cons, decide_True by assumption. f_equal. assumption.
Qed.

Lemma retained_now now (l : list Z) :
  EmailService.retained now (EmailService.retained now l ++ [now])
    = EmailService.retained now l ++ [now].
Proof.
  unfold EmailService.retained at 1. rewrite filter_app.
  fold (EmailService.retained now (EmailService.retained now l)).
  rewrite retained_idem. f_equal.
  rewrite filter_cons, decide_True by (unfold RATE_LIMIT_WINDOW_MS; lia).
  reflexivity.
Qed.

Lemma limited_room w : limited w = bool_decide (room w = 0%nat).
Proof.
  unfold limited, room. apply bool_decide_ext. unfold RATE_LIMIT_COUNT. lia.
Qed.

(** One call of a burst. *)
Lemma act_call payload key w promises cb :
  key ∉ svc_sentEmailIds (service w) ->
  breaker 0 w = Some cb ->
  exists w' p,
    act (Call payload key) (w, promises) = Some (w', promises ++ [p]) /\
    clock w' = clock w /\
    svc_sentEmailIds (service w') = svc_sentEmailIds (service w) /\
    is_Some (breaker 0 w') /\
    room w' = (room w - 1)%nat /\
    length (heap w') = (length (heap w) + (if limited w then 0 else 1))%nat /\
    if limited w then p = Settled (Threw EmailService.rateLimitMessage)
    else exists due k, p = Suspended due k.
Proof.
  intros Hin Hb. destruct (limited w) eqn:Hlim.
  - unfold act. rewrite advance_sendEmail_limited by assumption.
    do 2 eexists. split; [reflexivity|]. split; [reflexivity|].
    split; [reflexivity|]. split; [exists cb; exact Hb|].
    rewrite limited_room in Hlim. apply bool_decide_eq_true in Hlim.
    split; [|split; [simpl; lia | reflexivity]].
    unfold room in *. simpl. rewrite retained_idem. lia.
  - destruct (call_in_flight payload key w promises cb Hin Hlim Hb)
      as (w' & due & k & E & Hc & Hrec & Hs & Hbr & Hh & Ht & _).
    exists w', (Suspended due k). split; [exact E|]. split; [exact Hc|].
    split; [exact Hs|]. split; [exact Hbr|].
    rewrite limited_room in Hlim. apply bool_decide_eq_false in Hlim.
    split; [|split; [lia | eauto]].
    unfold room in *. rewrite Ht, Hc, retained_now, length_app. simpl. lia.
Qed.

Lemma burst_run requests : forall w promises cb,
  breaker 0 w = Some cb ->
  (forall request, request ∈ requests -> snd request ∉ svc_sentEmailIds (service w)) ->
  exists w' new,
    run (burst requests) (w, promises) = Some (w', promises ++ new) /\
    length new = length requests /\
    clock w' = clock w /\
    room w' = (room w - length requests)%nat /\
    length (heap w') = (length (heap w) + length requests `min` room w)%nat /\
    forall i p, new !! i = Some p ->
      if bool_decide (i < room w)%nat then exists due k, p = Suspended due k
      else p = Settled (Threw EmailService.rateLimitMessage).
Proof.
  induction requests as [|[payload key] rest IH]; intros w promises cb Hb Hkeys.
  - exists w, []. rewrite app_nil_r. simpl. repeat split; try lia.
    intros i p Hi. rewrite lookup_nil in Hi. discriminate.
  - destruct (act_call payload key w promises cb) as
      (w1 & p & E & Hc & Hs & [cb1 Hb1] & Hroom & Hheap & Hp); [|assumption|].
    { apply (Hkeys (payload, key)). apply elem_of_cons. auto. }
    destruct (IH w1 (promises ++ [p]) cb1 Hb1) as
      (w' & new & R & Hlen & Hc' & Hroom' & Hheap' & Hnew).
    { intros request Hr. rewrite Hs. apply Hkeys. apply elem_of_cons. auto. }
    exists w', (p :: new). unfold burst in *. rewrite fmap_cons.
    cbn [run fst snd]. rewrite E, R, <- app_assoc.
    split; [reflexivity|]. split; [simpl; lia|]. split; [congruence|].
    rewrite limited_room in Hheap, Hp.
    split; [simpl; lia|]. split.
    { rewrite Hheap', Hheap, Hroom. cbn [length]. case_bool_decide; lia. }
    intros [|i] q Hq; simpl in Hq.
    + injection Hq as <-. repeat case_bool_decide; try lia; assumption.
    + specialize (Hnew i q Hq). rewrite Hroom in Hnew.
      repeat case_bool_decide; try lia; assumption.
Qed.

(** X13. The limiter holds for calls that are not awaited.  When a
    server makes a burst of calls, one after the other with none awaited
    and none resumed in between, with keys not yet sent: as many calls as
    the limiter has room for at that instant (five less the requests of
    the last ten seconds) are let through and come back suspended, each
    with a new record; every later call of the burst is rejected at once
    with the rate-limit error; and the limiter's room is used up
    accordingly.  Calls already in flight are left as they are. *)
Theorem X13_burst_is_limited_at_once
    (requests : list (EmailPayload * string)) (w : World) (promises : list Promise)
    (cb : CircuitBreaker)
    (Hb : breaker 0 w = Some cb)
    (Hkeys : forall request, request ∈ requests ->
               snd request ∉ svc_sentEmailIds (service w)) :
  exists w' new,
    run (burst requests) (w, promises) = Some (w', promises ++ new) /\
    length new = length requests /\
    (forall i p, new !! i = Some p ->
       if bool_decide (i < room w)%nat then exists due k, p = Suspended due k
       else p = Settled (Threw EmailService.rateLimitMessage)) /\
    room w' = (room w - length requests)%nat /\
    length (heap w') = (length (heap w) + length requests `min` room w)%nat.
Proof.
  destruct (burst_run requests w promises cb Hb Hkeys)
    as (w' & new & R & Hlen & _ & Hroom & Hheap & Hnew).
  exists w', new. auto.
Qed.

Lemma X13_witness :
  exists w' new,
    run (burst [(emailPayload, "a"); (emailPayload, "b"); (emailPayload, "c");
                (emailPayload, "d"); (emailPayload, "a"); (emailPayload, "f");
                (emailPayload, "g")]) (Race.start, [])
      = Some (w', [] ++ new) /\
    length new = 7%nat /\
    (forall i p, new !! i = Some p ->
       if bool_decide (i < room Race.start)%nat then exists due k, p = Suspended due k
       else p = Settled (Threw EmailService.rateLimitMessage)) /\
    room w' = (room Race.start - 7)%nat /\
    length (heap w') = (length (heap Race.start) + 7 `min` room Race.start)%nat.
Proof.
  apply (X13_burst_is_limited_at_once
           [(emailPayload, "a"); (emailPayload, "b"); (emailPayload, "c");
            (emailPayload, "d"); (emailPayload, "a"); (emailPayload, "f");
            (emailPayload, "g")] Race.start []
           (EmailService.newBreaker (ControllableMockProvider "Provider1" false))).
  - reflexivity.
  - intros request _. apply not_elem_of_empty.
Defined.

(** ** Open circuits *)

(** A try that an OPEN circuit refuses. *)
Lemma retryLoop_refused payload key r this n i w cb :
  breaker this w = Some cb ->
  cb_state cb = OPEN ->
  clock w - cb_lastFailureTime cb <= resetTimeout ->
  runSeq (EmailService.retryLoop payload key r this (S n) i) w =
  runSeq (EmailService.retryLoop payload key r this n (S i))
    (afterRejection i (mutate r (EmailService.countAttempt (clock w)) w)).
Proof.
  intros Hb Hs Hearly. rewrite retryLoop_S. cbv zeta.
  set (w1 := mutate r (EmailService.countAttempt (clock w)) w).
  assert (Hb1 : breaker this w1 = Some cb) by exact Hb.
  rewrite (sendSeq_thrown this payload w1 cb (CircuitBreaker.openMessage cb) Hb1)
    by (change (clock w1) with (clock w);
        rewrite guard_open_early by assumption; reflexivity).
  reflexivity.
Qed.

(** The three tries of an OPEN circuit that stays inside its timeout. *)
Lemma retryLoop_open payload key r this w cb :
  breaker this w = Some cb ->
  cb_state cb = OPEN ->
  clock w + 600 - cb_lastFailureTime cb <= resetTimeout ->
  let out := runSeq (EmailService.retryLoop payload key r this (S MAX_RETRIES) 0) w in
  snd out = None /\
  svc_providers (service (fst out)) = svc_providers (service w) /\
  effects (fst out) = effects w ++ [Timer 200; Timer 400] /\
  clock (fst out) = clock w + 600.
Proof.
  intros Hb Hs Hearly. cbv zeta. unfold MAX_RETRIES.
  rewrite (retryLoop_refused payload key r this 2 0 w cb Hb Hs) by lia.
  set (w1 := afterRejection 0 (mutate r (EmailService.countAttempt (clock w)) w)).
  assert (E1 : w1 = elapse 200 (logEffect (Timer 200)
                      (mutate r (EmailService.countAttempt (clock w)) w)))
    by reflexivity.
  assert (Hb1 : breaker this w1 = Some cb) by (rewrite E1; exact Hb).
  assert (Hc1 : clock w1 = clock w + 200) by (rewrite E1; simpl; lia).
  rewrite (retryLoop_refused payload key r this 1 1 w1 cb Hb1 Hs) by lia.
  set (w2 := afterRejection 1 (mutate r (EmailService.countAttempt (clock w1)) w1)).
  assert (E2 : w2 = elapse 400 (logEffect (Timer 400)
                      (mutate r (EmailService.countAttempt (clock w1)) w1)))
    by reflexivity.
  assert (Hb2 : breaker this w2 = Some cb) by (rewrite E2; exact Hb1).
  assert (Hc2 : clock w2 = clock w1 + 400) by (rewrite E2; simpl; lia).
  rewrite (retryLoop_refused payload key r this 0 2 w2 cb Hb2 Hs) by lia.
  rewrite retryLoop_0. cbn [fst snd].
  change (afterRejection 2 (mutate r (EmailService.countAttempt (clock w2)) w2))
    with (mutate r (EmailService.countAttempt (clock w2)) w2).
  split; [reflexivity|]. split; [rewrite E2, E1; reflexivity|].
  split; [rewrite E2, E1; simpl; rewrite <- app_assoc; reflexivity|].
  change (clock (mutate r (EmailService.countAttempt (clock w2)) w2)) with (clock w2).
  lia.
Qed.

Lemma providersLoop_open payload key r providers : forall w,
  (forall this, this ∈ providers -> exists cb,
     breaker this w = Some cb /\ cb_state cb = OPEN /\
     clock w + 600 * Z.of_nat (length providers) - cb_lastFailureTime cb
       <= resetTimeout) ->
  let out := runSeq (EmailService.providersLoop payload key r providers) w in
  snd out = None /\
  svc_providers (service (fst out)) = svc_providers (service w) /\
  effects (fst out)
    = effects w ++ mjoin (replicate (length providers) [Timer 200; Timer 400]) /\
  clock (fst out) = clock w + 600 * Z.of_nat (length providers).
Proof.
  induction providers as [|this rest IH]; intros w H; cbv zeta.
  - simpl. rewrite app_nil_r. repeat split. lia.
  - rewrite providersLoop_cons. cbv zeta.
    destruct (H this) as (cb & Hb & Hs & Hearly); [apply elem_of_cons; auto|].
    cbn [length] in Hearly.
    destruct (retryLoop_open payload key r this w cb Hb Hs ltac:(lia))
      as (Hn & Hp & He & Hc).
    destruct (runSeq (EmailService.retryLoop _ _ _ _ _ _) w) as [w' res];
      cbn [fst snd] in *. subst res.
    destruct (IH w') as (Hn' & Hp' & He' & Hc').
    { intros j Hj. destruct (H j) as (cbj & Hbj & Hsj & Hej);
        [apply elem_of_cons; auto|].
      exists cbj. unfold breaker in *. rewrite Hp, Hc. cbn [length] in Hej.
      split; [assumption|]. split; [assumption | lia]. }
    split; [assumption|]. split; [congruence|]. split.
    + rewrite He', He. cbn [length replicate mjoin list_join]. simpl.
      rewrite <- app_assoc. reflexivity.
    + rewrite Hc', Hc. cbn [length]. lia.
Qed.

(** X14. What an outage costs.  If a call reaches the loops while every
    circuit is OPEN and stays inside its reset timeout for the length of
    the call, then no provider is called and no breaker changes: every
    try is refused by its breaker, the call sleeps 200 and then 400 ms per
    provider all the same, and it returns its record [failed], with three
    attempts counted per provider, [600 * n] ms after it began. *)
Theorem X14_open_circuits_are_waited_on
    (payload : EmailPayload) (key : string) (w : World)
    (Hin : key ∉ svc_sentEmailIds (service w))
    (Hlim : limited w = false)
    (Hopen : Forall (fun cb =>
        cb_state cb = OPEN /\
        clock w + 600 * Z.of_nat (length (svc_providers (service w)))
          - cb_lastFailureTime cb <= resetTimeout)
      (svc_providers (service w))) :
  let out := runSeq (EmailService.sendEmail payload key) w in
  let n := length (svc_providers (service w)) in
  snd out = Returned (Some (length (heap w))) /\
  svc_providers (service (fst out)) = svc_providers (service w) /\
  effects (fst out) = effects w ++ mjoin (replicate n [Timer 200; Timer 400]) /\
  clock (fst out) = clock w + 600 * Z.of_nat n /\
  exists e,
    EmailService.statusRecord key (fst out) = Some e /\
    te_status e = failed /\ te_provider e = None /\
    te_attempts e = (S MAX_RETRIES * n)%nat.
Proof.
  intros out n. subst out.
  destruct (sendEmail_record payload key w Hin Hlim) as (e & He & _ & _ & _ & Ht).
  pose proof (sendEmail_registers payload key w) as G.
  rewrite sendEmail_accepted in * by assumption. cbv zeta in *.
  set (r := length (heap w)) in *.
  destruct (providersLoop_open payload key r (seq 0 n) (accepted key w))
    as (Hn & Hp & He' & Hc).
  { intros this Hthis. apply elem_of_seq in Hthis.
    destruct (lookup_lt_is_Some_2 (svc_providers (service w)) this ltac:(lia))
      as [cb Hcb].
    exists cb. split; [exact Hcb|].
    rewrite Forall_lookup in Hopen. destruct (Hopen this cb Hcb) as [Hs Hearly].
    rewrite length_seq. auto. }
  rewrite length_seq in *. fold n in He', Hc.
  destruct (runSeq (EmailService.providersLoop _ _ _ _) _) as [w' res];
    cbn [fst snd] in *. subst res.
  split; [reflexivity|]. split; [exact Hp|]. split; [exact He'|].
  split; [exact Hc|].
  exists e. unfold EmailService.statusRecord. rewrite (G _ eq_refl).
  split; [exact He|].
  destruct Ht as [(Hs & _) | (Hs & Hnone & Hatt)];
    [|split; [exact Hs | split; [exact Hnone | exact Hatt]]].
  cbn [fst] in He. simpl in He. rewrite list_lookup_alter_eq in He.
  destruct (heap w' !! r); simpl in He; [|discriminate].
  injection He as <-. discriminate Hs.
Qed.

Lemma X14_witness :
  let out := runSeq (EmailService.sendEmail emailPayload "id-3b") (fst Outage.first) in
  let n := length (svc_providers (service (fst Outage.first))) in
  snd out = Returned (Some (length (heap (fst Outage.first)))) /\
  svc_providers (service (fst out)) = svc_providers (service (fst Outage.first)) /\
  effects (fst out)
    = effects (fst Outage.first) ++ mjoin (replicate n [Timer 200; Timer 400]) /\
  clock (fst out) = clock (fst Outage.first) + 600 * Z.of_nat n /\
  exists e,
    EmailService.statusRecord "id-3b" (fst out) = Some e /\
    te_status e = failed /\ te_provider e = None /\
    te_attempts e = (S MAX_RETRIES * n)%nat.
Proof.
  apply (X14_open_circuits_are_waited_on emailPayload "id-3b" (fst Outage.first)).
  - apply (bool_decide_unpack _). vm_compute. exact I.
  - vm_compute. reflexivity.
  - apply (bool_decide_unpack _). vm_compute. exact I.
Defined.

(** ** Where a record's provider name comes from *)

Section Provenance.
Variable N : string -> Prop.

Lemma Vouched_afterSend payload (this : nat) now now' cb :
  Vouched N cb -> Vouched N (afterSend now now' payload cb).
Proof.
  unfold Vouched, afterSend. intros H.
  destruct (CircuitBreaker.guard now cb) as [cb1 thrown] eqn:Hg.
  destruct (guard_keeps _ _ _ _ Hg) as [Hp _].
  destruct thrown as [e|]; [rewrite Hp; exact H|].
  destruct (pr_behaviour (cb_provider cb1) _ _); simpl; rewrite Hp; exact H.
Qed.

Lemma sendSeq_vouched this payload w providerName :
  allBreakers (fun _ => Vouched N) w ->
  snd (sendSeq this payload w) = Resolved true providerName -> N providerName.
Proof.
  intros H. unfold sendSeq.
  destruct (breaker this w) as [cb|] eqn:Hb; [|discriminate].
  destruct (CircuitBreaker.guard (clock w) cb) as [cb1 [e|]] eqn:Hg; [discriminate|].
  destruct (guard_keeps _ _ _ _ Hg) as [Hp _]. simpl. rewrite Hp.
  apply (H this cb Hb).
Qed.

Lemma retryLoop_vouched payload key r this n : forall i w,
  allBreakers (fun _ => Vouched N) w ->
  is_Some (heap w !! r) ->
  let out := runSeq (EmailService.retryLoop payload key r this n i) w in
  forall res, snd out = Some (Returned res) ->
  exists e providerName,
    heap (fst out) !! r = Some e /\ te_provider e = Some providerName /\ N providerName.
Proof.
  induction n as [|n IH]; intros i w H [e0 He0]; cbv zeta.
  - rewrite retryLoop_0. intros res Hx. discriminate.
  - rewrite retryLoop_S. cbv zeta.
    set (w1 := mutate r (EmailService.countAttempt (clock w)) w).
    assert (H1 : allBreakers (fun _ => Vouched N) w1) by exact H.
    assert (He1 : heap (fst (sendSeq this payload w1)) !! r
                  = Some (EmailService.countAttempt (clock w) e0)).
    { rewrite sendSeq_heap. unfold w1. simpl.
      rewrite list_lookup_alter_eq, He0. reflexivity. }
    pose proof (sendSeq_vouched this payload w1) as V.
    pose proof (allBreakers_sendSeq (fun _ => Vouched N) payload
                  (Vouched_afterSend payload) this w1 H1) as H2.
    destruct (snd (sendSeq this payload w1)) as [[] name | msg | []].
    + intros _ _.
      exists (EmailService.markSent name (EmailService.countAttempt (clock w) e0)), name.
      simpl. rewrite list_lookup_alter_eq, He1. auto.
    + apply IH; [exact H2 | eauto].
    + apply IH; [|rewrite heap_afterRejection; eauto].
      intros j cb Hj. rewrite breaker_afterRejection in Hj. exact (H2 j cb Hj).
    + intros res Hx. discriminate.
    + apply IH; [|rewrite heap_afterRejection; eauto].
      intros j cb Hj. rewrite breaker_afterRejection in Hj. exact (H2 j cb Hj).
Qed.

Lemma providersLoop_vouched payload key r providers : forall w,
  allBreakers (fun _ => Vouched N) w ->
  is_Some (heap w !! r) ->
  let out := runSeq (EmailService.providersLoop payload key r providers) w in
  forall res, snd out = Some (Returned res) ->
  exists e providerName,
    heap (fst out) !! r = Some e /\ te_provider e = Some providerName /\ N providerName.
Proof.
  induction providers as [|this rest IH]; intros w H [e0 He0]; cbv zeta.
  - intros res Hx. discriminate.
  - rewrite providersLoop_cons. cbv zeta.
    pose proof (retryLoop_vouched payload key r this (S MAX_RETRIES) 0 w H
                  (ex_intro _ e0 He0)) as V.
    pose proof (allBreakers_retryLoop (fun _ => Vouched N) payload
                  (Vouched_afterSend payload) key r this (S MAX_RETRIES) 0 w H) as H1.
    destruct (retryLoop_attempts payload key r this (S MAX_RETRIES) 0 w e0 He0)
      as (e1 & He1 & _).
    destruct (runSeq (EmailService.retryLoop _ _ _ _ _ _) w) as [w' [res|]];
      cbn [fst snd] in *.
    + intros res' Hx. apply (V res'). exact Hx.
    + apply IH; [exact H1 | eauto].
Qed.

Lemma Named_sendEmail payload key w :
  Inv w -> allBreakers (fun _ => Vouched N) w -> Named N w ->
  Named N (fst (runSeq (EmailService.sendEmail payload key) w)).
Proof.
  intros I H R.
  pose proof (sendEmail_keeps payload key w) as K.
  pose proof (sendEmail_registers payload key w) as G.
  destruct (decide (key ∈ svc_sentEmailIds (service w))) as [Hin|Hin].
  { rewrite (keeps_seen _ _ _ K Hin). assumption. }
  destruct (limited w) eqn:Hlim.
  { rewrite sendEmail_limited by assumption. exact R. }
  assert (New : forall e name,
            heap (fst (runSeq (EmailService.sendEmail payload key) w))
              !! length (heap w) = Some e ->
            te_provider e = Some name -> N name).
  { rewrite sendEmail_accepted by assumption. cbv zeta.
    set (r := length (heap w)).
    assert (He0 : heap (accepted key w) !! r
                  = Some (mkTracked r pending 0 None (clock w) key)).
    { unfold accepted. simpl. rewrite lookup_app_r by reflexivity.
      fold r. rewrite Nat.sub_diag. reflexivity. }
    pose proof (providersLoop_outcome payload key r
                  (seq 0 (length (svc_providers (service w)))) (accepted key w)) as O.
    pose proof (providersLoop_vouched payload key r
                  (seq 0 (length (svc_providers (service w)))) (accepted key w)
                  H (ex_intro _ _ He0)) as V.
    unfold LoopOutcome in O.
    destruct (runSeq (EmailService.providersLoop _ _ _ _) _) as [w' [res|]];
      cbn [fst snd] in *.
    - destruct O as [(-> & _) | (-> & F)].
      + destruct (V _ eq_refl) as (e1 & name1 & He1 & Hp1 & HN).
        intros e name He Hp. assert (e = e1) by congruence. subst e.
        assert (name = name1) by congruence. subst name. exact HN.
      + destruct (frame_record _ _ _ F _ He0) as (e2 & He2 & _ & _ & Hp2 & _).
        intros e name He Hp. rewrite He2 in He.
        injection He as <-. simpl in Hp, Hp2. congruence.
    - destruct (frame_record _ _ _ O _ He0) as (e2 & He2 & _ & _ & Hp2 & _).
      intros e name He Hp. simpl in He. rewrite list_lookup_alter_eq, He2 in He.
      injection He as <-. simpl in Hp, Hp2. congruence. }
  clear G.
  destruct (sendEmail_record payload key w Hin Hlim) as (_ & _ & G & _).
  intros k r e name Hm Hh Hp.
  destruct (decide (k = key)) as [->|Hne].
  - rewrite G in Hm. injection Hm as <-. exact (New e name Hh Hp).
  - rewrite (keeps_status _ _ _ K k Hne) in Hm.
    pose proof (inv_bound _ I k r Hm) as Hr.
    rewrite (keeps_heap _ _ _ K r Hr) in Hh. exact (R k r e name Hm Hh Hp).
Qed.

Lemma Named_exec ops : forall w,
  Inv w -> allBreakers (fun _ => Vouched N) w -> Named N w -> Named N (exec ops w).
Proof.
  unfold exec. induction ops as [|op ops IH]; intros w I H R; simpl.
  - assumption.
  - apply IH.
    + apply Inv_step. assumption.
    + apply allBreakers_step; [|assumption].
      intros payload this. apply Vouched_afterSend. exact this.
    + destruct op as [payload key | key | ms]; simpl.
      * apply Named_sendEmail; assumption.
      * assumption.
      * exact R.
Qed.

Lemma Named_boot t providers :
  (forall p, p ∈ providers -> forall n payload providerName,
     pr_behaviour p n payload = Resolved true providerName -> N providerName) ->
  forall ops, Named N (exec ops (boot t providers)).
Proof.
  intros HN ops. apply Named_exec.
  - apply Inv_boot.
  - apply allBreakers_boot. intros this p Hp n payload name. simpl.
    apply HN. eapply list_elem_of_lookup_2. exact Hp.
  - intros k r e name Hm. unfold boot in Hm. destruct providers; simpl in Hm;
      rewrite lookup_empty in Hm; discriminate.
Qed.
End Provenance.

(** X15. The provider name on a record is taken from a provider's
    answer: whatever name a registered record carries between awaited
    calls, one of the providers the service was built with resolves some
    call with success under that name. *)
Theorem X15_provider_name_comes_from_an_answer
    (t : Z) (providers : list Provider) (ops : list Op)
    (key : string) (e : TrackedEmail) (providerName : string)
    (He : EmailService.statusRecord key (exec ops (boot t providers)) = Some e)
    (Hp : te_provider e = Some providerName) :
  exists p n payload,
    p ∈ providers /\ pr_behaviour p n payload = Resolved true providerName.
Proof.
  pose (N := fun name => exists p n payload,
    p ∈ providers /\ pr_behaviour p n payload = Resolved true name).
  assert (R : Named N (exec ops (boot t providers))).
  { apply Named_boot. intros p Hin n payload name Hr. exists p, n, payload. auto. }
  unfold EmailService.statusRecord, EmailService.getEmailStatus in He.
  destruct (svc_emailStatus (service (exec ops (boot t providers))) !! key)
    as [r|] eqn:Hm; simpl in He; [|discriminate].
  exact (R key r e providerName Hm He Hp).
Qed.

Lemma X15_witness :
  exists p n payload,
    p ∈ [ControllableMockProvider "Provider1" true;
         ControllableMockProvider "Provider2" false] /\
    pr_behaviour p n payload = Resolved true "Provider2".
Proof.
  apply (X15_provider_name_comes_from_an_answer 0
           [ControllableMockProvider "Provider1" true;
            ControllableMockProvider "Provider2" false]
           [OpSend emailPayload "id-2"] "id-2"
           (mkTracked 0 sent 4 (Some "Provider2") 600 "id-2") "Provider2").
  - vm_compute. reflexivity.
  - reflexivity.
Defined.

(** ** The service of [src/server.ts] *)

(** X16. The service that [src/server.ts] builds, over [MockProvider1]
    and [MockProvider2] in that order, never gives an email up when its
    calls are awaited: whatever [Math.random()] yields and whatever was
    done before, [sendEmail] either throws the rate-limit error or
    returns a record that is [sent], under the name of one of the two
    providers; and the circuit of [MockProvider2] is CLOSED throughout. *)
Theorem X16_server_never_gives_up
    (t : Z) (random : nat -> Q) (ops : list Op) (payload : EmailPayload) (key : string) :
  let w := exec ops (server t random) in
  let out := runSeq (EmailService.sendEmail payload key) w in
  (exists cb, breaker 1 w = Some cb /\ cb_state cb = CLOSED /\
     cb_failureCount cb = 0%nat) /\
  (snd out = Threw EmailService.rateLimitMessage \/
   exists r e,
     snd out = Returned (Some r) /\ heap (fst out) !! r = Some e /\
     te_status e = sent /\
     (te_provider e = Some "MailGun-Simulator" \/
      te_provider e = Some "SendGrid-Simulator")).
Proof.
  intros w out. subst out w. unfold server.
  set (providers := [MockProvider1 random; MockProvider2]).
  set (w := exec ops (boot t providers)).
  destruct (never_thrown_exec t providers ops 1 MockProvider2 eq_refl)
    as (cb & Hb & Hs & Hfc & _ & _ & Hbeh).
  { intros n p. exists true, "SendGrid-Simulator". reflexivity. }
  fold w in Hb. split; [eauto|].
  assert (I : Inv w) by apply Inv_exec, Inv_boot.
  assert (C : forall this, Civil this payload w).
  { intros this. apply polite_exec.
    repeat constructor; intros n pl; simpl; [destruct (Qle_bool _ _)|]; discriminate. }
  pose (N := fun name : string =>
    name = "MailGun-Simulator" \/ name = "SendGrid-Simulator").
  assert (R : Named N (exec (ops ++ [OpSend payload key]) (boot t providers))).
  { apply Named_boot. intros p Hin n pl name Hr.
    apply elem_of_cons in Hin as [-> | Hin].
    - simpl in Hr. destruct (Qle_bool _ _); [discriminate|].
      injection Hr as <-. left. reflexivity.
    - apply list_elem_of_singleton in Hin. subst p. simpl in Hr.
      injection Hr as <-. right. reflexivity. }
  assert (T : Records (exec (ops ++ [OpSend payload key]) (boot t providers))).
  { apply Records_exec; [apply Inv_boot | apply Records_boot]. }
  rewrite exec_snoc in R, T. cbn [step] in R, T. fold w in R, T.
  pose proof (sendEmail_registers payload key w) as G.
  assert (S : snd (runSeq (EmailService.sendEmail payload key) w)
              = Threw EmailService.rateLimitMessage \/
              exists r e,
                snd (runSeq (EmailService.sendEmail payload key) w) = Returned (Some r) /\
                heap (fst (runSeq (EmailService.sendEmail payload key) w)) !! r = Some e /\
                te_status e = sent).
  { destruct (decide (key ∈ svc_sentEmailIds (service w))) as [Hin|Hin].
    - right. rewrite sendEmail_seen by assumption. simpl.
      destruct (inv_sent _ I key Hin) as (r & e & Hm & Hh & Hst).
      exists r, e. rewrite Hm. auto.
    - destruct (limited w) eqn:Hlim.
      + left. rewrite sendEmail_limited by assumption. reflexivity.
      + right.
        destruct (sendEmail_delivers payload key w 1 cb Hin Hlim Hb Hs)
          as [E | (Hres & _ & _ & e & name & He & Hst & _)].
        { intros n. exists "SendGrid-Simulator". rewrite Hbeh. reflexivity. }
        { exfalso. exact (sendEmail_civil _ _ _ C E). }
        eauto. }
  destruct S as [S | (r & e & Hres & He & Hst)]; [left; exact S | right].
  exists r, e. split; [exact Hres|]. split; [exact He|]. split; [exact Hst|].
  specialize (G _ Hres). unfold EmailService.getEmailStatus in G.
  destruct (T key r e G He)
    as (_ & _ & [[(_ & [name Hname] & _) | (Hf & _)] | (Hf & _)]);
    [|congruence|congruence].
  destruct (R key r e name G He Hname) as [-> | ->]; auto.
Qed.

(** ** What the service remembers *)

Lemma grows_step w op key :
  svc_sentEmailIds (service w) ⊆ svc_sentEmailIds (service (step w op)) /\
  (is_Some (EmailService.getEmailStatus key w) ->
   is_Some (EmailService.getEmailStatus key (step w op))) /\
  (length (heap w) <= length (heap (step w op)))%nat.
Proof.
  destruct op as [payload key' | key' | ms];
    [cbn [step] | repeat split; auto | repeat split; auto].
  pose proof (sendEmail_keeps payload key' w) as K.
  split; [exact (keeps_sent _ _ _ K)|]. split.
  - unfold EmailService.getEmailStatus. intros Hk.
    destruct (decide (key = key')) as [->|Hne];
      [|rewrite (keeps_status _ _ _ K key Hne); exact Hk].
    destruct (decide (key' ∈ svc_sentEmailIds (service w))) as [Hin|Hin];
      [rewrite sendEmail_seen by assumption; exact Hk|].
    destruct (limited w) eqn:Hlim;
      [rewrite sendEmail_limited by assumption; exact Hk|].
    destruct (sendEmail_record payload key' w Hin Hlim) as (_ & _ & G & _).
    rewrite G. eauto.
  - destruct (length (heap w)) as [|n] eqn:Hn; [lia|].
    assert (Hlt : (n < length (heap w))%nat) by lia.
    pose proof (keeps_heap _ _ _ K n Hlt) as E.
    apply lookup_lt_is_Some in Hlt. rewrite <- E in Hlt.
    apply lookup_lt_is_Some in Hlt. lia.
Qed.

(** X17. The service never forgets.  No awaited call ever removes a key
    from [sentEmailIds], unregisters a key from [emailStatus] or drops a
    record: through any sequence of calls the set of sent keys and the
    set of known keys only grow, and so does the number of records. *)
Theorem X17_nothing_is_forgotten (ops : list Op) (w : World) (key : string) :
  svc_sentEmailIds (service w) ⊆ svc_sentEmailIds (service (exec ops w)) /\
  (is_Some (EmailService.getEmailStatus key w) ->
   is_Some (EmailService.getEmailStatus key (exec ops w))) /\
  (length (heap w) <= length (heap (exec ops w)))%nat.
Proof.
  revert w. unfold exec. induction ops as [|op ops IH]; intros w; simpl.
  - repeat split; auto.
  - destruct (grows_step w op key) as (S1 & K1 & L1).
    destruct (IH (step w op)) as (S2 & K2 & L2).
    split; [etransitivity; eassumption|]. split; [auto | lia].
Qed.

Lemma X17_witness :
  is_Some (EmailService.getEmailStatus "id-4" (exec Delivered.next Delivered.world)).
Proof.
  apply (X17_nothing_is_forgotten Delivered.next Delivered.world "id-4").
  exists 0%nat. vm_compute. reflexivity.
Defined.

(** ** The window after a silence *)

Lemma retained_Forall (P : Z -> Prop) now l :
  Forall P l -> Forall P (EmailService.retained now l).
Proof.
  unfold EmailService.retained. induction 1 as [|x l Hx Hl IH]; [constructor|].
  rewrite filter_cons. case_decide; [constructor|]; assumption.
Qed.

Lemma LogPast_step w op : LogPast w -> LogPast (step w op).
Proof.
  unfold LogPast. intros H. destruct op as [payload key | key | ms]; cbn [step].
  - destruct (sendEmail_window payload key w) as [C E]. cbv zeta in *. rewrite E.
    assert (H' : Forall (fun timestamp =>
                   timestamp <= clock (fst (runSeq (EmailService.sendEmail payload key) w)))
                   (svc_requestTimestamps (service w))).
    { eapply Forall_impl; [exact H|]. intros timestamp Ht. cbv beta in *. lia. }
    case_bool_decide; [assumption|].
    destruct (limited w); [apply retained_Forall; assumption|].
    apply Forall_app. split; [apply retained_Forall; assumption|].
    constructor; [assumption | constructor].
  - assumption.
  - eapply Forall_impl; [exact H|]. intros timestamp Ht. cbv beta in *.
    pose proof (clock_elapse ms w). lia.
Qed.

Lemma LogPast_exec ops : forall w, LogPast w -> LogPast (exec ops w).
Proof.
  unfold exec. induction ops as [|op ops IH]; intros w H; simpl.
  - assumption.
  - apply IH, LogPast_step. assumption.
Qed.

Lemma LogPast_boot t providers : LogPast (boot t providers).
Proof. unfold LogPast, boot. destruct providers; simpl; constructor. Qed.

Lemma retained_old now l :
  Forall (fun timestamp => timestamp + RATE_LIMIT_WINDOW_MS <= now) l ->
  EmailService.retained now l = [].
Proof.
  unfold EmailService.retained. induction 1 as [|x l Hx Hl IH]; [reflexivity|].
  rewrite filter_cons, decide_False by lia. assumption.
Qed.

(** X18. Ten seconds of silence empty the window.  Once a client has
    let [RATE_LIMIT_WINDOW_MS] or more pass without a call, the limiter
    has room for five requests again, whatever happened before, and the
    next [sendEmail] is not refused: it returns a record or, when a
    provider rejects with [undefined] or [null], ends in the [TypeError]
    of line 100, and it returns a record whenever no provider of the
    service rejects so. *)
Theorem X18_silence_resets_the_window
    (t : Z) (providers : list Provider) (ops : list Op) (ms : Z)
    (payload : EmailPayload) (key : string)
    (Hms : RATE_LIMIT_WINDOW_MS <= ms) :
  let w := exec (ops ++ [OpIdle ms]) (boot t providers) in
  let out := runSeq (EmailService.sendEmail payload key) w in
  limited w = false /\
  room w = RATE_LIMIT_COUNT /\
  ((exists r, snd out = Returned (Some r)) \/ snd out = ThrewTypeError) /\
  (Forall polite providers -> exists r, snd out = Returned (Some r)).
Proof.
  intros w out.
  assert (C : Forall polite providers -> forall this, Civil this payload w).
  { intros H this. apply polite_exec. exact H. }
  subst out w. revert C. rewrite exec_snoc. cbn [step]. intros C.
  set (w0 := exec ops (boot t providers)) in *.
  assert (P : LogPast w0) by apply LogPast_exec, LogPast_boot.
  assert (E : EmailService.retained (clock (elapse ms w0))
                (svc_requestTimestamps (service (elapse ms w0))) = []).
  { apply retained_old. eapply Forall_impl; [exact P|].
    intros timestamp Ht. cbv beta in *. unfold elapse. simpl. lia. }
  assert (Hlim : limited (elapse ms w0) = false).
  { unfold limited. rewrite E. reflexivity. }
  split; [exact Hlim|]. split; [unfold room; rewrite E; reflexivity|].
  assert (I : Inv (elapse ms w0)).
  { apply (Inv_step w0 (OpIdle ms)). apply Inv_exec, Inv_boot. }
  assert (R : (exists r, snd (runSeq (EmailService.sendEmail payload key) (elapse ms w0))
                         = Returned (Some r)) \/
              snd (runSeq (EmailService.sendEmail payload key) (elapse ms w0))
                = ThrewTypeError).
  { destruct (sendEmail_returns payload key (elapse ms w0) I)
      as [T | [T | (r & e & Hr & _)]]; cbv zeta in *; [|right; exact T|left; eauto].
    exfalso.
    destruct (decide (key ∈ svc_sentEmailIds (service (elapse ms w0)))) as [Hin|Hin].
    - rewrite sendEmail_seen in T by assumption. discriminate.
    - destruct (sendEmail_cases payload key (elapse ms w0))
        as [(Hin' & _) | [(_ & Hlim' & _) | [(_ & _ & Hres & _) | (_ & _ & Hres & _)]]];
        cbv zeta in *; congruence. }
  split; [exact R|].
  intros H. destruct R as [R | R]; [exact R|].
  exfalso. exact (sendEmail_civil _ _ _ (C H) R).
Qed.

Lemma X18_witness :
  let w := exec ([OpSend emailPayload "rate-1"; OpSend emailPayload "rate-2";
                  OpSend emailPayload "rate-3"; OpSend emailPayload "rate-4";
                  OpSend emailPayload "rate-5"; OpSend emailPayload "rate-6"]
                 ++ [OpIdle 10000]) Burst.start in
  limited w = false /\
  room w = RATE_LIMIT_COUNT /\
  exists r, snd (runSeq (EmailService.sendEmail emailPayload "rate-6") w)
            = Returned (Some r).
Proof.
  pose proof (X18_silence_resets_the_window 0
                [ControllableMockProvider "Provider1" false]
                [OpSend emailPayload "rate-1"; OpSend emailPayload "rate-2";
                 OpSend emailPayload "rate-3"; OpSend emailPayload "rate-4";
                 OpSend emailPayload "rate-5"; OpSend emailPayload "rate-6"]
                10000 emailPayload "rate-6"
                ltac:(vm_compute; discriminate)) as H.
  cbv zeta in H. destruct H as (H1 & H2 & _ & H3).
  split; [exact H1|]. split; [exact H2|].
  apply H3. repeat constructor. intros n pl. discriminate.
Defined.

(** ** The same key twice in flight *)

(** X19. The idempotency check does not see calls in flight.  When two
    calls with the same new key are made one after the other, neither
    awaited, while the limiter has room for two and the first breaker is
    CLOSED, both pass the check of line 58: both come back suspended at
    the provider's call, the provider has been called twice, there are
    two [pending] records for the key, and [getEmailStatus] answers with
    the second. *)
Theorem X19_same_key_twice_in_flight
    (payload : EmailPayload) (key : string) (w : World) (promises : list Promise)
    (cb : CircuitBreaker)
    (Hin : key ∉ svc_sentEmailIds (service w))
    (Hroom : (2 <= room w)%nat)
    (Hb : breaker 0 w = Some cb)
    (Hs : cb_state cb = CLOSED) :
  let r := length (heap w) in
  exists w' due k due' k',
    run [Call payload key; Call payload key] (w, promises)
      = Some (w', promises ++ [Suspended due k; Suspended due' k']) /\
    sendCalledCount 0 w' = Some (pr_sendCalledCount (cb_provider cb) + 2)%nat /\
    effects w' = effects w ++ [ProviderCall 0; ProviderCall 0] /\
    heap w' = heap w ++ [mkTracked r pending 1 None (clock w) key;
                         mkTracked (S r) pending 1 None (clock w) key] /\
    EmailService.getEmailStatus key w' = Some (S r) /\
    key ∉ svc_sentEmailIds (service w').
Proof.
  intros r.
  assert (Hlim : limited w = false).
  { rewrite limited_room. apply bool_decide_eq_false. lia. }
  destruct (advance_sendEmail_accepted payload key w cb Hin Hlim Hb) as (k & E).
  cbv zeta in E. rewrite (guard_closed (clock w) cb Hs) in E. fold r in E.
  match type of E with _ = (?w0, _) => set (w1 := w0) in * end.
  set (cb' := CircuitBreaker.setProvider (fst (callProvider (cb_provider cb) payload)) cb)
    in *.
  assert (Hb1 : breaker 0 w1 = Some cb').
  { unfold w1, breaker. simpl.
    apply list_lookup_insert_eq. eapply lookup_lt_Some. exact Hb. }
  assert (Hin1 : key ∉ svc_sentEmailIds (service w1)) by exact Hin.
  assert (Hlim1 : limited w1 = false).
  { rewrite limited_room. apply bool_decide_eq_false.
    unfold room in *. unfold w1. simpl. rewrite retained_now, length_app. simpl. lia. }
  destruct (advance_sendEmail_accepted payload key w1 cb' Hin1 Hlim1 Hb1) as (k' & E').
  cbv zeta in E'. rewrite (guard_closed (clock w1) cb' Hs) in E'.
  assert (Hheap1 : heap w1 = heap w ++ [mkTracked r pending 1 None (clock w) key]).
  { unfold w1, accepted. simpl. rewrite alter_app_r_alt by (fold r; lia).
    fold r. rewrite Nat.sub_diag. reflexivity. }
  do 5 eexists. split.
  { cbn [run act]. rewrite E. cbn [park act]. rewrite E'. cbn [park].
    rewrite <- app_assoc. reflexivity. }
  split.
  { unfold sendCalledCount, breaker. simpl.
    rewrite list_lookup_insert_eq
      by (rewrite length_insert; eapply lookup_lt_Some; exact Hb).
    simpl. f_equal. lia. }
  split. { simpl. rewrite <- app_assoc. reflexivity. }
  split.
  { simpl. change (alter _ _ (heap w ++ _)) with (heap w1). rewrite Hheap1.
    rewrite length_app. simpl.
    replace (length (heap w) + 1)%nat with
      (length (heap w ++ [mkTracked r pending 1 None (clock w) key]))
      by (rewrite length_app; reflexivity).
    rewrite alter_app_r_alt by lia. rewrite Nat.sub_diag. simpl.
    rewrite <- app_assoc. simpl. rewrite length_app. simpl. fold r.
    replace (r + 1)%nat with (S r) by lia. reflexivity. }
  split.
  { unfold EmailService.getEmailStatus. simpl. rewrite lookup_insert_eq.
    rewrite length_alter, length_app. simpl. fold r. f_equal. lia. }
  exact Hin.
Qed.

Lemma X19_witness :
  let r := length (heap Race.start) in
  exists w' due k due' k',
    run [Call emailPayload "k"; Call emailPayload "k"] (Race.start, [])
      = Some (w', [] ++ [Suspended due k; Suspended due' k']) /\
    sendCalledCount 0 w'
      = Some (pr_sendCalledCount
                (cb_provider
                   (EmailService.newBreaker (ControllableMockProvider "Provider1" false)))
              + 2)%nat /\
    effects w' = effects Race.start ++ [ProviderCall 0; ProviderCall 0] /\
    heap w' = heap Race.start ++ [mkTracked r pending 1 None (clock Race.start) "k";
                                  mkTracked (S r) pending 1 None (clock Race.start) "k"] /\
    EmailService.getEmailStatus "k" w' = Some (S r) /\
    "k" ∉ svc_sentEmailIds (service w').
Proof.
  apply (X19_same_key_twice_in_flight emailPayload "k" Race.start []
           (EmailService.newBreaker (ControllableMockProvider "Provider1" false))).
  - apply not_elem_of_empty.
  - vm_compute. lia.
  - reflexivity.
  - reflexivity.
Defined.

(** ** Falling back past an open circuit *)

(** X20. What the breaker buys.  When a call reaches the loops while the
    primary's circuit is OPEN and stays inside its reset timeout for the
    600 ms the three refused tries take, the primary is not called at all;
    if the secondary's breaker then lets the request through and the
    secondary resolves it with success, the record is [sent] under the
    name the secondary answered with, after four attempts, two timers and
    one provider call. *)
Theorem X20_fallback_past_an_open_circuit
    (payload : EmailPayload) (key : string) (w : World)
    (cb0 cb1 cb1' : CircuitBreaker) (providerName : string)
    (Hin : key ∉ svc_sentEmailIds (service w))
    (Hlim : limited w = false)
    (Hb0 : breaker 0 w = Some cb0)
    (Hopen : cb_state cb0 = OPEN)
    (Hearly : clock w + 600 - cb_lastFailureTime cb0 <= resetTimeout)
    (Hb1 : breaker 1 w = Some cb1)
    (Hg : CircuitBreaker.guard (clock w + 600) cb1 = (cb1', None))
    (Hok : pr_behaviour (cb_provider cb1) (pr_sendCalledCount (cb_provider cb1)) payload
           = Resolved true providerName) :
  let out := runSeq (EmailService.sendEmail payload key) w in
  let r := length (heap w) in
  snd out = Returned (Some r) /\
  breaker 0 (fst out) = Some cb0 /\
  sendCalledCount 1 (fst out) = Some (S (pr_sendCalledCount (cb_provider cb1))) /\
  effects (fst out) = effects w ++ [Timer 200; Timer 400; ProviderCall 1] /\
  clock (fst out) = clock w + 600 +
    Z.max 0 (pr_latency (cb_provider cb1) (pr_sendCalledCount (cb_provider cb1))) /\
  key ∈ svc_sentEmailIds (service (fst out)) /\
  exists e,
    EmailService.statusRecord key (fst out) = Some e /\
    te_status e = sent /\ te_provider e = Some providerName /\
    te_attempts e = 4%nat /\ te_idempotencyKey e = key.
Proof.
  intros out r. subst out. rewrite sendEmail_accepted by assumption. cbv zeta. fold r.
  assert (Hlen : exists m, length (svc_providers (service w)) = S (S m)).
  { apply lookup_lt_Some in Hb1.
    destruct (length (svc_providers (service w))) as [|[|m]]; [lia | lia | eauto]. }
  destruct Hlen as [m ->]. cbn [seq].
  set (w0 := accepted key w).
  assert (He0 : heap w0 !! r = Some (mkTracked r pending 0 None (clock w) key)).
  { unfold w0, accepted. simpl. rewrite lookup_app_r by reflexivity.
    fold r. rewrite Nat.sub_diag. reflexivity. }
  rewrite providersLoop_cons. cbv zeta.
  destruct (retryLoop_open payload key r 0 w0 cb0 Hb0 Hopen Hearly)
    as (Hn & Hp & Heff & Hc).
  pose proof (retryLoop_outcome payload key r 0 (S MAX_RETRIES) 0 w0) as F.
  destruct (retryLoop_attempts payload key r 0 (S MAX_RETRIES) 0 w0 _ He0)
    as (e1 & He1 & Hatt).
  unfold LoopOutcome in F.
  destruct (runSeq (EmailService.retryLoop _ _ _ 0 _ _) w0) as [w1 res];
    cbn [fst snd] in *. subst res.
  destruct (frame_record _ _ _ F _ He0) as (e1' & He1' & _ & Hst & Hpr & Hk).
  assert (e1' = e1) by congruence. subst e1'.
  rewrite providersLoop_cons. cbv zeta. rewrite retryLoop_S. cbv zeta.
  set (w2 := mutate r (EmailService.countAttempt (clock w1)) w1).
  assert (Hb1' : breaker 1 w2 = Some cb1).
  { unfold w2, breaker. simpl. rewrite Hp. exact Hb1. }
  assert (Hg' : CircuitBreaker.guard (clock w2) cb1 = (cb1', None)).
  { change (clock w2) with (clock w1). rewrite Hc. exact Hg. }
  destruct (sendSeq_called 1 payload w2 cb1 cb1' Hb1' Hg')
    as (Hsnd & Hclock & Heff2 & Hbr).
  cbv zeta in *. rewrite Hok in Hsnd, Hbr.
  pose proof (Frame_sendSeq r 1 payload w2) as F2.
  pose proof (sendSeq_heap 1 payload w2) as Hheap.
  pose proof (sendSeq_other 1 0 payload w2 ltac:(lia)) as Hother.
  destruct (sendSeq 1 payload w2) as [w3 result]. cbn [fst snd] in *. subst result.
  cbn [fst snd].
  split; [reflexivity|]. split.
  { rewrite breaker_succeed, Hother. unfold w2, breaker. simpl. rewrite Hp. exact Hb0. }
  split.
  { unfold sendCalledCount. rewrite breaker_succeed, Hbr. simpl.
    destruct (guard_keeps _ _ _ _ Hg) as [Hprov _]. reflexivity. }
  split.
  { change (effects (succeed key r providerName w3)) with (effects w3).
    rewrite Heff2. change (effects w2) with (effects w1). rewrite Heff.
    rewrite <- app_assoc. reflexivity. }
  split.
  { change (clock (succeed key r providerName w3)) with (clock w3).
    rewrite Hclock. change (clock w2) with (clock w1). rewrite Hc. reflexivity. }
  split. { simpl. apply elem_of_union_l, elem_of_singleton. reflexivity. }
  exists (EmailService.markSent providerName (EmailService.countAttempt (clock w1) e1)).
  unfold EmailService.statusRecord, EmailService.getEmailStatus. simpl.
  rewrite lookup_insert_eq. simpl. rewrite Hheap. unfold w2. simpl.
  rewrite list_lookup_alter_eq, list_lookup_alter_eq, He1. simpl.
  split; [reflexivity|]. split; [reflexivity|]. split; [reflexivity|].
  simpl in Hatt, Hk. unfold MAX_RETRIES in Hatt. split; [lia | assumption].
Qed.

Lemma X20_witness :
  let out := runSeq (EmailService.sendEmail emailPayload "id-2b") (fst Fallback.first) in
  let r := length (heap (fst Fallback.first)) in
  snd out = Returned (Some r) /\
  breaker 0 (fst out)
    = Some (mkBreaker
              (mkProvider "Provider1" 3
                 (pr_behaviour (ControllableMockProvider "Provider1" true)) (fun _ => 0))
              OPEN 3 600 false) /\
  sendCalledCount 1 (fst out) = Some 2%nat /\
  effects (fst out)
    = effects (fst Fallback.first) ++ [Timer 200; Timer 400; ProviderCall 1] /\
  clock (fst out) = clock (fst Fallback.first) + 600 + Z.max 0 0 /\
  "id-2b" ∈ svc_sentEmailIds (service (fst out)) /\
  exists e,
    EmailService.statusRecord "id-2b" (fst out) = Some e /\
    te_status e = sent /\ te_provider e = Some "Provider2" /\
    te_attempts e = 4%nat /\ te_idempotencyKey e = "id-2b".
Proof.
  apply (X20_fallback_past_an_open_circuit emailPayload "id-2b" (fst Fallback.first)
           (mkBreaker
              (mkProvider "Provider1" 3
                 (pr_behaviour (ControllableMockProvider "Provider1" true)) (fun _ => 0))
              OPEN 3 600 false)
           (mkBreaker
              (mkProvider "Provider2" 1
                 (pr_behaviour (ControllableMockProvider "Provider2" false)) (fun _ => 0))
              CLOSED 0 0 false)
           (mkBreaker
              (mkProvider "Provider2" 1
                 (pr_behaviour (ControllableMockProvider "Provider2" false)) (fun _ => 0))
              CLOSED 0 0 false)
           "Provider2").
  - apply (bool_decide_unpack _). vm_compute. exact I.
  - vm_compute. reflexivity.
  - vm_compute. reflexivity.
  - reflexivity.
  - vm_compute. discriminate.
  - vm_compute. reflexivity.
  - reflexivity.
  - reflexivity.
Defined.

(** ** How long a call takes *)

Lemma Within_afterSend L payload (this : nat) now now' cb :
  Within L cb -> Within L (afterSend now now' payload cb).
Proof.
  unfold Within, afterSend. intros H.
  destruct (CircuitBreaker.guard now cb) as [cb1 thrown] eqn:Hg.
  destruct (guard_keeps _ _ _ _ Hg) as [Hp _].
  destruct thrown as [e|]; [rewrite Hp; exact H|].
  destruct (pr_behaviour (cb_provider cb1) _ _); simpl; rewrite Hp; exact H.
Qed.

Lemma sendSeq_within L this payload w :
  0 <= L -> allBreakers (fun _ => Within L) w ->
  clock (fst (sendSeq this payload w)) <= clock w + L.
Proof.
  intros HL H. unfold sendSeq.
  destruct (breaker this w) as [cb|] eqn:Hb; [|simpl; lia].
  destruct (CircuitBreaker.guard (clock w) cb) as [cb1 [e|]] eqn:Hg; [simpl; lia|].
  destruct (guard_keeps _ _ _ _ Hg) as [Hp _]. simpl. rewrite Hp.
  pose proof (H this cb Hb (pr_sendCalledCount (cb_provider cb))). lia.
Qed.

Lemma clock_afterRejection i w :
  clock (afterRejection i w) + backoffLeft (S i) <= clock w + backoffLeft i.
Proof.
  unfold afterRejection, MAX_RETRIES.
  destruct i as [|[|i]]; simpl; unfold EmailService.backoff; simpl; lia.
Qed.

Lemma retryLoop_within L payload key r this n : forall i w,
  0 <= L -> allBreakers (fun _ => Within L) w ->
  clock (fst (runSeq (EmailService.retryLoop payload key r this n i) w))
    <= clock w + Z.of_nat n * L + backoffLeft i.
Proof.
  induction n as [|n IH]; intros i w HL H.
  - rewrite retryLoop_0. simpl. destruct i as [|[|i]]; simpl; lia.
  - rewrite retryLoop_S. cbv zeta.
    set (w1 := mutate r (EmailService.countAttempt (clock w)) w).
    assert (H1 : allBreakers (fun _ => Within L) w1) by exact H.
    pose proof (sendSeq_within L this payload w1 HL H1) as C.
    change (clock w1) with (clock w) in C.
    pose proof (allBreakers_sendSeq (fun _ => Within L) payload
                  (Within_afterSend L payload) this w1 H1) as H2.
    assert (Hleft : backoffLeft (S i) <= backoffLeft i /\ 0 <= backoffLeft i)
      by (destruct i as [|[|i]]; simpl; lia).
    assert (Hrej : clock (fst (runSeq (EmailService.retryLoop payload key r this n (S i))
                                 (afterRejection i (fst (sendSeq this payload w1)))))
                   <= clock w + Z.of_nat (S n) * L + backoffLeft i).
    { assert (H3 : allBreakers (fun _ => Within L)
                     (afterRejection i (fst (sendSeq this payload w1)))).
      { intros j cb Hj. rewrite breaker_afterRejection in Hj. exact (H2 j cb Hj). }
      specialize (IH (S i) _ HL H3).
      pose proof (clock_afterRejection i (fst (sendSeq this payload w1))). lia. }
    destruct (snd (sendSeq this payload w1)) as [[] name | msg | []].
    + cbn [fst]. change (clock (succeed key r name (fst (sendSeq this payload w1))))
        with (clock (fst (sendSeq this payload w1))). lia.
    + specialize (IH (S i) _ HL H2). lia.
    + exact Hrej.
    + cbn [fst]. lia.
    + exact Hrej.
Qed.

Lemma providersLoop_within L payload key r providers : forall w,
  0 <= L -> allBreakers (fun _ => Within L) w ->
  clock (fst (runSeq (EmailService.providersLoop payload key r providers) w))
    <= clock w + Z.of_nat (length providers) * (3 * L + 600).
Proof.
  induction providers as [|this rest IH]; intros w HL H.
  - simpl. lia.
  - rewrite providersLoop_cons. cbv zeta.
    pose proof (retryLoop_within L payload key r this (S MAX_RETRIES) 0 w HL H) as C.
    pose proof (allBreakers_retryLoop (fun _ => Within L) payload
                  (Within_afterSend L payload) key r this (S MAX_RETRIES) 0 w H) as H1.
    unfold MAX_RETRIES in C. simpl backoffLeft in C.
    destruct (runSeq (EmailService.retryLoop _ _ _ _ _ _) w) as [w' [res|]];
      cbn [fst snd length] in *.
    + lia.
    + specialize (IH w' HL H1). lia.
Qed.

(** X21. How long a call can take.  If no call of any provider takes
    longer than [L] ms, an awaited [sendEmail] is over at most
    [n * (3 * L + 600)] ms after it began, with [n] the number of
    providers: three calls and 600 ms of backoff per provider.  It never
    ends before it began. *)
Theorem X21_a_call_ends_in_time
    (payload : EmailPayload) (key : string) (w : World) (L : Z)
    (HL : 0 <= L)
    (Hlat : Forall (Within L) (svc_providers (service w))) :
  let out := runSeq (EmailService.sendEmail payload key) w in
  clock w <= clock (fst out) /\
  clock (fst out)
    <= clock w + Z.of_nat (length (svc_providers (service w))) * (3 * L + 600).
Proof.
  intros out. subst out.
  split; [exact (clock_step w (OpSend payload key))|].
  assert (H : allBreakers (fun _ => Within L) w).
  { intros this cb Hb. rewrite Forall_lookup in Hlat. exact (Hlat this cb Hb). }
  assert (Hn : 0 <= Z.of_nat (length (svc_providers (service w))) * (3 * L + 600))
    by lia.
  destruct (decide (key ∈ svc_sentEmailIds (service w))) as [Hin|Hin].
  { rewrite sendEmail_seen by assumption. simpl. lia. }
  destruct (limited w) eqn:Hlim.
  { rewrite sendEmail_limited by assumption. simpl. lia. }
  rewrite sendEmail_accepted by assumption. cbv zeta.
  pose proof (providersLoop_within L payload key (length (heap w))
                (seq 0 (length (svc_providers (service w)))) (accepted key w) HL H) as C.
  rewrite length_seq in C. change (clock (accepted key w)) with (clock w) in C.
  destruct (runSeq (EmailService.providersLoop _ _ _ _) _) as [w' [res|]];
    cbn [fst snd] in *; [exact C|]. simpl. exact C.
Qed.

Lemma X21_witness :
  let out := runSeq (EmailService.sendEmail emailPayload "a")
               (server 0 (fun _ => 1 # 4)%Q) in
  clock (server 0 (fun _ => 1 # 4)%Q) <= clock (fst out) /\
  clock (fst out)
    <= clock (server 0 (fun _ => 1 # 4)%Q)
       + Z.of_nat (length (svc_providers (service (server 0 (fun _ => 1 # 4)%Q))))
         * (3 * 500 + 600).
Proof.
  apply (X21_a_call_ends_in_time emailPayload "a" (server 0 (fun _ => 1 # 4)%Q) 500).
  - lia.
  - repeat constructor; intros n; simpl; lia.
Defined.
